(** * rawboard: the leaderboard service (internal/leaderboard/service.go)

    A shallow embedding of the score-aggregation core of rawboard in Rocq.

    - The key-value store (Valkey) is a finite map from keys to payloads.
      [Get] fails exactly when the key is absent; [Set] overwrites.
    - A stored value is the JSON text written by one of the service's
      encoders.  We keep the record it encodes ([PAllScores], [PHighScores],
      [PLeaderboard]); any other text is [PRaw], on which every decoder
      fails (a corrupt record).
    - [time.Time] is a [Z] of nanoseconds since the Unix epoch; each
      service call receives the clock reading [now] that its [time.Now()]
      calls return.
    - [int64] is [Z]; the one addition that can overflow (the running
      score total of [GetScoreAnalysis]) wraps around explicitly.
    - Go functions returning [error] run in a state monad over the store
      whose results are [Ok], [Err] (a returned error, the store keeping the
      writes already made) or [Panic] (a run-time panic). *)

From Stdlib Require Import ZArith Lia Sorting.Permutation Sorting.Sorted.
From stdpp Require Import base gmap strings list fin_maps pretty.

Open Scope Z_scope.

(** ** Data model (internal/models/player.go) *)

Record ScoreEntry := {
  Initials : string;
  Score : Z;
  Timestamp : Z
}.

Record Leaderboard := {
  GameID : string;
  Entries : list ScoreEntry
}.

Record AllScoresRecord := {
  asGameID : string;
  Scores : list ScoreEntry;
  asUpdated : Z
}.

Record PlayerHighScores := {
  hsGameID : string;
  HighScores : gmap string ScoreEntry;
  hsUpdated : Z
}.

Record Achievement := {
  ID : string;
  Name : string;
  Description : string;
  UnlockedAt : Z;
  Icon : string
}.

(** [float64(num) / float64(den)]; the floating-point division itself is
    not modelled, only its operands. *)
Record FloatRatio := { num : Z; den : nat }.

Record EnhancedPlayerStats := {
  eInitials : string;
  eHighScore : Z;
  eTotalScores : nat;
  eLastPlayed : Z;
  eAverageScore : FloatRatio;
  eFirstPlayed : Z;
  CurrentRank : option nat;
  Achievements : list Achievement;
  ScoreHistory : list ScoreEntry
}.

Record ScoreAnalysisResponse := {
  raGameID : string;
  TotalPlayers : nat;
  TotalScores : nat;
  HighestScore : Z;
  raAverageScore : FloatRatio;
  LastActivity : Z;
  TopPlayers : list EnhancedPlayerStats;
  ScoreDistribution : gmap string nat;
  RecentAchievements : list Achievement;
  raUpdated : Z
}.

(** [models.PlayerStats]. *)
Record PlayerStats := {
  psInitials : string;
  psHighScore : Z;
  psTotalScores : nat;
  psLastPlayed : Z;
  psAverageScore : FloatRatio;
  psFirstPlayed : Z
}.

(** The zero [time.Time] (0001-01-01T00:00:00Z) in Unix nanoseconds. *)
Definition zeroTime : Z := -62135596800 * 1000000000.

Definition zeroEntry : ScoreEntry :=
  {| Initials := ""; Score := 0; Timestamp := zeroTime |}.

(** ** Strings: [strings.TrimSpace], [strings.ToUpper], [strings.Contains]

    Go strings are byte strings and [len] counts bytes, as [String.length]
    does.  The ASCII behaviour of [TrimSpace] and [ToUpper] is modelled;
    their Unicode cases (U+0085, U+00A0, non-ASCII letters) are not. *)

Definition isSpaceByte (c : Ascii.ascii) : bool :=
  let n := Ascii.nat_of_ascii c in
  (Nat.eqb n 32 || ((9 <=? n)%nat && (n <=? 13)%nat))%bool.

Fixpoint trimLeft (s : string) : string :=
  match s with
  | EmptyString => EmptyString
  | String c s' => if isSpaceByte c then trimLeft s' else s
  end.

Definition string_rev (s : string) : string :=
  String.string_of_list_ascii (rev (String.list_ascii_of_string s)).

Definition TrimSpace (s : string) : string :=
  string_rev (trimLeft (string_rev (trimLeft s))).

Definition upperByte (c : Ascii.ascii) : Ascii.ascii :=
  let n := Ascii.nat_of_ascii c in
  if ((97 <=? n)%nat && (n <=? 122)%nat)%bool
  then Ascii.ascii_of_nat (n - 32) else c.

Fixpoint ToUpper (s : string) : string :=
  match s with
  | EmptyString => EmptyString
  | String c s' => String (upperByte c) (ToUpper s')
  end.

(** [strings.Contains(s, " ")]. *)
Fixpoint containsSpace (s : string) : bool :=
  match s with
  | EmptyString => false
  | String c s' => (Nat.eqb (Ascii.nat_of_ascii c) 32 || containsSpace s')%bool
  end.

(** ** The store and the service monad *)

Inductive Payload :=
  | PAllScores (r : AllScoresRecord)
  | PHighScores (r : PlayerHighScores)
  | PLeaderboard (r : Leaderboard)
  | PRaw (s : string).

Abbreviation DB := (gmap string Payload).

Inductive Res (A : Type) :=
  | Ok (a : A)
  | Err (e : string)
  | Panic (e : string).
Arguments Ok {A} a.
Arguments Err {A} e.
Arguments Panic {A} e.

Definition M (A : Type) : Type := DB -> Res A * DB.

Definition ret {A} (a : A) : M A := fun db => (Ok a, db).
Definition fail {A} (e : string) : M A := fun db => (Err e, db).

Definition bind {A B} (m : M A) (k : A -> M B) : M B := fun db =>
  match m db with
  | (Ok a, db') => k a db'
  | (Err e, db') => (Err e, db')
  | (Panic e, db') => (Panic e, db')
  end.

Notation "x <- m ;; k" := (bind m (fun x => k))
  (at level 100, m at next level, right associativity).
Notation "m ;;; k" := (bind m (fun _ => k))
  (at level 100, right associativity).

(** [v, err := f(); if err != nil ...]: the error becomes a value. *)
Definition attempt {A} (m : M A) : M (A + string) := fun db =>
  match m db with
  | (Ok a, db') => (Ok (inl a), db')
  | (Err e, db') => (Ok (inr e), db')
  | (Panic e, db') => (Panic e, db')
  end.

(** [if err != nil { return fmt.Errorf("msg: %w", err) }]. *)
Definition with_context {A} (msg : string) (m : M A) : M A := fun db =>
  match m db with
  | (Err e, db') => (Err (msg +:+ ": " +:+ e), db')
  | r => r
  end.

(** [database.DB]: [Get] and [Set]. *)
Definition dbGet (key : string) : M Payload := fun db =>
  match db !! key with
  | Some v => (Ok v, db)
  | None => (Err "redis: nil", db)
  end.

Definition dbSet (key : string) (v : Payload) : M unit := fun db =>
  (Ok tt, <[key := v]> db).

Definition key_leaderboard (gameID : string) : string := "leaderboard:" +:+ gameID.
Definition key_all_scores (gameID : string) : string := "all_scores:" +:+ gameID.
Definition key_player_high_scores (gameID : string) : string :=
  "player_high_scores:" +:+ gameID.

(** ** The JSON codec

    A decoder succeeds on the text its own encoder writes.  The service
    never stores one record kind under another kind's key, so any other
    stored text counts as unparsable here. *)

Definition decodeAllScores (p : Payload) : AllScoresRecord + string :=
  match p with
  | PAllScores r => inl r
  | _ => inr "invalid character looking for beginning of value"
  end.

Definition decodePlayerHighScores (p : Payload) : PlayerHighScores + string :=
  match p with
  | PHighScores r => inl r
  | _ => inr "invalid character looking for beginning of value"
  end.

Definition decodeLeaderboard (p : Payload) : Leaderboard + string :=
  match p with
  | PLeaderboard r => inl r
  | _ => inr "invalid character looking for beginning of value"
  end.

(** [ScoreEntry.Validate] (models/player.go).  The normalisation and the
    defaulted timestamp are written to the receiver; the error is what
    callers observe. *)
Definition ScoreEntry_Validate (now : Z) (se : ScoreEntry) : ScoreEntry * option string :=
  let ini := ToUpper (TrimSpace (Initials se)) in
  let se := {| Initials := ini; Score := Score se; Timestamp := Timestamp se |} in
  if negb (Nat.eqb (String.length ini) 3) then
    (se, Some ("initials must be exactly 3 characters, got " +:+
               pretty (N.of_nat (String.length ini))))
  else if containsSpace ini then (se, Some "initials cannot contain spaces")
  else if Score se <? 0 then (se, Some "score cannot be negative")
  else if 999999999 <? Score se then
    (se, Some "score too high - maximum allowed is 999,999,999")
  else
    ({| Initials := ini; Score := Score se;
        Timestamp := if Timestamp se =? zeroTime then now else Timestamp se |}, None).

Fixpoint validateEntries (i : nat) (l : list ScoreEntry) : option string :=
  match l with
  | [] => None
  | e :: l' =>
      match snd (ScoreEntry_Validate 0 e) with
      | Some err => Some ("entry " +:+ pretty (N.of_nat i) +:+ " invalid: " +:+ err)
      | None => validateEntries (S i) l'
      end
  end.

(** [Leaderboard.Validate]: each entry is validated on a copy, so the
    clock reading of its timestamp default is irrelevant. *)
Definition Leaderboard_Validate (lb : Leaderboard) : option string :=
  if String.eqb (TrimSpace (GameID lb)) "" then Some "game_id cannot be empty"
  else if (50 <? String.length (GameID lb))%nat then
    Some "game_id too long - maximum 50 characters"
  else if (10 <? length (Entries lb))%nat then
    Some "leaderboard cannot have more than 10 entries"
  else validateEntries 0 (Entries lb).

(** [json.Encoder.Encode] of a [*Leaderboard] goes through its
    [MarshalJSON], which validates first.  The encoders of the other two
    records cannot fail. *)
Definition encodeLeaderboard (lb : Leaderboard) : Payload + string :=
  match Leaderboard_Validate lb with
  | Some e => inr ("json: error calling MarshalJSON for type *models.Leaderboard: validation failed: " +:+ e)
  | None => inl (PLeaderboard lb)
  end.

(** Go's [v, ok := m[k]] on a [map[string]ScoreEntry]. *)
Definition lookupEntry (m : gmap string ScoreEntry) (k : string) : ScoreEntry * bool :=
  match m !! k with
  | Some e => (e, true)
  | None => (zeroEntry, false)
  end.

(** ** Sorting

    [sort.SliceStable] yields the unique stable ordering of its input
    for a strict weak order; the insertion sort below computes it. *)
Fixpoint insertStable (less : ScoreEntry -> ScoreEntry -> bool)
    (x : ScoreEntry) (l : list ScoreEntry) : list ScoreEntry :=
  match l with
  | [] => [x]
  | y :: l' => if less x y then x :: l else y :: insertStable less x l'
  end.

Definition sortStable (less : ScoreEntry -> ScoreEntry -> bool)
    (l : list ScoreEntry) : list ScoreEntry :=
  fold_left (fun acc x => insertStable less x acc) l [].

(** The comparator of [regenerateFilteredLeaderboard]: score descending,
    on equal scores the later timestamp first. *)
Definition lessEntry (a b : ScoreEntry) : bool :=
  if Score a =? Score b then Timestamp b <? Timestamp a
  else Score b <? Score a.

(** ** The service (internal/leaderboard/service.go) *)

Definition saveLeaderboard (lb : Leaderboard) : M unit :=
  match encodeLeaderboard lb with
  | inr e => fail ("failed to marshal leaderboard: " +:+ e)
  | inl data => dbSet (key_leaderboard (GameID lb)) data
  end.

Definition getAllScores (gameID : string) : M AllScoresRecord :=
  r <- attempt (dbGet (key_all_scores gameID)) ;;
  match r with
  | inr _ => fail "no score history found for game"
  | inl data =>
      match decodeAllScores data with
      | inl allScores => ret allScores
      | inr e => fail ("failed to unmarshal all scores: " +:+ e)
      end
  end.

Definition getPlayerHighScores (gameID : string) : M PlayerHighScores :=
  r <- attempt (dbGet (key_player_high_scores gameID)) ;;
  match r with
  | inr _ => fail "no player high scores found for game"
  | inl data =>
      match decodePlayerHighScores data with
      | inl highScores => ret highScores
      | inr e => fail ("failed to unmarshal player high scores: " +:+ e)
      end
  end.

Definition getRawLeaderboard (gameID : string) : M Leaderboard :=
  r <- attempt (dbGet (key_leaderboard gameID)) ;;
  match r with
  | inr e => fail ("no raw leaderboard found for game: " +:+ e)
  | inl data =>
      match decodeLeaderboard data with
      | inl lb => ret lb
      | inr e => fail ("failed to unmarshal raw leaderboard: " +:+ e)
      end
  end.

Definition addToAllScores (gameID initials : string) (score now : Z) : M unit :=
  let entry := {| Initials := initials; Score := score; Timestamp := now |} in
  r <- attempt (getAllScores gameID) ;;
  let allScores :=
    match r with
    | inl a => a
    | inr _ => {| asGameID := gameID; Scores := []; asUpdated := now |}
    end in
  let allScores :=
    {| asGameID := asGameID allScores; Scores := Scores allScores ++ [entry];
       asUpdated := now |} in
  dbSet (key_all_scores gameID) (PAllScores allScores).

Definition updatePlayerHighScore (gameID initials : string) (score now : Z) : M unit :=
  r <- attempt (getPlayerHighScores gameID) ;;
  let highScores :=
    match r with
    | inl h => h
    | inr _ => {| hsGameID := gameID; HighScores := ∅; hsUpdated := now |}
    end in
  let '(existingEntry, exists_) := lookupEntry (HighScores highScores) initials in
  if (negb exists_ || (Score existingEntry <? score))%bool then
    let highScores :=
      {| hsGameID := hsGameID highScores;
         HighScores := <[initials := {| Initials := initials; Score := score;
                                        Timestamp := now |}]> (HighScores highScores);
         hsUpdated := now |} in
    dbSet (key_player_high_scores gameID) (PHighScores highScores)
  else ret tt.

(** The entries of the filtered leaderboard.  Go ranges over the map in
    a randomised order; [map_to_list] stands for one such order, and the
    results below about the sorted list hold for every input order. *)
Definition filteredEntries (m : gmap string ScoreEntry) : list ScoreEntry :=
  let entries := map snd (map_to_list m) in
  let entries := sortStable lessEntry entries in
  if (10 <? length entries)%nat then take 10 entries else entries.

Definition regenerateFilteredLeaderboard (gameID : string) : M unit :=
  highScores <- with_context "failed to get player high scores"
                  (getPlayerHighScores gameID) ;;
  saveLeaderboard {| GameID := gameID; Entries := filteredEntries (HighScores highScores) |}.

Definition SubmitScore (gameID initials : string) (score now : Z) : M unit :=
  let initials := ToUpper (TrimSpace initials) in
  if (negb (Nat.eqb (String.length initials) 3) || containsSpace initials)%bool then
    fail "initials must be exactly 3 characters with no spaces"
  else
    with_context "failed to store score in history"
      (addToAllScores gameID initials score now) ;;;
    with_context "failed to update player high score"
      (updatePlayerHighScore gameID initials score now) ;;;
    regenerateFilteredLeaderboard gameID.

(** The high-score map built by the migration: per initials, the first
    entry with the largest score. *)
Definition migrateHighScores (entries : list ScoreEntry) : gmap string ScoreEntry :=
  fold_left (fun m entry =>
    let '(existing, exists_) := lookupEntry m (Initials entry) in
    if (negb exists_ || (Score existing <? Score entry))%bool
    then <[Initials entry := entry]> m else m) entries ∅.

Definition MigrateExistingLeaderboard (gameID : string) (now : Z) : M unit :=
  r <- attempt (getRawLeaderboard gameID) ;;
  match r with
  | inr _ => ret tt
  | inl leaderboard =>
      a <- attempt (getAllScores gameID) ;;
      match a with
      | inl _ => ret tt
      | inr _ =>
          dbSet (key_all_scores gameID)
            (PAllScores {| asGameID := gameID; Scores := Entries leaderboard;
                           asUpdated := now |}) ;;;
          dbSet (key_player_high_scores gameID)
            (PHighScores {| hsGameID := gameID;
                            HighScores := migrateHighScores (Entries leaderboard);
                            hsUpdated := now |}) ;;;
          regenerateFilteredLeaderboard gameID
      end
  end.

Definition GetLeaderboard (gameID : string) (now : Z) : M Leaderboard :=
  let key := key_leaderboard gameID in
  r <- attempt (dbGet key) ;;
  data <- match r with
          | inl data => ret data
          | inr _ =>
              m <- attempt (MigrateExistingLeaderboard gameID now) ;;
              match m with
              | inr migrateErr =>
                  fail ("no leaderboard found for game and migration failed: " +:+ migrateErr)
              | inl _ =>
                  r2 <- attempt (dbGet key) ;;
                  match r2 with
                  | inl data => ret data
                  | inr _ => fail "no leaderboard found for game"
                  end
              end
          end ;;
  match decodeLeaderboard data with
  | inl lb => ret lb
  | inr e => fail ("failed to unmarshal leaderboard: " +:+ e)
  end.

(** [submitScoreLegacy]: the pre-filtering write path, which appends the
    entry to the cached leaderboard itself (no per-player filtering) and
    keeps the 10 best.  [sort.SliceStable] with the comparator of
    [lessEntry]. *)
Definition submitScoreLegacy (gameID initials : string) (score now : Z) : M unit :=
  let entry := {| Initials := initials; Score := score; Timestamp := now |} in
  r <- attempt (GetLeaderboard gameID now) ;;
  let leaderboard :=
    match r with
    | inl lb => lb
    | inr _ => {| GameID := gameID; Entries := [] |}
    end in
  let entries := sortStable lessEntry (Entries leaderboard ++ [entry]) in
  let entries := if (10 <? length entries)%nat then take 10 entries else entries in
  saveLeaderboard {| GameID := GameID leaderboard; Entries := entries |}.

(** ** Statistics and achievements *)

Definition wrap64 (x : Z) : Z := (x + 2 ^ 63) mod 2 ^ 64 - 2 ^ 63.

(** The loop shared by [GetPlayerStats] and [GetEnhancedPlayerStats]:
    [(highScore, totalScore, firstPlayed, lastPlayed)], with [highScore]
    starting from 0. *)
Fixpoint statsLoop (i : nat) (ps : list ScoreEntry) (acc : Z * Z * Z * Z)
    : Z * Z * Z * Z :=
  match ps with
  | [] => acc
  | entry :: ps' =>
      let '(highScore, totalScore, firstPlayed, lastPlayed) := acc in
      let highScore := if highScore <? Score entry then Score entry else highScore in
      let totalScore := wrap64 (totalScore + Score entry) in
      let '(firstPlayed, lastPlayed) :=
        if Nat.eqb i 0 then (Timestamp entry, Timestamp entry)
        else ((if Timestamp entry <? firstPlayed then Timestamp entry else firstPlayed),
              (if lastPlayed <? Timestamp entry then Timestamp entry else lastPlayed)) in
      statsLoop (S i) ps' (highScore, totalScore, firstPlayed, lastPlayed)
  end.

Definition playerStatsOf (ps : list ScoreEntry) : Z * Z * Z * Z :=
  statsLoop 0 ps (0, 0, zeroTime, zeroTime).

(** [var highScore int64; for ... if score.Score > highScore ...]. *)
Definition highScoreOf (ps : list ScoreEntry) : Z :=
  fold_left (fun h s => if h <? Score s then Score s else h) ps 0.

(** [sort.Slice] by [Timestamp.Before].  Go's sort is not stable, so the
    order of equal timestamps is unspecified; the stable order is one of
    the admissible results, and the timestamps the achievements read do
    not depend on the choice. *)
Definition lessTimestamp (a b : ScoreEntry) : bool := Timestamp a <? Timestamp b.

Definition milestones : list (Z * string * string * string) :=
  [(1000, "score_1k", "Getting Started", "⭐");
   (5000, "score_5k", "Rising Star", "🌟");
   (10000, "score_10k", "High Achiever", "💫");
   (25000, "score_25k", "Score Master", "🏆");
   (50000, "score_50k", "Legend", "👑")].

(** The first score of the sorted slice meeting a milestone. *)
Fixpoint firstReaching (threshold : Z) (ps : list ScoreEntry) : Z :=
  match ps with
  | [] => zeroTime
  | s :: ps' => if threshold <=? Score s then Timestamp s else firstReaching threshold ps'
  end.

Definition milestoneAchievements (sorted : list ScoreEntry) (highScore : Z)
    : list Achievement :=
  flat_map (fun '(score, id, name, icon) =>
    if score <=? highScore then
      [{| ID := id; Name := name;
          Description := "Reach " +:+ pretty score +:+ " points";
          UnlockedAt := firstReaching score sorted; Icon := icon |}]
    else []) milestones.

(** [calculateAchievements] sorts its argument in place; the sorted slice
    is returned alongside, since the caller's slice aliases it. *)
Definition calculateAchievements (playerScores : list ScoreEntry) (highScore : Z)
    : list Achievement * list ScoreEntry :=
  match playerScores with
  | [] => ([], playerScores)
  | _ :: _ =>
      let sorted := sortStable lessTimestamp playerScores in
      let firstScore := default zeroEntry (head sorted) in
      let first :=
        {| ID := "first_score"; Name := "First Score";
           Description := "Submit your first score";
           UnlockedAt := Timestamp firstScore; Icon := "🎯" |} in
      let dedicated :=
        if (5 <=? length sorted)%nat then
          [{| ID := "dedicated_player"; Name := "Dedicated Player";
              Description := "Submit 5 or more scores";
              UnlockedAt := Timestamp (nth 4 sorted zeroEntry); Icon := "🎮" |}]
        else [] in
      let hunter :=
        if (10 <=? length sorted)%nat then
          [{| ID := "score_hunter"; Name := "Score Hunter";
              Description := "Submit 10 or more scores";
              UnlockedAt := Timestamp (nth 9 sorted zeroEntry); Icon := "🏹" |}]
        else [] in
      (first :: milestoneAchievements sorted highScore ++ dedicated ++ hunter, sorted)
  end.

(** 1-based position of the first entry with these initials. *)
Fixpoint rankOf (initials : string) (i : nat) (entries : list ScoreEntry) : option nat :=
  match entries with
  | [] => None
  | e :: es => if String.eqb (Initials e) initials then Some (S i) else rankOf initials (S i) es
  end.

Definition playerScoresOf (initials : string) (scores : list ScoreEntry) : list ScoreEntry :=
  filter (fun e => String.eqb (Initials e) initials = true) scores.

Definition GetEnhancedPlayerStats (gameID initials : string) (includeHistory : bool)
    (now : Z) : M EnhancedPlayerStats :=
  let initials := ToUpper (TrimSpace initials) in
  if negb (Nat.eqb (String.length initials) 3) then
    fail "initials must be exactly 3 characters"
  else
    allScores <- with_context "failed to get score history" (getAllScores gameID) ;;
    let playerScores := playerScoresOf initials (Scores allScores) in
    match playerScores with
    | [] => fail ("no scores found for player " +:+ initials)
    | _ :: _ =>
        let '(highScore, totalScore, firstPlayed, lastPlayed) := playerStatsOf playerScores in
        r <- attempt (GetLeaderboard gameID now) ;;
        let currentRank :=
          match r with
          | inl leaderboard => rankOf initials 0 (Entries leaderboard)
          | inr _ => None
          end in
        let '(achievements, sortedScores) := calculateAchievements playerScores highScore in
        ret {| eInitials := initials; eHighScore := highScore;
               eTotalScores := length playerScores; eLastPlayed := lastPlayed;
               eAverageScore := {| num := totalScore; den := length playerScores |};
               eFirstPlayed := firstPlayed; CurrentRank := currentRank;
               Achievements := achievements;
               ScoreHistory := if includeHistory then sortedScores else [] |}
    end.

(** [GetPlayerStats]: the statistics loop of [GetEnhancedPlayerStats]
    without rank, achievements or history.  Unlike [SubmitScore] it does
    not reject initials containing a space. *)
Definition GetPlayerStats (gameID initials : string) : M PlayerStats :=
  let initials := ToUpper (TrimSpace initials) in
  if negb (Nat.eqb (String.length initials) 3) then
    fail "initials must be exactly 3 characters"
  else
    allScores <- with_context "failed to get score history" (getAllScores gameID) ;;
    let playerScores := playerScoresOf initials (Scores allScores) in
    match playerScores with
    | [] => fail ("no scores found for player " +:+ initials)
    | _ :: _ =>
        let '(highScore, totalScore, firstPlayed, lastPlayed) := playerStatsOf playerScores in
        ret {| psInitials := initials; psHighScore := highScore;
               psTotalScores := length playerScores; psLastPlayed := lastPlayed;
               psAverageScore := {| num := totalScore; den := length playerScores |};
               psFirstPlayed := firstPlayed |}
    end.

Definition GetAllScoresForGame (gameID : string) : M AllScoresRecord :=
  getAllScores gameID.

(** ** Game-wide analysis *)

(** The single pass of [GetScoreAnalysis]:
    [(highestScore, totalScore, lastActivity, playerMap)]. *)
Definition analysisLoop (scores : list ScoreEntry)
    : Z * Z * Z * gmap string (list ScoreEntry) :=
  fold_left (fun '(highestScore, totalScore, lastActivity, playerMap) score =>
    (if highestScore <? Score score then Score score else highestScore,
     wrap64 (totalScore + Score score),
     if lastActivity <? Timestamp score then Timestamp score else lastActivity,
     <[Initials score := default [] (playerMap !! Initials score) ++ [score]]> playerMap))
    scores (0, 0, zeroTime, ∅).

Definition scoreRanges : list (Z * Z * string) :=
  [(0, 999, "0-999"); (1000, 4999, "1K-5K"); (5000, 9999, "5K-10K");
   (10000, 24999, "10K-25K"); (25000, 49999, "25K-50K");
   (50000, 999999999, "50K+")].

Fixpoint rangeLabel (score : Z) (ranges : list (Z * Z * string)) : option string :=
  match ranges with
  | [] => None
  | (lo, hi, label) :: rs =>
      if (lo <=? score) && (score <=? hi) then Some label else rangeLabel score rs
  end.

Definition scoreDistributionOf (scores : list ScoreEntry) : gmap string nat :=
  fold_left (fun d score =>
    match rangeLabel (Score score) scoreRanges with
    | Some label => <[label := S (default 0%nat (d !! label))]> d
    | None => d
    end) scores ∅.

Definition dayNanos : Z := 24 * 3600 * 1000000000.

Definition recentAchievementsOf (playerMap : gmap string (list ScoreEntry)) (now : Z)
    : list Achievement :=
  let cutoff := now - dayNanos in
  flat_map (fun '(_, playerScores) =>
    let highScore := highScoreOf playerScores in
    filter (fun a => cutoff < UnlockedAt a)
      (fst (calculateAchievements playerScores highScore)))
    (map_to_list playerMap).

(** [limit := topPlayersLimit; if limit <= 0 || limit > 10 { limit = 10 }]. *)
Definition clampLimit (topPlayersLimit : Z) : Z :=
  if (topPlayersLimit <=? 0) || (10 <? topPlayersLimit) then 10 else topPlayersLimit.

(** [for i, entry := range leaderboard.Entries { if i >= limit { break } ... }]. *)
Fixpoint topPlayersLoop (gameID : string) (limit : Z) (i : nat)
    (entries : list ScoreEntry) (now : Z) : M (list EnhancedPlayerStats) :=
  match entries with
  | [] => ret []
  | entry :: es =>
      if limit <=? Z.of_nat i then ret []
      else
        r <- attempt (GetEnhancedPlayerStats gameID (Initials entry) false now) ;;
        rest <- topPlayersLoop gameID limit (S i) es now ;;
        match r with
        | inl stats => ret (stats :: rest)
        | inr _ => ret rest
        end
  end.

Definition nilDereference : string :=
  "runtime error: invalid memory address or nil pointer dereference".

Definition GetScoreAnalysis (gameID : string) (topPlayersLimit : Z) (now : Z)
    : M ScoreAnalysisResponse :=
  allScores <- with_context "failed to get score history" (getAllScores gameID) ;;
  match Scores allScores with
  | [] => fail "no scores found for game"
  | _ :: _ =>
      let totalScores := length (Scores allScores) in
      let '(highestScore, totalScore, lastActivity, playerMap) :=
        analysisLoop (Scores allScores) in
      let totalPlayers := size playerMap in
      (* leaderboard, _ := s.GetLeaderboard(ctx, gameID): nil on error *)
      r <- attempt (GetLeaderboard gameID now) ;;
      let leaderboard := match r with inl lb => Some lb | inr _ => None end in
      let limit := clampLimit topPlayersLimit in
      match leaderboard with
      | None => fun db => (Panic nilDereference, db)
      | Some lb =>
          topPlayers <- topPlayersLoop gameID limit 0 (Entries lb) now ;;
          ret {| raGameID := gameID; TotalPlayers := totalPlayers;
                 TotalScores := totalScores; HighestScore := highestScore;
                 raAverageScore := {| num := totalScore; den := totalScores |};
                 LastActivity := lastActivity; TopPlayers := topPlayers;
                 ScoreDistribution := scoreDistributionOf (Scores allScores);
                 RecentAchievements := recentAchievementsOf playerMap now;
                 raUpdated := now |}
      end
  end.

(** ** The HTTP handlers (internal/handlers/leaderboard.go, routes.go)

    Only their use of the service is modelled: the status code they
    answer with. *)

Record ScoreSubmissionRequest := { reqInitials : string; reqScore : Z }.

(** gin's binding tags: [initials] [binding:"required"]; [score]
    [binding:"required,min=0"] (required rejects the zero value). *)
Definition bindScoreSubmission (req : ScoreSubmissionRequest) : bool :=
  negb (String.eqb (reqInitials req) "") && negb (reqScore req =? 0) && (0 <=? reqScore req).

Definition handleSubmitScore (gameID : string) (req : ScoreSubmissionRequest) (now : Z)
    : M nat :=
  if String.eqb gameID "" then ret 400%nat
  else if (50 <? String.length gameID)%nat then ret 400%nat
  else if negb (bindScoreSubmission req) then ret 400%nat
  else
    let '(entry, verr) :=
      ScoreEntry_Validate now {| Initials := reqInitials req; Score := reqScore req;
                                 Timestamp := zeroTime |} in
    match verr with
    | Some _ => ret 400%nat
    | None =>
        r <- attempt (SubmitScore gameID (Initials entry) (Score entry) now) ;;
        match r with
        | inr _ => ret 400%nat
        | inl _ => _ <- attempt (GetLeaderboard gameID now) ;; ret 201%nat
        end
    end.

(** What the submit handler answers once [SubmitScore] succeeded: the
    leaderboard read back (absent when [GetLeaderboard] fails) and the
    1-based position of the first entry with the submitted initials. *)
Definition submitScoreResponse (gameID initials : string) (now : Z)
    : M (option Leaderboard * option nat) :=
  r <- attempt (GetLeaderboard gameID now) ;;
  match r with
  | inr _ => ret (None, None)
  | inl leaderboard => ret (Some leaderboard, rankOf initials 0 (Entries leaderboard))
  end.

Definition handleGetLeaderboard (gameID : string) (now : Z)
    : M (nat * option Leaderboard) :=
  if String.eqb gameID "" then ret (400%nat, None)
  else if (50 <? String.length gameID)%nat then ret (400%nat, None)
  else
    r <- attempt (GetLeaderboard gameID now) ;;
    match r with
    | inr _ => ret (404%nat, None)
    | inl leaderboard => ret (200%nat, Some leaderboard)
    end.

Definition handleGetPlayerStats (gameID initials : string)
    : M (nat * option PlayerStats) :=
  if String.eqb gameID "" then ret (400%nat, None)
  else if String.eqb initials "" then ret (400%nat, None)
  else if (50 <? String.length gameID)%nat then ret (400%nat, None)
  else
    let initials := ToUpper (TrimSpace initials) in
    if negb (Nat.eqb (String.length initials) 3) then ret (400%nat, None)
    else
      r <- attempt (GetPlayerStats gameID initials) ;;
      match r with
      | inr _ => ret (404%nat, None)
      | inl stats => ret (200%nat, Some stats)
      end.

Definition handleGetAllScores (gameID : string) : M (nat * option AllScoresRecord) :=
  if String.eqb gameID "" then ret (400%nat, None)
  else if (50 <? String.length gameID)%nat then ret (400%nat, None)
  else
    r <- attempt (GetAllScoresForGame gameID) ;;
    match r with
    | inr _ => ret (404%nat, None)
    | inl allScores => ret (200%nat, Some allScores)
    end.

(** [include_history] is on when the query parameter is exactly [true]. *)
Definition handleGetEnhancedPlayerStats (gameID initials includeHistoryQuery : string)
    (now : Z) : M (nat * option EnhancedPlayerStats) :=
  if String.eqb gameID "" then ret (400%nat, None)
  else if String.eqb initials "" then ret (400%nat, None)
  else if (50 <? String.length gameID)%nat then ret (400%nat, None)
  else
    let initials := ToUpper (TrimSpace initials) in
    if negb (Nat.eqb (String.length initials) 3) then ret (400%nat, None)
    else
      let includeHistory := String.eqb includeHistoryQuery "true" in
      r <- attempt (GetEnhancedPlayerStats gameID initials includeHistory now) ;;
      match r with
      | inr _ => ret (404%nat, None)
      | inl stats => ret (200%nat, Some stats)
      end.

(** The [top_players] query parameter: [None] when absent or when
    [strconv.Atoi] rejects it, else the parsed number. *)
Definition handlerTopPlayersLimit (q : option Z) : Z :=
  match q with
  | Some limit => if (0 <? limit) && (limit <=? 10) then limit else 5
  | None => 5
  end.

Definition handleGetScoreAnalysis (gameID : string) (q : option Z) (now : Z)
    : M (nat * option ScoreAnalysisResponse) :=
  if String.eqb gameID "" then ret (400%nat, None)
  else if (50 <? String.length gameID)%nat then ret (400%nat, None)
  else
    r <- attempt (GetScoreAnalysis gameID (handlerTopPlayersLimit q) now) ;;
    match r with
    | inl analysis => ret (200%nat, Some analysis)
    | inr _ => ret (404%nat, None)
    end.

(** Running a sequence of submissions [(initials, score, now)] for one
    game; [Ok] when every call succeeded. *)
Fixpoint submitAll (gameID : string) (subs : list (string * Z * Z)) : M unit :=
  match subs with
  | [] => ret tt
  | (initials, score, now) :: subs' =>
      SubmitScore gameID initials score now ;;; submitAll gameID subs'
  end.

(** ** Reading the store *)

Definition storedHighScores (db : DB) (gameID : string) : gmap string ScoreEntry :=
  match db !! key_player_high_scores gameID with
  | Some (PHighScores hs) => HighScores hs
  | _ => ∅
  end.

Definition storedLeaderboard (db : DB) (gameID : string) : option Leaderboard :=
  match db !! key_leaderboard gameID with
  | Some (PLeaderboard lb) => Some lb
  | _ => None
  end.

Definition storedAllScores (db : DB) (gameID : string) : option AllScoresRecord :=
  match db !! key_all_scores gameID with
  | Some (PAllScores r) => Some r
  | _ => None
  end.

(** The per-player high-score index after one update. *)
Definition hsUpdate (m : gmap string ScoreEntry) (initials : string) (score now : Z)
    : gmap string ScoreEntry :=
  let '(existingEntry, exists_) := lookupEntry m initials in
  if (negb exists_ || (Score existingEntry <? score))%bool
  then <[initials := {| Initials := initials; Score := score; Timestamp := now |}]> m
  else m.

(** ** Auxiliary definitions for the proofs *)

Definition hsChanged (m : gmap string ScoreEntry) (initials : string) (score : Z) : bool :=
  let '(existingEntry, exists_) := lookupEntry m initials in
  (negb exists_ || (Score existingEntry <? score))%bool.

Definition storedHsGameID (db : DB) (gameID : string) : string :=
  match db !! key_player_high_scores gameID with
  | Some (PHighScores hs) => hsGameID hs
  | _ => gameID
  end.

Definition normInitials (s : string) : string := ToUpper (TrimSpace s).

Definition foldHighScores (subs : list (string * Z * Z)) (m : gmap string ScoreEntry)
    : gmap string ScoreEntry :=
  fold_left (fun m '(i, s, t) => hsUpdate m (normInitials i) s t) subs m.

(** The largest of a non-empty list of scores. *)
Definition maxScore (l : list Z) : Z :=
  match l with
  | [] => 0
  | x :: xs => fold_left Z.max xs x
  end.

(** Sample stores. *)

(** One submission for [pacman]. *)
Definition witness_db : DB :=
  snd (submitAll "pacman" [("AAA", 1000, 1)] ∅).

(** The order of the filtered leaderboard: by score descending and, on
    equal scores, by timestamp descending. *)
Definition rankOrder (a b : ScoreEntry) : Prop :=
  Score b <= Score a /\ (Score a = Score b -> Timestamp b <= Timestamp a).

(** A history without any leaderboard record. *)
Definition panic_db : DB :=
  {[key_all_scores "pacman" :=
      PAllScores {| asGameID := "pacman";
                    Scores := [{| Initials := "AAA"; Score := 100; Timestamp := 1 |}];
                    asUpdated := 1 |}]}.

(** One valid submission of 500 for [AAA]. *)
Definition out_of_range_db : DB := snd (SubmitScore "pacman" "AAA" 500 1 ∅).

(** Three players with one submission each. *)
Definition analysis_db : DB :=
  snd (submitAll "pacman" [("AAA", 500, 1); ("BBB", 900, 2); ("CCC", 1500, 3)] ∅).

(** A legacy leaderboard next to an unparsable history record. *)
Definition corrupt_history_db : DB :=
  {[key_leaderboard "pacman" :=
      PLeaderboard {| GameID := "pacman";
                      Entries := [{| Initials := "AAA"; Score := 100; Timestamp := 1 |}] |};
    key_all_scores "pacman" := PRaw "{corrupt"]}.

(** Timestamp order of score entries. *)
Definition tsOrder (a b : ScoreEntry) : Prop := Timestamp a <= Timestamp b.

(** Five submissions of one player, out of timestamp order. *)
Definition achievements_sample : list ScoreEntry :=
  [{| Initials := "AAA"; Score := 1200; Timestamp := 5 |};
   {| Initials := "AAA"; Score := 300; Timestamp := 1 |};
   {| Initials := "AAA"; Score := 800; Timestamp := 3 |};
   {| Initials := "AAA"; Score := 50; Timestamp := 2 |};
   {| Initials := "AAA"; Score := 1000; Timestamp := 4 |}].

(** Every high-score entry is stored under its own initials. *)
Definition keyConsistent (m : gmap string ScoreEntry) : Prop :=
  forall k e, m !! k = Some e -> Initials e = k.

(** At most 10 entries, no initials twice. *)
Definition boardWellFormed (lb : Leaderboard) : Prop :=
  (length (Entries lb) <= 10)%nat /\ NoDup (map Initials (Entries lb)).

(** The invariant of the stores the service produces, for every game. *)
Definition storeInv (db : DB) : Prop :=
  forall g, keyConsistent (storedHighScores db g) /\
    forall lb, storedLeaderboard db g = Some lb -> boardWellFormed lb.

(** A service operation keeps the invariant, whatever its outcome. *)
Definition preserves {A} (m : M A) : Prop :=
  forall db, storeInv db -> storeInv (snd (m db)).

(** The stores produced from the empty store by the service's writers:
    submissions, migrations and leaderboard reads (which may migrate). *)
Inductive reachable : DB -> Prop :=
  | reach_empty : reachable ∅
  | reach_submit g ini s t db : reachable db -> reachable (snd (SubmitScore g ini s t db))
  | reach_migrate g now db : reachable db -> reachable (snd (MigrateExistingLeaderboard g now db))
  | reach_get g now db : reachable db -> reachable (snd (GetLeaderboard g now db)).

(** [e] carries the best score submitted under the normalised initials [k]. *)
Definition isPlayerBest (subs : list (string * Z * Z)) (k : string) (e : ScoreEntry) : Prop :=
  (exists i t, In (i, Score e, t) subs /\ normInitials i = k) /\
  (forall i s t, In (i, s, t) subs -> normInitials i = k -> s <= Score e).

(** What the high-score map records about the submissions folded in. *)
Definition foldInv (subs : list (string * Z * Z)) (m : gmap string ScoreEntry) : Prop :=
  keyConsistent m /\
  (forall k e, m !! k = Some e -> isPlayerBest subs k e) /\
  (forall i s t, In (i, s, t) subs -> m !! normInitials i <> None).

(** The normalised initials of a sequence of submissions. *)
Definition playersOf (subs : list (string * Z * Z)) : list string :=
  map (fun sub : string * Z * Z => normInitials (fst (fst sub))) subs.

(** Eleven players with one submission each. *)
Definition eleven_players : list (string * Z * Z) :=
  [("AAA", 100, 1); ("BBB", 200, 2); ("CCC", 300, 3); ("DDD", 400, 4);
   ("EEE", 500, 5); ("FFF", 600, 6); ("GGG", 700, 7); ("HHH", 800, 8);
   ("III", 900, 9); ("JJJ", 1000, 10); ("KKK", 1100, 11)].

(** The value of a successful result. *)
Definition resValue {A} (r : Res A) : option A :=
  match r with Ok a => Some a | _ => None end.

(** [a] may precede [b] in a list sorted by [less]: [b] does not rank
    strictly before [a]. *)
Definition ranksAtLeast (less : ScoreEntry -> ScoreEntry -> bool) (a b : ScoreEntry) : Prop :=
  less b a = false.

(** [m] leaves the store unchanged, whatever its outcome. *)
Definition readOnly {A} (m : M A) : Prop := forall db, snd (m db) = db.

(** ** Lemmas on the store operations *)

Lemma key_all_hs g : key_all_scores g <> key_player_high_scores g.
Proof. discriminate. Qed.
Lemma key_all_lb g : key_all_scores g <> key_leaderboard g.
Proof. discriminate. Qed.
Lemma key_hs_lb g : key_player_high_scores g <> key_leaderboard g.
Proof. discriminate. Qed.

Lemma addToAllScores_spec g ini score now (db : DB) :
  addToAllScores g ini score now db =
  (Ok tt, <[key_all_scores g :=
      PAllScores {| asGameID := match storedAllScores db g with Some a => asGameID a | None => g end;
                    Scores := match storedAllScores db g with Some a => Scores a | None => [] end
                              ++ [{| Initials := ini; Score := score; Timestamp := now |}];
                    asUpdated := now |}]> db).
Proof.
  unfold addToAllScores, storedAllScores, getAllScores, attempt, bind, dbGet, dbSet, ret, fail.
  destruct (db !! key_all_scores g) as [[]|]; reflexivity.
Qed.

Lemma updatePlayerHighScore_spec g ini score now (db : DB) :
  updatePlayerHighScore g ini score now db =
  (Ok tt,
   if hsChanged (storedHighScores db g) ini score then
     <[key_player_high_scores g :=
         PHighScores {| hsGameID := storedHsGameID db g;
                        HighScores := hsUpdate (storedHighScores db g) ini score now;
                        hsUpdated := now |}]> db
   else db).
Proof.
  unfold updatePlayerHighScore, storedHighScores, storedHsGameID, getPlayerHighScores,
    attempt, bind, dbGet, dbSet, ret, fail, hsChanged, hsUpdate.
  destruct (db !! key_player_high_scores g) as [[]|]; simpl;
    destruct (lookupEntry _ ini) as [e ex]; destruct (negb ex || (Score e <? score))%bool;
    reflexivity.
Qed.

Lemma hsUpdate_unchanged m ini score now :
  hsChanged m ini score = false -> hsUpdate m ini score now = m.
Proof.
  unfold hsChanged, hsUpdate. destruct (lookupEntry m ini) as [e ex].
  intros ->. reflexivity.
Qed.

Lemma hsChanged_false_stored (db : DB) g ini score :
  hsChanged (storedHighScores db g) ini score = false ->
  exists hs, db !! key_player_high_scores g = Some (PHighScores hs).
Proof.
  unfold hsChanged, storedHighScores, lookupEntry.
  destruct (db !! key_player_high_scores g) as [[]|]; eauto;
    rewrite lookup_empty; discriminate.
Qed.

Lemma storedHighScores_update g ini score now (db db' : DB) :
  updatePlayerHighScore g ini score now db = (Ok tt, db') ->
  storedHighScores db' g = hsUpdate (storedHighScores db g) ini score now /\
  exists hs, db' !! key_player_high_scores g = Some (PHighScores hs).
Proof.
  rewrite updatePlayerHighScore_spec. intros H. injection H as <-.
  destruct (hsChanged (storedHighScores db g) ini score) eqn:Hc.
  - unfold storedHighScores at 1. rewrite lookup_insert_eq. eauto.
  - rewrite hsUpdate_unchanged by exact Hc. split; [reflexivity|].
    eapply hsChanged_false_stored; eauto.
Qed.

Lemma regenerate_spec g (db : DB) :
  regenerateFilteredLeaderboard g db =
  match db !! key_player_high_scores g with
  | Some (PHighScores hs) =>
      saveLeaderboard {| GameID := g; Entries := filteredEntries (HighScores hs) |} db
  | Some _ => (Err ("failed to get player high scores: failed to unmarshal player high scores: "
                    +:+ "invalid character looking for beginning of value"), db)
  | None => (Err "failed to get player high scores: no player high scores found for game", db)
  end.
Proof.
  unfold regenerateFilteredLeaderboard, with_context, getPlayerHighScores,
    attempt, bind, dbGet, ret, fail.
  destruct (db !! key_player_high_scores g) as [[]|]; reflexivity.
Qed.

Lemma saveLeaderboard_spec (lb : Leaderboard) (db : DB) :
  saveLeaderboard lb db =
  match Leaderboard_Validate lb with
  | None => (Ok tt, <[key_leaderboard (GameID lb) := PLeaderboard lb]> db)
  | Some e => (Err ("failed to marshal leaderboard: json: error calling MarshalJSON for type *models.Leaderboard: validation failed: " +:+ e), db)
  end.
Proof.
  unfold saveLeaderboard, encodeLeaderboard, dbSet, fail.
  destruct (Leaderboard_Validate lb); reflexivity.
Qed.

Lemma regenerate_ok g (db db' : DB) :
  regenerateFilteredLeaderboard g db = (Ok tt, db') ->
  Leaderboard_Validate {| GameID := g; Entries := filteredEntries (storedHighScores db g) |} = None /\
  db' = <[key_leaderboard g :=
            PLeaderboard {| GameID := g; Entries := filteredEntries (storedHighScores db g) |}]> db.
Proof.
  rewrite regenerate_spec. unfold storedHighScores.
  destruct (db !! key_player_high_scores g) as [[]|]; try discriminate.
  rewrite saveLeaderboard_spec.
  destruct (Leaderboard_Validate _) eqn:Hv; [discriminate|].
  intros H. injection H as <-. auto.
Qed.

Lemma regenerate_not_ok g (db db' : DB) r :
  regenerateFilteredLeaderboard g db = (r, db') -> r <> Ok tt -> db' = db.
Proof.
  rewrite regenerate_spec.
  destruct (db !! key_player_high_scores g) as [[]|];
    try (intros H; injection H as <- <-; auto).
  rewrite saveLeaderboard_spec.
  destruct (Leaderboard_Validate _); intros H; injection H as <- <-; auto.
  intros []; reflexivity.
Qed.

Lemma SubmitScore_ok g ini score now (db db' : DB) :
  SubmitScore g ini score now db = (Ok tt, db') ->
  String.length (normInitials ini) = 3%nat /\ containsSpace (normInitials ini) = false /\
  storedHighScores db' g = hsUpdate (storedHighScores db g) (normInitials ini) score now /\
  Leaderboard_Validate {| GameID := g; Entries := filteredEntries (storedHighScores db' g) |} = None /\
  storedLeaderboard db' g =
    Some {| GameID := g; Entries := filteredEntries (storedHighScores db' g) |}.
Proof.
  unfold SubmitScore, normInitials.
  set (i0 := ToUpper (TrimSpace ini)).
  destruct (negb (Nat.eqb (String.length i0) 3) || containsSpace i0)%bool eqn:Hi;
    [discriminate|].
  apply orb_false_iff in Hi as [Hl Hs]. apply negb_false_iff, Nat.eqb_eq in Hl.
  unfold bind at 1, with_context at 1. rewrite addToAllScores_spec.
  set (db1 := <[key_all_scores g := _]> db).
  unfold bind at 1, with_context at 1.
  destruct (updatePlayerHighScore g i0 score now db1) as [r2 db2] eqn:Hu.
  pose proof Hu as Hu'. rewrite updatePlayerHighScore_spec in Hu'.
  injection Hu' as <- _.
  destruct (storedHighScores_update g i0 score now db1 db2 Hu) as [Hst _].
  assert (Hdb1 : storedHighScores db1 g = storedHighScores db g).
  { unfold storedHighScores, db1. rewrite lookup_insert_ne by apply key_all_hs. reflexivity. }
  intros Hr. destruct (regenerate_ok g db2 db' Hr) as [Hv ->].
  assert (Hst' : storedHighScores (<[key_leaderboard g := PLeaderboard
                   {| GameID := g; Entries := filteredEntries (storedHighScores db2 g) |}]> db2) g
                 = storedHighScores db2 g).
  { unfold storedHighScores. rewrite lookup_insert_ne by (apply not_eq_sym, key_hs_lb). reflexivity. }
  rewrite Hst'. repeat split; auto.
  - rewrite Hst, Hdb1. reflexivity.
  - unfold storedLeaderboard. rewrite lookup_insert_eq. reflexivity.
Qed.

Lemma submitAll_cons_ok g i s t subs (db db' : DB) :
  submitAll g ((i, s, t) :: subs) db = (Ok tt, db') ->
  exists db1, SubmitScore g i s t db = (Ok tt, db1) /\ submitAll g subs db1 = (Ok tt, db').
Proof.
  simpl. unfold bind at 1.
  destruct (SubmitScore g i s t db) as [[[] | e | e] db1]; try discriminate.
  eauto.
Qed.

Lemma submitAll_highScores g subs (db db' : DB) :
  submitAll g subs db = (Ok tt, db') ->
  storedHighScores db' g = foldHighScores subs (storedHighScores db g).
Proof.
  revert db. induction subs as [|[[i s] t] subs IH]; intros db H.
  - simpl in H. injection H as <-. reflexivity.
  - apply submitAll_cons_ok in H as (db1 & H1 & H2).
    destruct (SubmitScore_ok g i s t db db1 H1) as (_ & _ & Hst & _).
    rewrite (IH db1 H2), Hst. reflexivity.
Qed.

Lemma submitAll_leaderboard g subs (db db' : DB) :
  subs <> [] ->
  submitAll g subs db = (Ok tt, db') ->
  Leaderboard_Validate {| GameID := g; Entries := filteredEntries (storedHighScores db' g) |} = None /\
  storedLeaderboard db' g =
    Some {| GameID := g; Entries := filteredEntries (storedHighScores db' g) |}.
Proof.
  revert db. induction subs as [|[[i s] t] subs IH]; intros db Hne H; [congruence|].
  apply submitAll_cons_ok in H as (db1 & H1 & H2).
  destruct subs as [|x subs'].
  - simpl in H2. injection H2 as <-.
    destruct (SubmitScore_ok g i s t db db1 H1) as (_ & _ & _ & Hv & Hl). auto.
  - apply (IH db1); [discriminate | exact H2].
Qed.

Lemma filteredEntries_singleton k e : filteredEntries {[k := e]} = [e].
Proof. unfold filteredEntries. rewrite map_to_list_singleton. reflexivity. Qed.

Lemma foldHighScores_single i0 (subs : list (Z * Z)) e :
  Initials e = normInitials i0 ->
  exists e', foldHighScores (map (fun '(s, t) => (i0, s, t)) subs) {[normInitials i0 := e]}
             = {[normInitials i0 := e']} /\
           Initials e' = normInitials i0 /\
           Score e' = fold_left Z.max (map fst subs) (Score e).
Proof.
  revert e. induction subs as [|[s t] subs IH]; intros e He.
  - exists e. auto.
  - unfold foldHighScores. cbn [map fold_left].
    replace (hsUpdate {[normInitials i0 := e]} (normInitials i0) s t) with
      (if Score e <? s
       then ({[normInitials i0 := {| Initials := normInitials i0; Score := s; Timestamp := t |}]}
               : gmap string ScoreEntry)
       else {[normInitials i0 := e]})
      by (unfold hsUpdate, lookupEntry; rewrite lookup_singleton_eq; simpl;
          destruct (Score e <? s); [symmetry; apply insert_singleton_eq | reflexivity]).
    fold (foldHighScores (map (fun '(s, t) => (i0, s, t)) subs)).
    destruct (Score e <? s) eqn:Hlt.
    + destruct (IH {| Initials := normInitials i0; Score := s; Timestamp := t |} eq_refl)
        as (e' & H1 & H2 & H3).
      exists e'. split; [exact H1|]. split; [exact H2|].
      rewrite H3. cbn. apply Z.ltb_lt in Hlt. rewrite Z.max_r by lia. reflexivity.
    + destruct (IH e He) as (e' & H1 & H2 & H3).
      exists e'. split; [exact H1|]. split; [exact H2|].
      rewrite H3. cbn. apply Z.ltb_ge in Hlt. rewrite Z.max_l by lia. reflexivity.
Qed.

Lemma foldHighScores_cons i s t subs m :
  foldHighScores ((i, s, t) :: subs) m = foldHighScores subs (hsUpdate m (normInitials i) s t).
Proof. reflexivity. Qed.

Lemma storedHighScores_empty g : storedHighScores ∅ g = ∅.
Proof. unfold storedHighScores. rewrite lookup_empty. reflexivity. Qed.

(** ** Claims *)

(** C1: for every non-empty sequence of successful [SubmitScore] calls
    for one player (fixed game, fixed initials) from the empty store, the
    persisted leaderboard holds exactly one entry, for that player's
    normalised initials, whose score is the largest submitted score. *)
Theorem single_player_high_score_only g ini (subs : list (Z * Z)) (db' : DB) :
  subs <> [] ->
  submitAll g (map (fun '(s, t) => (ini, s, t)) subs) ∅ = (Ok tt, db') ->
  exists e, storedLeaderboard db' g = Some {| GameID := g; Entries := [e] |} /\
            Initials e = normInitials ini /\ Score e = maxScore (map fst subs).
Proof.
  intros Hne H.
  assert (Hne' : map (fun '(s, t) => (ini, s, t)) subs <> []).
  { destruct subs; [congruence | discriminate]. }
  destruct (submitAll_leaderboard g _ ∅ db' Hne' H) as [_ Hlb].
  pose proof (submitAll_highScores g _ ∅ db' H) as Hst.
  rewrite storedHighScores_empty in Hst.
  destruct subs as [|[s t] rest]; [congruence|].
  cbn [map] in Hst. rewrite foldHighScores_cons in Hst.
  replace (hsUpdate ∅ (normInitials ini) s t) with
    ({[normInitials ini := {| Initials := normInitials ini; Score := s; Timestamp := t |}]}
       : gmap string ScoreEntry) in Hst
    by (unfold hsUpdate, lookupEntry; rewrite lookup_empty; reflexivity).
  destruct (foldHighScores_single ini rest
              {| Initials := normInitials ini; Score := s; Timestamp := t |} eq_refl)
    as (e' & H1 & H2 & H3).
  exists e'. rewrite Hlb, Hst, H1, filteredEntries_singleton. auto.
Qed.

Lemma single_player_high_score_only_witness :
  [(1000, 1); (3000, 2); (2000, 3); (5000, 4); (1500, 5)] <> [] /\
  submitAll "pacman" (map (fun '(s, t) => ("plr", s, t))
                        [(1000, 1); (3000, 2); (2000, 3); (5000, 4); (1500, 5)]) ∅ =
    (Ok tt, snd (submitAll "pacman" (map (fun '(s, t) => ("plr", s, t))
                        [(1000, 1); (3000, 2); (2000, 3); (5000, 4); (1500, 5)]) ∅)) /\
  exists e, storedLeaderboard
              (snd (submitAll "pacman" (map (fun '(s, t) => ("plr", s, t))
                        [(1000, 1); (3000, 2); (2000, 3); (5000, 4); (1500, 5)]) ∅)) "pacman"
            = Some {| GameID := "pacman"; Entries := [e] |} /\
            Initials e = normInitials "plr" /\
            Score e = maxScore (map fst [(1000, 1); (3000, 2); (2000, 3); (5000, 4); (1500, 5)]).
Proof.
  assert (H : submitAll "pacman" (map (fun '(s, t) => ("plr", s, t))
                        [(1000, 1); (3000, 2); (2000, 3); (5000, 4); (1500, 5)]) ∅ =
    (Ok tt, snd (submitAll "pacman" (map (fun '(s, t) => ("plr", s, t))
                        [(1000, 1); (3000, 2); (2000, 3); (5000, 4); (1500, 5)]) ∅)))
    by (vm_compute; reflexivity).
  split; [discriminate|]. split; [exact H|].
  apply single_player_high_score_only; [discriminate | exact H].
Defined.

(** C4: the high-score index update replaces a player's entry only when
    no entry exists or the incoming score is strictly greater; otherwise
    (in particular on an equal score) the store is left as it was, so the
    stored entry and its timestamp are unchanged and nothing is written. *)
Theorem updatePlayerHighScore_strictly_greater g ini score now (db : DB) :
  (forall hs e,
     db !! key_player_high_scores g = Some (PHighScores hs) ->
     HighScores hs !! ini = Some e -> score <= Score e ->
     updatePlayerHighScore g ini score now db = (Ok tt, db)) /\
  (forall hs,
     db !! key_player_high_scores g = Some (PHighScores hs) ->
     (forall e, HighScores hs !! ini = Some e -> Score e < score) ->
     updatePlayerHighScore g ini score now db =
       (Ok tt, <[key_player_high_scores g :=
                  PHighScores {| hsGameID := hsGameID hs;
                                 HighScores := <[ini := {| Initials := ini; Score := score;
                                                          Timestamp := now |}]> (HighScores hs);
                                 hsUpdated := now |}]> db)) /\
  ((forall hs, db !! key_player_high_scores g <> Some (PHighScores hs)) ->
     updatePlayerHighScore g ini score now db =
       (Ok tt, <[key_player_high_scores g :=
                  PHighScores {| hsGameID := g;
                                 HighScores := {[ini := {| Initials := ini; Score := score;
                                                          Timestamp := now |}]};
                                 hsUpdated := now |}]> db)).
Proof.
  rewrite updatePlayerHighScore_spec.
  unfold hsChanged, hsUpdate, storedHighScores, storedHsGameID, lookupEntry.
  split; [|split].
  - intros hs e Hdb He Hle. rewrite Hdb, He.
    replace (Score e <? score) with false by (symmetry; apply Z.ltb_ge; lia).
    reflexivity.
  - intros hs Hdb Hgt. rewrite Hdb.
    destruct (HighScores hs !! ini) as [e|] eqn:He; [|reflexivity].
    replace (Score e <? score) with true by (symmetry; apply Z.ltb_lt; auto).
    reflexivity.
  - intros Hno.
    destruct (db !! key_player_high_scores g) as [[]|] eqn:Hdb;
      try (rewrite lookup_empty; reflexivity).
    exfalso. eapply Hno. reflexivity.
Qed.

Lemma updatePlayerHighScore_strictly_greater_witness :
  updatePlayerHighScore "pacman" "AAA" 1000 2 witness_db = (Ok tt, witness_db) /\
  updatePlayerHighScore "pacman" "AAA" 1200 2 witness_db =
    (Ok tt, <[key_player_high_scores "pacman" :=
               PHighScores {| hsGameID := "pacman";
                              HighScores := <[ "AAA" := {| Initials := "AAA"; Score := 1200;
                                                         Timestamp := 2 |}]>
                                {[ "AAA" := {| Initials := "AAA"; Score := 1000; Timestamp := 1 |}]};
                              hsUpdated := 2 |}]> witness_db) /\
  updatePlayerHighScore "pacman" "AAA" 1000 2 ∅ =
    (Ok tt, <[key_player_high_scores "pacman" :=
               PHighScores {| hsGameID := "pacman";
                              HighScores := {[ "AAA" := {| Initials := "AAA"; Score := 1000;
                                                          Timestamp := 2 |}]};
                              hsUpdated := 2 |}]> ∅).
Proof.
  assert (Hdb : witness_db !! key_player_high_scores "pacman" =
    Some (PHighScores {| hsGameID := "pacman";
                         HighScores := {[ "AAA" := {| Initials := "AAA"; Score := 1000;
                                                     Timestamp := 1 |}]};
                         hsUpdated := 1 |})) by (vm_compute; reflexivity).
  destruct (updatePlayerHighScore_strictly_greater "pacman" "AAA" 1000 2 witness_db)
    as [H1 _].
  destruct (updatePlayerHighScore_strictly_greater "pacman" "AAA" 1200 2 witness_db)
    as [_ [H2 _]].
  destruct (updatePlayerHighScore_strictly_greater "pacman" "AAA" 1000 2 ∅)
    as [_ [_ H3]].
  split; [|split].
  - eapply H1; [exact Hdb | vm_compute; reflexivity | simpl; lia].
  - apply (H2 _ Hdb). intros e He. vm_compute in He. injection He as <-. simpl. lia.
  - apply H3. intros hs. rewrite lookup_empty. discriminate.
Defined.

(** ** The stable insertion sort *)

Section StableSort.
Variable less : ScoreEntry -> ScoreEntry -> bool.
Hypothesis less_asym : forall a b, less a b = true -> less b a = false.

Lemma insertStable_perm x l : Permutation (insertStable less x l) (x :: l).
Proof.
  induction l as [|y l IH]; simpl; [reflexivity|].
  destruct (less x y); [reflexivity|].
  rewrite IH. apply perm_swap.
Qed.

Lemma sortStable_perm_acc l acc :
  Permutation (fold_left (fun acc x => insertStable less x acc) l acc) (l ++ acc).
Proof.
  revert acc. induction l as [|x l IH]; intros acc; simpl; [reflexivity|].
  rewrite IH, insertStable_perm. symmetry. apply Permutation_middle.
Qed.

Lemma sortStable_perm l : Permutation (sortStable less l) l.
Proof. unfold sortStable. rewrite sortStable_perm_acc, app_nil_r. reflexivity. Qed.

Lemma insertStable_sorted x l :
  Sorted (ranksAtLeast less) l -> Sorted (ranksAtLeast less) (insertStable less x l).
Proof.
  induction l as [|y l IH]; intros Hs; simpl.
  - repeat constructor.
  - destruct (less x y) eqn:Hxy.
    + constructor; [exact Hs|]. constructor. unfold ranksAtLeast. auto.
    + apply Sorted_inv in Hs as [Hs Hhd]. constructor; [apply IH, Hs|].
      destruct l as [|z l]; simpl.
      * constructor. exact Hxy.
      * apply HdRel_inv in Hhd. destruct (less x z); constructor; assumption.
Qed.

Lemma sortStable_sorted l : Sorted (ranksAtLeast less) (sortStable less l).
Proof.
  unfold sortStable.
  assert (H : forall acc, Sorted (ranksAtLeast less) acc ->
            Sorted (ranksAtLeast less) (fold_left (fun acc x => insertStable less x acc) l acc)).
  { induction l as [|x l IH]; intros acc Hs; simpl; [exact Hs|].
    apply IH, insertStable_sorted, Hs. }
  apply H. constructor.
Qed.
End StableSort.

Lemma StronglySorted_lookup {A} (R : A -> A -> Prop) (l : list A) :
  StronglySorted R l ->
  forall i j a b, (i < j)%nat -> l !! i = Some a -> l !! j = Some b -> R a b.
Proof.
  induction 1 as [|x l Hs IH Hall]; intros i j a b Hij Ha Hb; [discriminate|].
  destruct i as [|i]; destruct j as [|j]; try lia.
  - simpl in Ha, Hb. injection Ha as <-.
    rewrite Forall_forall in Hall. apply Hall.
    apply list_elem_of_lookup_2 in Hb. exact Hb.
  - simpl in Ha, Hb. apply (IH i j); auto. lia.
Qed.

Lemma StronglySorted_take {A} (R : A -> A -> Prop) n (l : list A) :
  StronglySorted R l -> StronglySorted R (take n l).
Proof.
  revert l. induction n as [|n IH]; intros l Hs; simpl; [constructor|].
  destruct l as [|x l]; simpl; [constructor|].
  apply StronglySorted_inv in Hs as [Hs Hall]. constructor; [apply IH, Hs|].
  apply Forall_take, Hall.
Qed.

Lemma lessEntry_asym a b : lessEntry a b = true -> lessEntry b a = false.
Proof.
  unfold lessEntry. intros H.
  destruct (Score a =? Score b) eqn:E1; destruct (Score b =? Score a) eqn:E2;
    rewrite ?Z.eqb_eq, ?Z.eqb_neq, ?Z.ltb_lt in *; apply Z.ltb_ge; lia.
Qed.

Lemma ranksAtLeast_rankOrder a b : ranksAtLeast lessEntry a b <-> rankOrder a b.
Proof.
  unfold ranksAtLeast, rankOrder, lessEntry.
  destruct (Score b =? Score a) eqn:E; rewrite ?Z.eqb_eq, ?Z.eqb_neq, ?Z.ltb_ge in *;
    split; intros; lia.
Qed.

Lemma filteredEntries_sorted (m : gmap string ScoreEntry) :
  StronglySorted rankOrder (filteredEntries m).
Proof.
  assert (Hs : StronglySorted rankOrder (sortStable lessEntry (map snd (map_to_list m)))).
  { apply Sorted_StronglySorted.
    - intros a b c Hab Hbc. unfold rankOrder in *. lia.
    - eapply Sorted_ind with (P := fun l => Sorted rankOrder l);
        [constructor | | apply sortStable_sorted, lessEntry_asym].
      intros a l _ Hl Hhd. constructor; [exact Hl|].
      destruct Hhd; constructor. apply ranksAtLeast_rankOrder. assumption. }
  unfold filteredEntries. destruct (10 <? _)%nat; [apply StronglySorted_take|]; exact Hs.
Qed.

Lemma SubmitScore_ok_intro g ini score now (db : DB) :
  String.length (normInitials ini) = 3%nat -> containsSpace (normInitials ini) = false ->
  Leaderboard_Validate {| GameID := g; Entries := filteredEntries
      (hsUpdate (storedHighScores db g) (normInitials ini) score now) |} = None ->
  exists db', SubmitScore g ini score now db = (Ok tt, db') /\
    storedHighScores db' g = hsUpdate (storedHighScores db g) (normInitials ini) score now /\
    storedLeaderboard db' g = Some {| GameID := g; Entries := filteredEntries
      (hsUpdate (storedHighScores db g) (normInitials ini) score now) |}.
Proof.
  intros Hl Hs Hv. unfold SubmitScore. fold (normInitials ini).
  rewrite Hl, Hs. simpl.
  unfold bind at 1, with_context at 1. rewrite addToAllScores_spec.
  set (db1 := <[key_all_scores g := _]> db).
  assert (Hdb1 : storedHighScores db1 g = storedHighScores db g).
  { unfold storedHighScores, db1. rewrite lookup_insert_ne by apply key_all_hs. reflexivity. }
  unfold bind at 1, with_context at 1.
  destruct (updatePlayerHighScore g (normInitials ini) score now db1) as [r2 db2] eqn:Hu.
  pose proof Hu as Hu'. rewrite updatePlayerHighScore_spec in Hu'.
  injection Hu' as <- _.
  destruct (storedHighScores_update _ _ _ _ db1 db2 Hu) as [Hst [hs Hhs]].
  rewrite Hdb1 in Hst.
  rewrite regenerate_spec, Hhs, saveLeaderboard_spec.
  assert (Hm : HighScores hs = hsUpdate (storedHighScores db g) (normInitials ini) score now)
    by (rewrite <- Hst; unfold storedHighScores; rewrite Hhs; reflexivity).
  cbn [HighScores]. rewrite Hm, Hv.
  eexists. split; [reflexivity|]. split.
  - unfold storedHighScores at 1. rewrite lookup_insert_ne by (apply not_eq_sym, key_hs_lb).
    rewrite Hhs. exact Hm.
  - unfold storedLeaderboard. rewrite lookup_insert_eq. reflexivity.
Qed.

Lemma submitAll_two g a b (db db1 db2 : DB) :
  SubmitScore g (fst (fst a)) (snd (fst a)) (snd a) db = (Ok tt, db1) ->
  SubmitScore g (fst (fst b)) (snd (fst b)) (snd b) db1 = (Ok tt, db2) ->
  submitAll g [a; b] db = (Ok tt, db2).
Proof.
  destruct a as [[i s] t], b as [[i' s'] t']. simpl. intros H1 H2.
  unfold bind. rewrite H1, H2. reflexivity.
Qed.

(** C3: every leaderboard written by [regenerateFilteredLeaderboard] is
    ordered by score descending, and of two entries with equal scores the
    one placed first has the later (or the same) timestamp; submitting
    ("AAA", 1000) and then ("BBB", 1000) to a fresh "gameY" at increasing
    clock readings yields the order BBB, AAA. *)
Theorem leaderboard_order_tiebreak :
  (forall g (db db' : DB),
     regenerateFilteredLeaderboard g db = (Ok tt, db') ->
     exists lb, storedLeaderboard db' g = Some lb /\
       forall i j a b, (i < j)%nat -> Entries lb !! i = Some a -> Entries lb !! j = Some b ->
         Score b <= Score a /\ (Score a = Score b -> Timestamp b <= Timestamp a)) /\
  (forall t1 t2, t1 < t2 ->
     exists db', submitAll "gameY" [("AAA", 1000, t1); ("BBB", 1000, t2)] ∅ = (Ok tt, db') /\
       storedLeaderboard db' "gameY" =
         Some {| GameID := "gameY";
                 Entries := [{| Initials := "BBB"; Score := 1000; Timestamp := t2 |};
                             {| Initials := "AAA"; Score := 1000; Timestamp := t1 |}] |}).
Proof.
  split.
  - intros g db db' H. destruct (regenerate_ok g db db' H) as [_ ->].
    eexists. split.
    + unfold storedLeaderboard. rewrite lookup_insert_eq. reflexivity.
    + intros i j a b Hij Ha Hb. simpl in Ha, Hb.
      exact (StronglySorted_lookup rankOrder _ (filteredEntries_sorted _) i j a b Hij Ha Hb).
  - intros t1 t2 Hlt.
    set (e1 := {| Initials := "AAA"; Score := 1000; Timestamp := t1 |}).
    set (e2 := {| Initials := "BBB"; Score := 1000; Timestamp := t2 |}).
    assert (Hu1 : hsUpdate (storedHighScores ∅ "gameY") (normInitials "AAA") 1000 t1
                  = {["AAA" := e1]}) by reflexivity.
    destruct (SubmitScore_ok_intro "gameY" "AAA" 1000 t1 ∅ eq_refl eq_refl)
      as (db1 & H1 & Hst1 & _).
    { rewrite Hu1, filteredEntries_singleton. reflexivity. }
    rewrite Hu1 in Hst1.
    assert (Hu2 : hsUpdate (storedHighScores db1 "gameY") (normInitials "BBB") 1000 t2
                  = <["BBB" := e2]> {["AAA" := e1]}) by (rewrite Hst1; reflexivity).
    assert (Hf : filteredEntries (<["BBB" := e2]> {["AAA" := e1]}) = [e2; e1]).
    { unfold filteredEntries.
      replace (map snd (map_to_list (<["BBB" := e2]> ({["AAA" := e1]} : gmap string ScoreEntry))))
        with [e1; e2] by (vm_compute; reflexivity).
      unfold sortStable. cbn. unfold lessEntry. cbn.
      replace (t1 <? t2) with true by (symmetry; apply Z.ltb_lt; exact Hlt).
      reflexivity. }
    destruct (SubmitScore_ok_intro "gameY" "BBB" 1000 t2 db1 eq_refl eq_refl)
      as (db2 & H2 & _ & Hlb2).
    { rewrite Hu2, Hf. reflexivity. }
    exists db2. split.
    + exact (submitAll_two "gameY" ("AAA", 1000, t1) ("BBB", 1000, t2) ∅ db1 db2 H1 H2).
    + rewrite Hlb2, Hu2, Hf. reflexivity.
Qed.

Lemma leaderboard_order_tiebreak_witness :
  regenerateFilteredLeaderboard "pacman" witness_db =
    (Ok tt, snd (regenerateFilteredLeaderboard "pacman" witness_db)) /\
  (exists lb, storedLeaderboard (snd (regenerateFilteredLeaderboard "pacman" witness_db)) "pacman"
                = Some lb /\
     forall i j a b, (i < j)%nat -> Entries lb !! i = Some a -> Entries lb !! j = Some b ->
       Score b <= Score a /\ (Score a = Score b -> Timestamp b <= Timestamp a)) /\
  1 < 2 /\
  exists db', submitAll "gameY" [("AAA", 1000, 1); ("BBB", 1000, 2)] ∅ = (Ok tt, db') /\
    storedLeaderboard db' "gameY" =
      Some {| GameID := "gameY";
              Entries := [{| Initials := "BBB"; Score := 1000; Timestamp := 2 |};
                          {| Initials := "AAA"; Score := 1000; Timestamp := 1 |}] |}.
Proof.
  assert (H : regenerateFilteredLeaderboard "pacman" witness_db =
    (Ok tt, snd (regenerateFilteredLeaderboard "pacman" witness_db))) by (vm_compute; reflexivity).
  split; [exact H|]. split.
  - exact (proj1 leaderboard_order_tiebreak "pacman" witness_db _ H).
  - split; [lia|]. apply (proj2 leaderboard_order_tiebreak 1 2). lia.
Defined.

(** C2 (defect): [addToAllScores] treats an undecodable history record
    like a missing one.  On a store whose history value is any text that
    does not parse, it succeeds and overwrites the history with a fresh
    record holding only the new entry. *)
Theorem addToAllScores_replaces_corrupt_history g ini score now (db : DB) (text : string) :
  addToAllScores g ini score now (<[key_all_scores g := PRaw text]> db) =
  (Ok tt, <[key_all_scores g :=
             PAllScores {| asGameID := g;
                           Scores := [{| Initials := ini; Score := score; Timestamp := now |}];
                           asUpdated := now |}]> db).
Proof.
  rewrite addToAllScores_spec. unfold storedAllScores. rewrite lookup_insert_eq.
  simpl. rewrite insert_insert_eq. reflexivity.
Qed.

(** C10 (defect): when the history is non-empty but no leaderboard
    record exists (migration has nothing to migrate, so [GetLeaderboard]
    fails), [GetScoreAnalysis] dereferences the nil leaderboard and
    panics instead of returning a response or an error. *)
Theorem GetScoreAnalysis_panics_without_leaderboard g limit now (db : DB) r e es :
  db !! key_all_scores g = Some (PAllScores r) -> Scores r = e :: es ->
  db !! key_leaderboard g = None ->
  GetScoreAnalysis g limit now db = (Panic nilDereference, db).
Proof.
  intros Hall Hs Hlb.
  unfold GetScoreAnalysis, with_context, getAllScores, attempt, bind, dbGet, ret, fail.
  rewrite Hall. simpl. rewrite Hs.
  destruct (analysisLoop (e :: es)) as [[[h t] l] pm].
  unfold GetLeaderboard, MigrateExistingLeaderboard, getRawLeaderboard, attempt, bind,
    dbGet, ret, fail.
  repeat (rewrite Hlb; cbv beta iota). reflexivity.
Qed.

Lemma GetScoreAnalysis_panics_without_leaderboard_witness :
  panic_db !! key_all_scores "pacman" =
    Some (PAllScores {| asGameID := "pacman";
                        Scores := [{| Initials := "AAA"; Score := 100; Timestamp := 1 |}];
                        asUpdated := 1 |}) /\
  panic_db !! key_leaderboard "pacman" = None /\
  GetScoreAnalysis "pacman" 5 10 panic_db = (Panic nilDereference, panic_db).
Proof.
  assert (H1 : panic_db !! key_all_scores "pacman" =
    Some (PAllScores {| asGameID := "pacman";
                        Scores := [{| Initials := "AAA"; Score := 100; Timestamp := 1 |}];
                        asUpdated := 1 |})) by (vm_compute; reflexivity).
  assert (H2 : panic_db !! key_leaderboard "pacman" = None) by (vm_compute; reflexivity).
  split; [exact H1|]. split; [exact H2|].
  exact (GetScoreAnalysis_panics_without_leaderboard "pacman" 5 10 panic_db _ _ _ H1 eq_refl H2).
Defined.

(** ** Validation, the analysis limit and the migration *)

Lemma ScoreEntry_Validate_range now se :
  Score se < 0 \/ 999999999 < Score se -> snd (ScoreEntry_Validate now se) <> None.
Proof.
  intros Hr. unfold ScoreEntry_Validate.
  destruct (negb _); [discriminate|]. destruct (containsSpace _); [discriminate|].
  simpl. destruct (Score se <? 0) eqn:E1; [discriminate|].
  destruct (999999999 <? Score se) eqn:E2; [discriminate|].
  apply Z.ltb_ge in E1, E2. lia.
Qed.

Lemma ScoreEntry_Validate_initials now se :
  String.length (normInitials (Initials se)) <> 3%nat \/ containsSpace (normInitials (Initials se)) = true ->
  snd (ScoreEntry_Validate now se) <> None.
Proof.
  unfold normInitials. intros Hi. unfold ScoreEntry_Validate.
  destruct (Nat.eqb _ 3) eqn:E; simpl; [|discriminate].
  apply Nat.eqb_eq in E. destruct Hi as [Hi|Hi]; [congruence|]. rewrite Hi. discriminate.
Qed.

Lemma handleSubmitScore_rejected g req now (db : DB) :
  snd (ScoreEntry_Validate now {| Initials := reqInitials req; Score := reqScore req;
                                   Timestamp := zeroTime |}) <> None ->
  handleSubmitScore g req now db = (Ok 400%nat, db).
Proof.
  intros Hv. unfold handleSubmitScore.
  destruct (String.eqb g ""); [reflexivity|].
  destruct (50 <? String.length g)%nat; [reflexivity|].
  destruct (negb _); [reflexivity|].
  destruct (ScoreEntry_Validate _ _) as [entry [e|]]; [reflexivity|].
  simpl in Hv. congruence.
Qed.

Lemma SubmitScore_bad_initials g ini score now (db : DB) :
  String.length (normInitials ini) <> 3%nat \/ containsSpace (normInitials ini) = true ->
  SubmitScore g ini score now db = (Err "initials must be exactly 3 characters with no spaces", db).
Proof.
  unfold SubmitScore. fold (normInitials ini). intros Hi.
  destruct (Nat.eqb _ 3) eqn:E; simpl; [|reflexivity].
  apply Nat.eqb_eq in E. destruct Hi as [Hi|Hi]; [congruence|]. rewrite Hi. reflexivity.
Qed.

Lemma topPlayersLoop_length g limit i entries now (db db' : DB) l :
  topPlayersLoop g limit i entries now db = (Ok l, db') ->
  (length l <= length (take (Z.to_nat limit - i) entries))%nat.
Proof.
  revert i db db' l. induction entries as [|e es IH]; intros i db db' l H; simpl in H.
  - injection H as <- _. simpl. lia.
  - destruct (limit <=? Z.of_nat i) eqn:El.
    + injection H as <- _. simpl. lia.
    + apply Z.leb_gt in El. unfold bind at 1 in H.
      destruct (attempt _ db) as [[r|e1|e1] db1]; try discriminate.
      unfold bind at 1 in H.
      destruct (topPlayersLoop g limit (S i) es now db1) as [[rest|e2|e2] db2] eqn:Hr;
        try discriminate.
      apply IH in Hr.
      replace (Z.to_nat limit - i)%nat with (S (Z.to_nat limit - S i)) by lia.
      simpl. destruct r; unfold ret in H; injection H as <- _; simpl; lia.
Qed.

Lemma GetScoreAnalysis_top g limit now (db db' : DB) r :
  GetScoreAnalysis g limit now db = (Ok r, db') ->
  (length (TopPlayers r) <= Z.to_nat (clampLimit limit))%nat.
Proof.
  intros H. unfold GetScoreAnalysis in H. unfold bind at 1 in H.
  destruct (with_context _ _ db) as [[a|e|e] db1]; try discriminate.
  destruct (Scores a) as [|s ss]; [discriminate|].
  destruct (analysisLoop _) as [[[h t] la] pm].
  unfold bind at 1 in H.
  destruct (attempt _ db1) as [[[lb|e]|e|e] db2]; try discriminate.
  unfold bind at 1 in H.
  destruct (topPlayersLoop _ _ _ _ _ db2) as [[tp|e|e] db3] eqn:Ht; try discriminate.
  unfold ret in H. injection H as <- _. simpl.
  apply topPlayersLoop_length in Ht. rewrite length_take in Ht. lia.
Qed.

Lemma Migrate_has_history g now (db : DB) r :
  storedAllScores db g = Some r -> MigrateExistingLeaderboard g now db = (Ok tt, db).
Proof.
  unfold storedAllScores. intros H.
  unfold MigrateExistingLeaderboard, getRawLeaderboard, getAllScores, attempt, bind, dbGet, ret,
    fail, decodeLeaderboard, decodeAllScores.
  destruct (db !! key_leaderboard g) as [[]|]; try reflexivity. cbv beta iota.
  destruct (db !! key_all_scores g) as [[]|]; try discriminate. reflexivity.
Qed.

Lemma Migrate_no_legacy g now (db : DB) :
  storedLeaderboard db g = None -> MigrateExistingLeaderboard g now db = (Ok tt, db).
Proof.
  unfold storedLeaderboard. intros H.
  unfold MigrateExistingLeaderboard, getRawLeaderboard, attempt, bind, dbGet, ret, fail.
  destruct (db !! key_leaderboard g) as [[]|]; try discriminate; reflexivity.
Qed.

Lemma Migrate_cases g now (db : DB) :
  (storedLeaderboard db g = None \/ storedAllScores db g <> None) \/
  exists r db', MigrateExistingLeaderboard g now db = (r, db') /\ storedAllScores db' g <> None.
Proof.
  destruct (storedLeaderboard db g) as [lb|] eqn:Hlb; [|left; left; reflexivity].
  destruct (storedAllScores db g) as [a|] eqn:Ha; [left; right; discriminate|].
  right. unfold storedLeaderboard in Hlb. unfold storedAllScores in Ha.
  unfold MigrateExistingLeaderboard, getRawLeaderboard, getAllScores, attempt, bind, dbGet,
    dbSet, ret, fail, decodeLeaderboard, decodeAllScores.
  destruct (db !! key_leaderboard g) as [[]|]; try discriminate.
  injection Hlb as ->. cbv beta iota.
  destruct (db !! key_all_scores g) as [[]|] eqn:E; try discriminate; cbv beta iota;
  (set (db2 := <[key_player_high_scores g := _]> (<[key_all_scores g := _]> db));
   destruct (regenerateFilteredLeaderboard g db2) as [res db3] eqn:Hr;
   exists res, db3; split; [reflexivity|];
   destruct res as [[]|e|e];
   [ apply regenerate_ok in Hr as [_ ->]; unfold storedAllScores;
     rewrite lookup_insert_ne by (apply not_eq_sym, key_all_lb)
   | apply regenerate_not_ok in Hr; [subst db3|discriminate]; unfold storedAllScores
   | apply regenerate_not_ok in Hr; [subst db3|discriminate]; unfold storedAllScores ];
   unfold db2; rewrite lookup_insert_ne by (apply not_eq_sym, key_all_hs); rewrite lookup_insert_eq;
   discriminate).
Qed.

Lemma Migrate_twice g now now' (db : DB) :
  MigrateExistingLeaderboard g now' (snd (MigrateExistingLeaderboard g now db)) =
  (Ok tt, snd (MigrateExistingLeaderboard g now db)).
Proof.
  destruct (Migrate_cases g now db) as [H | [res [db' [H Hs]]]].
  - assert (Hnow : forall t, MigrateExistingLeaderboard g t db = (Ok tt, db)).
    { intros t. destruct H as [H|H]; [apply Migrate_no_legacy; exact H|].
      destruct (storedAllScores db g) eqn:E; [|congruence].
      eapply Migrate_has_history. exact E. }
    rewrite !Hnow. reflexivity.
  - rewrite H. simpl. destruct (storedAllScores db' g) eqn:E; [|congruence]. eapply Migrate_has_history. exact E.
Qed.

(** C5 (counterexample): [SubmitScore] does not check the score range.
    After a valid submission of 500, a submission of -1 for the same
    player succeeds and is appended to the history. *)
Lemma SubmitScore_records_out_of_range_score :
  fst (SubmitScore "pacman" "AAA" (-1) 2 out_of_range_db) = Ok tt /\
  option_map (fun r => map Score (Scores r))
    (storedAllScores (snd (SubmitScore "pacman" "AAA" (-1) 2 out_of_range_db)) "pacman")
  = Some [500; -1].
Proof. split; vm_compute; reflexivity. Qed.

(** C7 (counterexample): a limit of 0 is not clamped to 1; the service
    replaces it by 10, so three players are listed. *)
Lemma GetScoreAnalysis_limit_zero_lists_three :
  option_map (fun r => length (TopPlayers r))
    (resValue (fst (GetScoreAnalysis "pacman" 0 10 analysis_db))) = Some 3%nat.
Proof. vm_compute. reflexivity. Qed.

Lemma Migrate_writes_history g now (db : DB) lb :
  storedLeaderboard db g = Some lb -> storedAllScores db g = None ->
  snd (MigrateExistingLeaderboard g now db) !! key_all_scores g =
    Some (PAllScores {| asGameID := g; Scores := Entries lb; asUpdated := now |}).
Proof.
  unfold storedLeaderboard, storedAllScores. intros Hlb Ha.
  unfold MigrateExistingLeaderboard, getRawLeaderboard, getAllScores, attempt, bind, dbGet,
    dbSet, ret, fail, decodeLeaderboard, decodeAllScores.
  destruct (db !! key_leaderboard g) as [[]|]; try discriminate.
  injection Hlb as ->. cbv beta iota.
  destruct (db !! key_all_scores g) as [[]|] eqn:E; try discriminate; cbv beta iota;
  (set (db2 := <[key_player_high_scores g := _]> (<[key_all_scores g := _]> db));
   destruct (regenerateFilteredLeaderboard g db2) as [res db3] eqn:Hr; simpl;
   destruct res as [[]|e|e];
   [ apply regenerate_ok in Hr as [_ ->];
     rewrite lookup_insert_ne by (apply not_eq_sym, key_all_lb)
   | apply regenerate_not_ok in Hr; [subst db3|discriminate]
   | apply regenerate_not_ok in Hr; [subst db3|discriminate] ];
   unfold db2; rewrite lookup_insert_ne by (apply not_eq_sym, key_all_hs); apply lookup_insert_eq).
Qed.

(** C8 (counterexample): an unparsable history record does not count as
    already migrated; next to a legacy leaderboard the migration rewrites
    the store. *)
Lemma Migrate_rewrites_corrupt_history :
  snd (MigrateExistingLeaderboard "pacman" 5 corrupt_history_db) <> corrupt_history_db.
Proof.
  intros H. apply (f_equal (fun d : DB => d !! key_all_scores "pacman")) in H.
  vm_compute in H. discriminate.
Qed.

(** C8 (amended): the migration returns [nil] and leaves the store
    unchanged when a decodable history record exists or when no decodable
    legacy leaderboard exists.  A history record that does not decode does
    not count as migrated: next to a decodable legacy leaderboard it is
    overwritten (as is a missing one) by the record of the legacy entries.
    A second run, at any time, returns [nil] and changes nothing, so running
    it twice gives the store of running it once. *)
Theorem MigrateExistingLeaderboard_idempotent :
  (forall g now (db : DB) r,
     storedAllScores db g = Some r ->
     MigrateExistingLeaderboard g now db = (Ok tt, db)) /\
  (forall g now (db : DB),
     storedLeaderboard db g = None ->
     MigrateExistingLeaderboard g now db = (Ok tt, db)) /\
  (forall g now now' (db : DB),
     MigrateExistingLeaderboard g now' (snd (MigrateExistingLeaderboard g now db)) =
     (Ok tt, snd (MigrateExistingLeaderboard g now db))) /\
  (forall g now (db : DB) lb,
     storedLeaderboard db g = Some lb -> storedAllScores db g = None ->
     snd (MigrateExistingLeaderboard g now db) !! key_all_scores g =
       Some (PAllScores {| asGameID := g; Scores := Entries lb; asUpdated := now |})).
Proof.
  split; [exact Migrate_has_history|]. split; [exact Migrate_no_legacy|].
  split; [exact Migrate_twice|]. exact Migrate_writes_history.
Qed.

Lemma MigrateExistingLeaderboard_idempotent_witness :
  MigrateExistingLeaderboard "pacman" 7 witness_db = (Ok tt, witness_db) /\
  MigrateExistingLeaderboard "pacman" 7 panic_db = (Ok tt, panic_db) /\
  MigrateExistingLeaderboard "pacman" 9
    (snd (MigrateExistingLeaderboard "pacman" 5 corrupt_history_db)) =
  (Ok tt, snd (MigrateExistingLeaderboard "pacman" 5 corrupt_history_db)) /\
  corrupt_history_db !! key_all_scores "pacman" = Some (PRaw "{corrupt") /\
  snd (MigrateExistingLeaderboard "pacman" 5 corrupt_history_db) !! key_all_scores "pacman" =
    Some (PAllScores {| asGameID := "pacman";
                        Scores := [{| Initials := "AAA"; Score := 100; Timestamp := 1 |}];
                        asUpdated := 5 |}).
Proof.
  destruct MigrateExistingLeaderboard_idempotent as [H1 [H2 [H3 H4]]].
  split; [eapply H1; vm_compute; reflexivity|].
  split; [apply H2; vm_compute; reflexivity|].
  split; [apply H3|].
  split; [vm_compute; reflexivity|].
  apply (H4 "pacman" 5 corrupt_history_db
           {| GameID := "pacman";
              Entries := [{| Initials := "AAA"; Score := 100; Timestamp := 1 |}] |});
    vm_compute; reflexivity.
Defined.

(** ** Achievements *)

Lemma highScoreOf_ge thr ps :
  0 < thr -> (thr <= highScoreOf ps <-> exists e, In e ps /\ thr <= Score e).
Proof.
  intros Hpos. unfold highScoreOf.
  assert (H : forall acc, thr <= fold_left (fun h s => if h <? Score s then Score s else h) ps acc
                <-> thr <= acc \/ exists e, In e ps /\ thr <= Score e).
  { induction ps as [|x ps IH]; intros acc; simpl.
    - split; [auto|]. intros [H|[e [[] _]]]. exact H.
    - rewrite IH. destruct (acc <? Score x) eqn:E; [apply Z.ltb_lt in E|apply Z.ltb_ge in E];
        split.
      + intros [H|[e [He H]]]; right; eauto.
      + intros [H|[e [[<-|He] H]]]; [left; lia|left; exact H|right; eauto].
      + intros [H|[e [He H]]]; [left; exact H|right; eauto].
      + intros [H|[e [[<-|He] H]]]; [left; exact H|left; lia|right; eauto]. }
  rewrite H. split; [intros [H1|H1]; [lia|exact H1]|auto].
Qed.

Lemma sortStable_timestamp ps :
  Permutation (sortStable lessTimestamp ps) ps /\ StronglySorted tsOrder (sortStable lessTimestamp ps).
Proof.
  split; [apply sortStable_perm|].
  apply Sorted_StronglySorted; [intros a b c; unfold tsOrder; lia|].
  eapply Sorted_ind with (P := fun l => Sorted tsOrder l);
    [constructor | | apply sortStable_sorted].
  - intros a l _ Hl Hhd. constructor; [exact Hl|].
    destruct Hhd; constructor. unfold ranksAtLeast, lessTimestamp, tsOrder in *.
    apply Z.ltb_ge. assumption.
  - unfold lessTimestamp. intros a b H. apply Z.ltb_lt in H. apply Z.ltb_ge. lia.
Qed.

Lemma firstReaching_min thr sorted :
  StronglySorted tsOrder sorted -> (exists e, In e sorted /\ thr <= Score e) ->
  exists e, In e sorted /\ thr <= Score e /\ firstReaching thr sorted = Timestamp e /\
    forall e', In e' sorted -> thr <= Score e' -> Timestamp e <= Timestamp e'.
Proof.
  induction 1 as [|x l Hs IH Hall]; intros [e [He Hth]]; [destruct He|].
  simpl. destruct (thr <=? Score x) eqn:E.
  - apply Z.leb_le in E. exists x. split; [left; reflexivity|]. split; [exact E|].
    split; [reflexivity|]. intros e' [<-|He'] _; [lia|].
    rewrite List.Forall_forall in Hall. apply Hall, He'.
  - apply Z.leb_gt in E. destruct He as [<-|He]; [lia|].
    destruct IH as [e0 [He0 [H0 [Hf Hmin]]]]; [eauto|].
    exists e0. split; [right; exact He0|]. split; [exact H0|]. split; [exact Hf|].
    intros e' [<-|He'] H'; [lia|]. apply Hmin; assumption.
Qed.

Lemma in_milestoneAchievements a sorted hs :
  In a (milestoneAchievements sorted hs) <->
  exists thr id name icon, In (thr, id, name, icon) milestones /\ thr <= hs /\
    a = {| ID := id; Name := name; Description := "Reach " +:+ pretty thr +:+ " points";
           UnlockedAt := firstReaching thr sorted; Icon := icon |}.
Proof.
  unfold milestoneAchievements. rewrite in_flat_map. split.
  - intros [[[[thr id] name] icon] [Hin Ha]].
    destruct (thr <=? hs) eqn:E; [|destruct Ha].
    destruct Ha as [<-|[]]. apply Z.leb_le in E. eauto 10.
  - intros (thr & id & name & icon & Hin & Hle & ->).
    exists (thr, id, name, icon). split; [exact Hin|].
    apply Z.leb_le in Hle. rewrite Hle. left. reflexivity.
Qed.

Lemma milestones_facts thr id name icon :
  In (thr, id, name, icon) milestones ->
  0 < thr /\ id <> "first_score" /\ id <> "dedicated_player" /\ id <> "score_hunter" /\
  forall thr' name' icon', In (thr', id, name', icon') milestones -> thr' = thr.
Proof.
  intros H. simpl in H.
  destruct H as [H|[H|[H|[H|[H|[]]]]]]; injection H as <- <- <- <-;
    (split; [lia|]); (split; [discriminate|]); (split; [discriminate|]);
    (split; [discriminate|]);
    intros thr' name' icon' H'; simpl in H';
    destruct H' as [H'|[H'|[H'|[H'|[H'|[]]]]]]; injection H'; intros;
    congruence.
Qed.

Lemma calculateAchievements_cons p ps hs :
  calculateAchievements (p :: ps) hs =
  (let sorted := sortStable lessTimestamp (p :: ps) in
   ({| ID := "first_score"; Name := "First Score"; Description := "Submit your first score";
       UnlockedAt := Timestamp (default zeroEntry (head sorted)); Icon := "🎯" |}
    :: milestoneAchievements sorted hs
    ++ (if (5 <=? length sorted)%nat then
          [{| ID := "dedicated_player"; Name := "Dedicated Player";
              Description := "Submit 5 or more scores";
              UnlockedAt := Timestamp (nth 4 sorted zeroEntry); Icon := "🎮" |}]
        else [])
    ++ (if (10 <=? length sorted)%nat then
          [{| ID := "score_hunter"; Name := "Score Hunter";
              Description := "Submit 10 or more scores";
              UnlockedAt := Timestamp (nth 9 sorted zeroEntry); Icon := "🏹" |}]
        else []), sorted)).
Proof. reflexivity. Qed.

(** C9: for a non-empty list of a player's scores, with the player's
    high score: the sorted slice is a permutation ordered by timestamp;
    each milestone achievement is unlocked exactly when the high score
    meets its threshold (that is, some score does), at the timestamp of
    the earliest score meeting it; [dedicated_player] is unlocked exactly
    when there are at least 5 scores, at the timestamp of the 5th score in
    timestamp order. *)
Theorem calculateAchievements_unlocks ps achs sorted :
  ps <> [] ->
  calculateAchievements ps (highScoreOf ps) = (achs, sorted) ->
  Permutation sorted ps /\ StronglySorted tsOrder sorted /\
  (forall thr id name icon, In (thr, id, name, icon) milestones ->
     ((exists a, In a achs /\ ID a = id) <-> thr <= highScoreOf ps) /\
     (thr <= highScoreOf ps <-> exists e, In e ps /\ thr <= Score e) /\
     (forall a, In a achs -> ID a = id ->
        exists e, In e ps /\ thr <= Score e /\ UnlockedAt a = Timestamp e /\
          forall e', In e' ps -> thr <= Score e' -> Timestamp e <= Timestamp e')) /\
  ((exists a, In a achs /\ ID a = "dedicated_player") <-> (5 <= length ps)%nat) /\
  (forall a, In a achs -> ID a = "dedicated_player" ->
     UnlockedAt a = Timestamp (nth 4 sorted zeroEntry)).
Proof.
  intros Hne H. destruct ps as [|p ps']; [congruence|].
  rewrite calculateAchievements_cons in H. cbv zeta in H. injection H as <- <-.
  destruct (sortStable_timestamp (p :: ps')) as [Hperm Hsort].
  set (sorted := sortStable lessTimestamp (p :: ps')) in *.
  set (ps := p :: ps') in *.
  assert (Hlen : length sorted = length ps) by (apply Permutation_length; exact Hperm).
  set (dedA := {| ID := "dedicated_player"; Name := "Dedicated Player";
                   Description := "Submit 5 or more scores";
                   UnlockedAt := Timestamp (nth 4 sorted zeroEntry); Icon := "🎮" |}).
  set (ded := if (5 <=? length sorted)%nat then [dedA] else []).
  set (hun := if (10 <=? length sorted)%nat then
                [{| ID := "score_hunter"; Name := "Score Hunter";
                    Description := "Submit 10 or more scores";
                    UnlockedAt := Timestamp (nth 9 sorted zeroEntry); Icon := "🏹" |}]
              else []).
  set (first := {| ID := "first_score"; Name := "First Score";
                   Description := "Submit your first score";
                   UnlockedAt := Timestamp (default zeroEntry (head sorted)); Icon := "🎯" |}).
  assert (Hded : forall a, In a ded <-> (5 <= length sorted)%nat /\ a = dedA).
  { intros a. unfold ded. destruct (5 <=? length sorted)%nat eqn:E.
    - apply Nat.leb_le in E. simpl. intuition congruence.
    - apply Nat.leb_gt in E. simpl. intuition lia. }
  assert (Hhun : forall a, In a hun -> ID a = "score_hunter").
  { intros a. unfold hun. destruct (10 <=? length sorted)%nat; simpl; [|tauto].
    intros [<-|[]]. reflexivity. }
  assert (Hach : forall a, In a (first :: milestoneAchievements sorted (highScoreOf ps) ++ ded ++ hun)
                  <-> a = first \/ In a (milestoneAchievements sorted (highScoreOf ps)) \/
                      In a ded \/ In a hun).
  { intros a. cbn [In]. rewrite !in_app_iff. intuition congruence. }
  split; [exact Hperm|]. split; [exact Hsort|]. split; [|split].
  - intros thr id name icon Hm.
    destruct (milestones_facts _ _ _ _ Hm) as (Hpos & Hf & Hd & Hs & Huniq).
    assert (Hmil : forall a, In a (first :: milestoneAchievements sorted (highScoreOf ps) ++ ded ++ hun) ->
              ID a = id -> In a (milestoneAchievements sorted (highScoreOf ps))).
    { intros a Ha Hid. apply Hach in Ha as [->|[Ha|[Ha|Ha]]]; auto.
      - exfalso. apply Hf. rewrite <- Hid. reflexivity.
      - apply Hded in Ha as [_ ->]. exfalso. apply Hd. rewrite <- Hid. reflexivity.
      - apply Hhun in Ha. exfalso. apply Hs. rewrite <- Hid. exact Ha. }
    split; [|split; [apply highScoreOf_ge; exact Hpos|]].
    + split.
      * intros [a [Ha Hid]]. apply Hmil in Ha; [|exact Hid].
        apply in_milestoneAchievements in Ha as (thr' & id' & name' & icon' & Hm' & Hle & ->).
        simpl in Hid. subst id'. rewrite (Huniq _ _ _ Hm') in Hle. exact Hle.
      * intros Hle. eexists. split; [apply Hach; right; left|].
        { apply in_milestoneAchievements. exists thr, id, name, icon. eauto. }
        reflexivity.
    + intros a Ha Hid. apply Hmil in Ha; [|exact Hid].
      apply in_milestoneAchievements in Ha as (thr' & id' & name' & icon' & Hm' & Hle & ->).
      simpl in Hid. subst id'. pose proof (Huniq _ _ _ Hm') as ->.
      destruct (firstReaching_min thr sorted Hsort) as [e (He & Hth & Hf' & Hmin)].
      { apply highScoreOf_ge in Hle as [e [He Hth]]; [|exact Hpos].
        exists e. split; [|exact Hth]. eapply Permutation_in; [symmetry; exact Hperm|exact He]. }
      exists e. split; [eapply Permutation_in; [exact Hperm|exact He]|].
      split; [exact Hth|]. split; [exact Hf'|].
      intros e' He' Hth'. apply Hmin; [|exact Hth'].
      eapply Permutation_in; [symmetry; exact Hperm|exact He'].
  - rewrite <- Hlen. split.
    + intros [a [Ha Hid]]. apply Hach in Ha as [->|[Ha|[Ha|Ha]]].
      * discriminate.
      * apply in_milestoneAchievements in Ha as (thr' & id' & name' & icon' & Hm' & _ & ->).
        simpl in Hid. subst id'. destruct (milestones_facts _ _ _ _ Hm') as (_ & _ & Hd & _).
        congruence.
      * apply Hded in Ha as [Hl _]. exact Hl.
      * apply Hhun in Ha. congruence.
    + intros Hl. exists dedA. split; [|reflexivity].
      apply Hach. right; right; left. apply Hded. auto.
  - intros a Ha Hid. apply Hach in Ha as [->|[Ha|[Ha|Ha]]].
    + discriminate.
    + apply in_milestoneAchievements in Ha as (thr' & id' & name' & icon' & Hm' & _ & ->).
      simpl in Hid. subst id'. destruct (milestones_facts _ _ _ _ Hm') as (_ & _ & Hd & _).
      congruence.
    + apply Hded in Ha as [_ ->]. reflexivity.
    + apply Hhun in Ha. congruence.
Qed.

Lemma calculateAchievements_unlocks_witness :
  achievements_sample <> [] /\
  (exists a, In a (fst (calculateAchievements achievements_sample
                          (highScoreOf achievements_sample))) /\ ID a = "score_1k") /\
  (exists a, In a (fst (calculateAchievements achievements_sample
                          (highScoreOf achievements_sample))) /\ ID a = "dedicated_player").
Proof.
  destruct (calculateAchievements_unlocks achievements_sample
              (fst (calculateAchievements achievements_sample (highScoreOf achievements_sample)))
              (snd (calculateAchievements achievements_sample (highScoreOf achievements_sample)))
              ltac:(discriminate) eq_refl) as (_ & _ & Hm & [_ Hd] & _).
  split; [discriminate|]. split.
  - apply (proj2 (proj1 (Hm 1000 "score_1k" "Getting Started" "⭐" ltac:(left; reflexivity)))).
    assert (Hh : highScoreOf achievements_sample = 1200) by reflexivity. lia.
  - apply Hd. simpl. lia.
Defined.

(** ** The filtered leaderboard: invariant and top ten *)

Lemma preserves_ret {A} (a : A) : preserves (ret a).
Proof. intros db H. exact H. Qed.

Lemma preserves_fail {A} e : preserves (@fail A e).
Proof. intros db H. exact H. Qed.

Lemma preserves_bind {A B} (m : M A) (k : A -> M B) :
  preserves m -> (forall a, preserves (k a)) -> preserves (bind m k).
Proof.
  intros Hm Hk db H. unfold bind. specialize (Hm db H).
  destruct (m db) as [[a|e|e] db']; simpl in *; auto. apply Hk, Hm.
Qed.

Lemma preserves_attempt {A} (m : M A) : preserves m -> preserves (attempt m).
Proof.
  intros Hm db H. unfold attempt. specialize (Hm db H).
  destruct (m db) as [[a|e|e] db']; exact Hm.
Qed.

Lemma preserves_with_context {A} msg (m : M A) : preserves m -> preserves (with_context msg m).
Proof.
  intros Hm db H. unfold with_context. specialize (Hm db H).
  destruct (m db) as [[a|e|e] db']; exact Hm.
Qed.

Lemma preserves_dbGet k : preserves (dbGet k).
Proof. intros db H. unfold dbGet. destruct (db !! k); exact H. Qed.

Create HintDb preserves.

#[local] Hint Resolve preserves_ret preserves_fail preserves_bind preserves_attempt
  preserves_with_context preserves_dbGet : preserves.

Lemma key_hs_inj g g' : key_player_high_scores g' = key_player_high_scores g -> g' = g.
Proof. intros H. injection H. auto. Qed.

Lemma key_lb_inj g g' : key_leaderboard g' = key_leaderboard g -> g' = g.
Proof. intros H. injection H. auto. Qed.

Lemma preserves_set_all g v : preserves (dbSet (key_all_scores g) v).
Proof.
  intros db H g'. specialize (H g'). unfold dbSet, storedHighScores, storedLeaderboard in *.
  cbn [snd].
  rewrite (lookup_insert_ne _ (key_all_scores g) (key_player_high_scores g')) by discriminate.
  rewrite (lookup_insert_ne _ (key_all_scores g) (key_leaderboard g')) by discriminate.
  exact H.
Qed.

Lemma preserves_set_hs g hs :
  keyConsistent (HighScores hs) -> preserves (dbSet (key_player_high_scores g) (PHighScores hs)).
Proof.
  intros Hc db H g'. unfold dbSet, storedHighScores, storedLeaderboard. cbn [snd].
  rewrite (lookup_insert_ne _ (key_player_high_scores g) (key_leaderboard g')) by discriminate.
  split; [|apply H].
  destruct (decide (g = g')) as [->|Hne].
  - rewrite lookup_insert_eq. exact Hc.
  - rewrite lookup_insert_ne by (intros E; apply Hne, key_hs_inj, E). apply H.
Qed.

Lemma preserves_set_lb g lb :
  boardWellFormed lb -> preserves (dbSet (key_leaderboard g) (PLeaderboard lb)).
Proof.
  intros Hw db H g'. unfold dbSet, storedHighScores, storedLeaderboard. cbn [snd].
  rewrite (lookup_insert_ne _ (key_leaderboard g) (key_player_high_scores g')) by discriminate.
  split; [apply H|].
  destruct (decide (g = g')) as [->|Hne].
  - rewrite lookup_insert_eq. intros lb' E. injection E as <-. exact Hw.
  - rewrite lookup_insert_ne by (intros E; apply Hne, key_lb_inj, E). apply H.
Qed.

(** Sortedness of the whole sorted list (before the cut at 10). *)

Lemma sortStable_rankOrder (l : list ScoreEntry) :
  StronglySorted rankOrder (sortStable lessEntry l).
Proof.
  apply Sorted_StronglySorted.
  - intros a b c Hab Hbc. unfold rankOrder in *. lia.
  - eapply Sorted_ind with (P := fun l => Sorted rankOrder l);
      [constructor | | apply sortStable_sorted, lessEntry_asym].
    intros a l' _ Hl Hhd. constructor; [exact Hl|].
    destruct Hhd; constructor. apply ranksAtLeast_rankOrder. assumption.
Qed.

Lemma map_Initials_values (m : gmap string ScoreEntry) :
  keyConsistent m -> map Initials (map snd (map_to_list m)) = map fst (map_to_list m).
Proof.
  intros Hc. rewrite map_map. apply map_ext_in. intros [k e] Hin. simpl.
  apply Hc. apply elem_of_map_to_list. apply list_elem_of_In. exact Hin.
Qed.

Lemma filteredEntries_cases (m : gmap string ScoreEntry) :
  let sorted := sortStable lessEntry (map snd (map_to_list m)) in
  (filteredEntries m = take 10 sorted /\ (10 < size m)%nat) \/
  (filteredEntries m = sorted /\ (size m <= 10)%nat).
Proof.
  intros sorted. unfold filteredEntries. fold sorted.
  assert (Hl : length sorted = size m).
  { unfold sorted. rewrite (Permutation_length (sortStable_perm _ _)), length_map.
    apply length_map_to_list. }
  rewrite Hl. destruct (10 <? size m)%nat eqn:E; [left|right];
    (split; [reflexivity|]); [apply Nat.ltb_lt in E | apply Nat.ltb_ge in E]; exact E.
Qed.

Lemma NoDup_take {A} n (l : list A) : NoDup l -> NoDup (take n l).
Proof.
  intros H. rewrite <- (take_drop n l) in H. apply NoDup_app in H as [H _]. exact H.
Qed.

Lemma filteredEntries_NoDup (m : gmap string ScoreEntry) :
  keyConsistent m -> NoDup (map Initials (filteredEntries m)).
Proof.
  intros Hc.
  assert (Hs : NoDup (map Initials (sortStable lessEntry (map snd (map_to_list m))))).
  { rewrite (Permutation_map Initials (sortStable_perm lessEntry (map snd (map_to_list m)))).
    rewrite map_Initials_values by exact Hc. apply NoDup_fst_map_to_list. }
  destruct (filteredEntries_cases m) as [[-> _]|[-> _]]; [|exact Hs].
  rewrite <- firstn_map. apply NoDup_take. exact Hs.
Qed.

Lemma keyConsistent_insert (m : gmap string ScoreEntry) k e :
  keyConsistent m -> Initials e = k -> keyConsistent (<[k := e]> m).
Proof.
  intros Hc He k' e' H. destruct (decide (k = k')) as [<-|Hne].
  - rewrite lookup_insert_eq in H. injection H as <-. exact He.
  - rewrite lookup_insert_ne in H by exact Hne. apply Hc, H.
Qed.

Lemma hsUpdate_consistent m ini s t :
  keyConsistent m -> keyConsistent (hsUpdate m ini s t).
Proof.
  intros Hc. unfold hsUpdate. destruct (lookupEntry m ini) as [ex b].
  destruct (negb b || (Score ex <? s))%bool; [|exact Hc].
  apply keyConsistent_insert; [exact Hc|reflexivity].
Qed.

Lemma migrateHighScores_consistent entries : keyConsistent (migrateHighScores entries).
Proof.
  unfold migrateHighScores.
  assert (H : forall acc, keyConsistent acc ->
    keyConsistent (fold_left (fun m entry =>
      let '(existing, exists_) := lookupEntry m (Initials entry) in
      if (negb exists_ || (Score existing <? Score entry))%bool
      then <[Initials entry := entry]> m else m) entries acc)).
  { induction entries as [|x l IH]; intros acc Hc; simpl; [exact Hc|].
    apply IH. destruct (lookupEntry acc (Initials x)) as [ex b].
    destruct (negb b || (Score ex <? Score x))%bool; [|exact Hc].
    apply keyConsistent_insert; [exact Hc|reflexivity]. }
  apply H. intros k e He. rewrite lookup_empty in He. discriminate.
Qed.

Lemma Leaderboard_Validate_length lb :
  Leaderboard_Validate lb = None -> (length (Entries lb) <= 10)%nat.
Proof.
  unfold Leaderboard_Validate.
  destruct (String.eqb _ _); [discriminate|].
  destruct (50 <? _)%nat; [discriminate|].
  destruct (10 <? length (Entries lb))%nat eqn:E; [discriminate|].
  intros _. apply Nat.ltb_ge in E. exact E.
Qed.

Lemma preserves_addToAllScores g ini s t : preserves (addToAllScores g ini s t).
Proof.
  intros db H. rewrite addToAllScores_spec. exact (preserves_set_all g _ db H).
Qed.

Lemma preserves_updatePlayerHighScore g ini s t : preserves (updatePlayerHighScore g ini s t).
Proof.
  intros db H. rewrite updatePlayerHighScore_spec. cbn [snd].
  destruct (hsChanged _ _ _); [|exact H].
  refine (preserves_set_hs g _ _ db H).
  apply hsUpdate_consistent, H.
Qed.

Lemma preserves_regenerate g : preserves (regenerateFilteredLeaderboard g).
Proof.
  intros db H. destruct (regenerateFilteredLeaderboard g db) as [r db'] eqn:E. cbn [snd].
  destruct r as [[]|e|e];
    [| apply regenerate_not_ok in E; [subst; exact H|discriminate]
     | apply regenerate_not_ok in E; [subst; exact H|discriminate]].
  apply regenerate_ok in E as [Hv ->].
  refine (preserves_set_lb g _ _ db H). split.
  - apply Leaderboard_Validate_length in Hv. exact Hv.
  - apply filteredEntries_NoDup, H.
Qed.

Lemma preserves_getAllScores g : preserves (getAllScores g).
Proof.
  unfold getAllScores. apply preserves_bind; [auto with preserves|].
  intros [data|e]; [destruct (decodeAllScores data)|]; auto with preserves.
Qed.

Lemma preserves_getRawLeaderboard g : preserves (getRawLeaderboard g).
Proof.
  unfold getRawLeaderboard. apply preserves_bind; [auto with preserves|].
  intros [data|e]; [destruct (decodeLeaderboard data)|]; auto with preserves.
Qed.

Lemma preserves_SubmitScore g ini s t : preserves (SubmitScore g ini s t).
Proof.
  unfold SubmitScore. destruct (_ || _)%bool; [auto with preserves|].
  apply preserves_bind; [apply preserves_with_context, preserves_addToAllScores|intros _].
  apply preserves_bind; [apply preserves_with_context, preserves_updatePlayerHighScore|intros _].
  apply preserves_regenerate.
Qed.

Lemma preserves_Migrate g now : preserves (MigrateExistingLeaderboard g now).
Proof.
  unfold MigrateExistingLeaderboard.
  apply preserves_bind; [apply preserves_attempt, preserves_getRawLeaderboard|].
  intros [lb|e]; [|auto with preserves].
  apply preserves_bind; [apply preserves_attempt, preserves_getAllScores|].
  intros [a|e]; [auto with preserves|].
  apply preserves_bind; [apply preserves_set_all|intros _].
  apply preserves_bind; [apply preserves_set_hs, migrateHighScores_consistent|intros _].
  apply preserves_regenerate.
Qed.

Lemma preserves_GetLeaderboard g now : preserves (GetLeaderboard g now).
Proof.
  unfold GetLeaderboard.
  apply preserves_bind; [auto with preserves|]. intros r.
  apply preserves_bind.
  - destruct r as [data|e]; [auto with preserves|].
    apply preserves_bind; [apply preserves_attempt, preserves_Migrate|].
    intros [u|e']; [|auto with preserves].
    apply preserves_bind; [auto with preserves|]. intros [data|e'']; auto with preserves.
  - intros data. destruct (decodeLeaderboard data); auto with preserves.
Qed.

Lemma reachable_storeInv db : reachable db -> storeInv db.
Proof.
  induction 1.
  - intros g. unfold storedHighScores, storedLeaderboard. rewrite !lookup_empty.
    split; [intros k e He; rewrite lookup_empty in He; discriminate|discriminate].
  - apply preserves_SubmitScore. assumption.
  - apply preserves_Migrate. assumption.
  - apply preserves_GetLeaderboard. assumption.
Qed.

Lemma hsUpdate_lookup m ini s t k :
  hsUpdate m ini s t !! k =
  if decide (k = ini) then
    Some (match m !! ini with
          | Some old => if Score old <? s then {| Initials := ini; Score := s; Timestamp := t |}
                        else old
          | None => {| Initials := ini; Score := s; Timestamp := t |}
          end)
  else m !! k.
Proof.
  unfold hsUpdate, lookupEntry.
  destruct (decide (k = ini)) as [->|Hne]; destruct (m !! ini) as [old|] eqn:E; simpl.
  - destruct (Score old <? s); simpl; [apply lookup_insert_eq|exact E].
  - apply lookup_insert_eq.
  - destruct (Score old <? s); simpl; [apply lookup_insert_ne; congruence|reflexivity].
  - apply lookup_insert_ne. congruence.
Qed.

Lemma foldInv_step done m i s t :
  foldInv done m -> foldInv (done ++ [(i, s, t)]) (hsUpdate m (normInitials i) s t).
Proof.
  intros (Hc & Hb & Hp). split; [apply hsUpdate_consistent, Hc|]. split.
  - intros k e He. rewrite hsUpdate_lookup in He.
    destruct (decide (k = normInitials i)) as [->|Hne].
    + injection He as He. destruct (m !! normInitials i) as [old|] eqn:Eo.
      * destruct (Score old <? s) eqn:Es.
        -- subst e. apply Z.ltb_lt in Es. destruct (Hb _ _ Eo) as [_ Hmax]. split.
           ++ exists i, t. split; [apply in_app_iff; right; left; reflexivity|reflexivity].
           ++ intros i' s' t' Hin Hk. apply in_app_iff in Hin as [Hin|[Hin|[]]].
              ** specialize (Hmax _ _ _ Hin Hk). simpl. lia.
              ** injection Hin as -> -> ->. simpl. lia.
        -- subst e. apply Z.ltb_ge in Es. destruct (Hb _ _ Eo) as [[i0 [t0 [Hin0 Hk0]]] Hmax].
           split.
           ++ exists i0, t0. split; [apply in_app_iff; left; exact Hin0|exact Hk0].
           ++ intros i' s' t' Hin Hk. apply in_app_iff in Hin as [Hin|[Hin|[]]].
              ** exact (Hmax _ _ _ Hin Hk).
              ** injection Hin as -> -> ->. exact Es.
      * subst e. split.
        -- exists i, t. split; [apply in_app_iff; right; left; reflexivity|reflexivity].
        -- intros i' s' t' Hin Hk. apply in_app_iff in Hin as [Hin|[Hin|[]]].
           ++ exfalso. apply (Hp _ _ _ Hin). rewrite Hk. exact Eo.
           ++ injection Hin as -> -> ->. simpl. lia.
    + destruct (Hb _ _ He) as [[i0 [t0 [Hin0 Hk0]]] Hmax]. split.
      * exists i0, t0. split; [apply in_app_iff; left; exact Hin0|exact Hk0].
      * intros i' s' t' Hin Hk. apply in_app_iff in Hin as [Hin|[Hin|[]]].
        -- exact (Hmax _ _ _ Hin Hk).
        -- injection Hin as -> -> ->. congruence.
  - intros i' s' t' Hin. rewrite hsUpdate_lookup.
    destruct (decide (normInitials i' = normInitials i)); [discriminate|].
    apply in_app_iff in Hin as [Hin|[Hin|[]]]; [exact (Hp _ _ _ Hin)|].
    injection Hin as -> -> ->. congruence.
Qed.

Lemma foldInv_fold subs done m :
  foldInv done m -> foldInv (done ++ subs) (foldHighScores subs m).
Proof.
  revert done m. induction subs as [|[[i s] t] subs IH]; intros done m H.
  - rewrite app_nil_r. exact H.
  - rewrite foldHighScores_cons. replace (done ++ (i, s, t) :: subs) with
      ((done ++ [(i, s, t)]) ++ subs) by (rewrite <- app_assoc; reflexivity).
    apply IH, foldInv_step, H.
Qed.

Lemma foldInv_empty subs : foldInv subs (foldHighScores subs ∅).
Proof.
  apply (foldInv_fold subs []). split; [|split].
  - intros k e He. rewrite lookup_empty in He. discriminate.
  - intros k e He. rewrite lookup_empty in He. discriminate.
  - intros i s t [].
Qed.

Lemma StronglySorted_app_rel {A} (R : A -> A -> Prop) l1 l2 x y :
  StronglySorted R (l1 ++ l2) -> In x l1 -> In y l2 -> R x y.
Proof.
  induction l1 as [|z l1 IH]; intros Hs Hx Hy; [destruct Hx|].
  simpl in Hs. apply StronglySorted_inv in Hs as [Hs Hall].
  destruct Hx as [<-|Hx].
  - rewrite List.Forall_forall in Hall. apply Hall, in_app_iff. right. exact Hy.
  - apply IH; assumption.
Qed.

Lemma in_values (m : gmap string ScoreEntry) e :
  In e (map snd (map_to_list m)) -> exists k, m !! k = Some e.
Proof.
  intros H. apply in_map_iff in H as [[k e'] [He Hin]]. simpl in He. subst e'.
  exists k. apply elem_of_map_to_list, list_elem_of_In, Hin.
Qed.

Lemma size_ge_players subs (m : gmap string ScoreEntry) :
  (forall i s t, In (i, s, t) subs -> m !! normInitials i <> None) ->
  (length (nodup String.string_dec (playersOf subs)) <= size m)%nat.
Proof.
  intros Hp. rewrite <- length_map_to_list, <- (length_map fst).
  apply submseteq_length, NoDup_submseteq.
  - apply NoDup_ListNoDup, NoDup_nodup.
  - intros x Hx. apply list_elem_of_In in Hx. apply nodup_In, in_map_iff in Hx as [[[i s] t] [<- Hin]]. simpl.
    destruct (m !! normInitials i) as [e|] eqn:E; [|exfalso; exact (Hp _ _ _ Hin E)].
    apply list_elem_of_In, in_map_iff. exists (normInitials i, e). split; [reflexivity|].
    apply list_elem_of_In, elem_of_map_to_list, E.
Qed.

(** C6: every leaderboard in a store produced by the service from the
    empty store has at most 10 entries and no initials twice.  After a
    successful run of submissions from the empty store, each leaderboard
    entry carries its player's best submitted score, no player left off the
    board submitted a score above any board entry, and with more than 10
    distinct players the board has exactly 10 entries. *)
Theorem leaderboard_top_ten :
  (forall db, reachable db -> forall g lb, storedLeaderboard db g = Some lb ->
     (length (Entries lb) <= 10)%nat /\ NoDup (map Initials (Entries lb))) /\
  (forall g subs (db' : DB), subs <> [] -> submitAll g subs ∅ = (Ok tt, db') ->
     exists lb, storedLeaderboard db' g = Some lb /\
       (forall e, In e (Entries lb) -> isPlayerBest subs (Initials e) e) /\
       (forall i s t, In (i, s, t) subs -> ~ In (normInitials i) (map Initials (Entries lb)) ->
          forall e, In e (Entries lb) -> s <= Score e) /\
       ((10 < length (nodup String.string_dec (playersOf subs)))%nat ->
          length (Entries lb) = 10%nat)).
Proof.
  split.
  - intros db Hr g lb Hlb. apply reachable_storeInv in Hr. destruct (Hr g) as [_ Hw].
    exact (Hw lb Hlb).
  - intros g subs db' Hne Hs.
    pose proof (submitAll_highScores g subs ∅ db' Hs) as Hm.
    rewrite storedHighScores_empty in Hm.
    destruct (submitAll_leaderboard g subs ∅ db' Hne Hs) as [_ Hlb].
    set (m := storedHighScores db' g) in *.
    destruct (foldInv_empty subs) as (Hc & Hb & Hp). rewrite <- Hm in Hc, Hb, Hp.
    set (sorted := sortStable lessEntry (map snd (map_to_list m))).
    assert (Hperm : Permutation sorted (map snd (map_to_list m))) by apply sortStable_perm.
    assert (Hsort : StronglySorted rankOrder sorted) by apply sortStable_rankOrder.
    assert (Hin_sorted : forall e, In e (filteredEntries m) -> In e sorted).
    { intros e He. destruct (filteredEntries_cases m) as [[E _]|[E _]]; rewrite E in He;
        [|exact He].
      rewrite <- (take_drop 10 sorted). apply in_app_iff. left. exact He. }
    eexists. split; [exact Hlb|]. cbn [Entries]. split; [|split].
    + intros e He. apply Hin_sorted in He.
      apply (Permutation_in _ Hperm), in_values in He as [k Hk].
      rewrite (Hc _ _ Hk). exact (Hb _ _ Hk).
    + intros i s t Hin Hnot e He.
      destruct (m !! normInitials i) as [e'|] eqn:E'; [|exfalso; exact (Hp _ _ _ Hin E')].
      pose proof (proj2 (Hb _ _ E') i s t Hin eq_refl) as Hse'.
      assert (He'sorted : In e' sorted).
      { apply (Permutation_in _ (Permutation_sym Hperm)), in_map_iff.
        exists (normInitials i, e'). split; [reflexivity|].
        apply list_elem_of_In, elem_of_map_to_list, E'. }
      assert (He'notin : ~ In e' (filteredEntries m)).
      { intros Hf. apply Hnot. rewrite <- (Hc _ _ E'). apply in_map, Hf. }
      destruct (filteredEntries_cases m) as [[E _]|[E _]]; rewrite E in He, He'notin;
        [|contradiction].
      rewrite <- (take_drop 10 sorted) in He'sorted.
      apply in_app_iff in He'sorted as [Hx|Hx]; [contradiction|].
      rewrite <- (take_drop 10 sorted) in Hsort.
      destruct (StronglySorted_app_rel _ _ _ _ _ Hsort He Hx) as [Hle _]. lia.
    + intros Hgt. pose proof (size_ge_players subs m Hp) as Hsz.
      destruct (filteredEntries_cases m) as [[E Hbig]|[E Hsmall]]; [|lia].
      rewrite E, length_take.
      assert (Hl : length sorted = size m).
      { rewrite (Permutation_length Hperm), length_map. apply length_map_to_list. }
      fold sorted. rewrite Hl. lia.
Qed.

Lemma leaderboard_top_ten_witness :
  exists lb, storedLeaderboard (snd (submitAll "pacman" eleven_players ∅)) "pacman" = Some lb /\
    length (Entries lb) = 10%nat.
Proof.
  destruct leaderboard_top_ten as [_ H2].
  destruct (H2 "pacman" eleven_players (snd (submitAll "pacman" eleven_players ∅))
              ltac:(discriminate) ltac:(vm_compute; reflexivity)) as [lb [Hlb [_ [_ Hlen]]]].
  exists lb. split; [exact Hlb|].
  apply Hlen. apply Nat.ltb_lt. vm_compute. reflexivity.
Defined.

(** ** Further properties of the service and its handlers *)

Lemma GetLeaderboard_spec g now (db : DB) :
  GetLeaderboard g now db =
  (match db !! key_leaderboard g with
   | Some (PLeaderboard lb) => Ok lb
   | Some _ => Err ("failed to unmarshal leaderboard: " +:+
                    "invalid character looking for beginning of value")
   | None => Err "no leaderboard found for game"
   end, db).
Proof.
  unfold GetLeaderboard, MigrateExistingLeaderboard, getRawLeaderboard, decodeLeaderboard,
    attempt, bind, dbGet, ret, fail.
  destruct (db !! key_leaderboard g) as [[]|] eqn:E; cbv beta iota; try reflexivity.
  repeat (rewrite E; cbv beta iota). reflexivity.
Qed.

Create HintDb readonly.

Lemma readOnly_ret {A} (a : A) : readOnly (ret a).
Proof. intros db. reflexivity. Qed.
Lemma readOnly_fail {A} e : readOnly (@fail A e).
Proof. intros db. reflexivity. Qed.
Lemma readOnly_bind {A B} (m : M A) (k : A -> M B) :
  readOnly m -> (forall a, readOnly (k a)) -> readOnly (bind m k).
Proof.
  intros Hm Hk db. unfold bind. specialize (Hm db).
  destruct (m db) as [[a|e|e] db']; simpl in *; subst; [apply Hk | |]; reflexivity.
Qed.
Lemma readOnly_attempt {A} (m : M A) : readOnly m -> readOnly (attempt m).
Proof.
  intros Hm db. unfold attempt. specialize (Hm db).
  destruct (m db) as [[a|e|e] db']; simpl in *; auto.
Qed.
Lemma readOnly_with_context {A} msg (m : M A) : readOnly m -> readOnly (with_context msg m).
Proof.
  intros Hm db. unfold with_context. specialize (Hm db).
  destruct (m db) as [[a|e|e] db']; simpl in *; auto.
Qed.
Lemma readOnly_dbGet k : readOnly (dbGet k).
Proof. intros db. unfold dbGet. destruct (db !! k); reflexivity. Qed.

#[local] Hint Resolve readOnly_ret readOnly_fail readOnly_bind readOnly_attempt
  readOnly_with_context readOnly_dbGet : readonly.

Lemma readOnly_getAllScores g : readOnly (getAllScores g).
Proof.
  unfold getAllScores. apply readOnly_bind; auto with readonly.
  intros [p|e]; [destruct (decodeAllScores p)|]; auto with readonly.
Qed.
Lemma readOnly_GetLeaderboard g now : readOnly (GetLeaderboard g now).
Proof. intros db. rewrite GetLeaderboard_spec. reflexivity. Qed.
#[local] Hint Resolve readOnly_getAllScores readOnly_GetLeaderboard : readonly.

Lemma readOnly_GetPlayerStats g i : readOnly (GetPlayerStats g i).
Proof.
  unfold GetPlayerStats. destruct (negb _); auto with readonly.
  apply readOnly_bind; auto with readonly. intros a.
  destruct (playerScoresOf _ _); auto with readonly.
  destruct (playerStatsOf _) as [[[? ?] ?] ?]. auto with readonly.
Qed.

Lemma readOnly_GetEnhancedPlayerStats g i h now : readOnly (GetEnhancedPlayerStats g i h now).
Proof.
  unfold GetEnhancedPlayerStats. destruct (negb _); auto with readonly.
  apply readOnly_bind; auto with readonly. intros a.
  destruct (playerScoresOf _ _); auto with readonly.
  destruct (playerStatsOf _) as [[[? ?] ?] ?].
  apply readOnly_bind; auto with readonly. intros r.
  destruct (calculateAchievements _ _). auto with readonly.
Qed.
#[local] Hint Resolve readOnly_GetEnhancedPlayerStats : readonly.

Lemma readOnly_topPlayersLoop g limit i es now : readOnly (topPlayersLoop g limit i es now).
Proof.
  revert i. induction es as [|e es IH]; intros i; simpl; auto with readonly.
  destruct (limit <=? Z.of_nat i); auto with readonly.
  apply readOnly_bind; auto with readonly. intros r.
  apply readOnly_bind; auto. intros rest. destruct r; auto with readonly.
Qed.
#[local] Hint Resolve readOnly_topPlayersLoop : readonly.

Lemma readOnly_GetScoreAnalysis g limit now : readOnly (GetScoreAnalysis g limit now).
Proof.
  unfold GetScoreAnalysis. apply readOnly_bind; auto with readonly. intros a.
  destruct (Scores a); auto with readonly.
  destruct (analysisLoop _) as [[[? ?] ?] ?].
  apply readOnly_bind; auto with readonly. intros [lb|e]; auto with readonly.
  intros db; reflexivity.
Qed.

Lemma getAllScores_spec g (db : DB) :
  getAllScores g db =
  (match db !! key_all_scores g with
   | Some (PAllScores r) => Ok r
   | Some _ => Err ("failed to unmarshal all scores: " +:+
                    "invalid character looking for beginning of value")
   | None => Err "no score history found for game"
   end, db).
Proof.
  unfold getAllScores, decodeAllScores, attempt, bind, dbGet, ret, fail.
  destruct (db !! key_all_scores g) as [[]|]; reflexivity.
Qed.

(** X5: [GetPlayerStats] and [GetEnhancedPlayerStats] agree: both succeed
    with the same initials, high score, score count, first and last
    timestamps and average, or both fail with the same error message. *)
Theorem GetPlayerStats_matches_enhanced g ini includeHistory now (db : DB) :
  match fst (GetPlayerStats g ini db),
        fst (GetEnhancedPlayerStats g ini includeHistory now db) with
  | Ok ps, Ok es =>
      psInitials ps = eInitials es /\ psHighScore ps = eHighScore es /\
      psTotalScores ps = eTotalScores es /\ psLastPlayed ps = eLastPlayed es /\
      psAverageScore ps = eAverageScore es /\ psFirstPlayed ps = eFirstPlayed es
  | Err e1, Err e2 => e1 = e2
  | _, _ => False
  end.
Proof.
  unfold GetPlayerStats, GetEnhancedPlayerStats.
  destruct (negb _); [reflexivity|].
  unfold bind, with_context, attempt. rewrite !getAllScores_spec.
  destruct (db !! key_all_scores g) as [[r| | |]|]; cbv beta iota; try reflexivity.
  destruct (playerScoresOf _ _) as [|p ps]; [reflexivity|].
  destruct (playerStatsOf _) as [[[h t] f] l].
  rewrite GetLeaderboard_spec.
  destruct (calculateAchievements _ _) as [achs sorted].
  destruct (db !! key_leaderboard g) as [[| | |]|]; simpl; repeat split.
Qed.

Lemma ltb_max a b : (if a <? b then b else a) = Z.max a b.
Proof. destruct (Z.ltb_spec a b); lia. Qed.
Lemma ltb_min a b : (if b <? a then b else a) = Z.min a b.
Proof. destruct (Z.ltb_spec b a); lia. Qed.

Lemma statsLoop_S i ps h t f l :
  statsLoop (S i) ps (h, t, f, l) =
  (fold_left (fun a s => Z.max a (Score s)) ps h,
   fold_left (fun a s => wrap64 (a + Score s)) ps t,
   fold_left (fun a s => Z.min a (Timestamp s)) ps f,
   fold_left (fun a s => Z.max a (Timestamp s)) ps l).
Proof.
  revert i h t f l. induction ps as [|e ps IH]; intros i h t f l; [reflexivity|].
  simpl. rewrite IH, ltb_max, ltb_min, ltb_max. reflexivity.
Qed.

Lemma playerStatsOf_cons e ps :
  playerStatsOf (e :: ps) =
  (fold_left (fun a s => Z.max a (Score s)) ps (Z.max 0 (Score e)),
   fold_left (fun a s => wrap64 (a + Score s)) ps (wrap64 (Score e)),
   fold_left (fun a s => Z.min a (Timestamp s)) ps (Timestamp e),
   fold_left (fun a s => Z.max a (Timestamp s)) ps (Timestamp e)).
Proof. unfold playerStatsOf. simpl. rewrite statsLoop_S, ltb_max. reflexivity. Qed.

Lemma fold_max_bound (f : ScoreEntry -> Z) ps a :
  a <= fold_left (fun a s => Z.max a (f s)) ps a /\
  (forall s, In s ps -> f s <= fold_left (fun a s => Z.max a (f s)) ps a) /\
  (fold_left (fun a s => Z.max a (f s)) ps a = a \/
   exists s, In s ps /\ fold_left (fun a s => Z.max a (f s)) ps a = f s).
Proof.
  revert a. induction ps as [|e ps IH]; intros a; simpl.
  - split; [lia|]. split; [tauto|]. auto.
  - destruct (IH (Z.max a (f e))) as (H1 & H2 & H3). split; [lia|]. split.
    + intros s [<-|Hs]; [lia|auto].
    + destruct H3 as [H3|(s & Hs & H3)]; [|eauto].
      rewrite H3. destruct (Z.max_spec a (f e)) as [[_ ->]|[_ ->]]; eauto.
Qed.

Lemma fold_min_bound (f : ScoreEntry -> Z) ps a :
  fold_left (fun a s => Z.min a (f s)) ps a <= a /\
  (forall s, In s ps -> fold_left (fun a s => Z.min a (f s)) ps a <= f s) /\
  (fold_left (fun a s => Z.min a (f s)) ps a = a \/
   exists s, In s ps /\ fold_left (fun a s => Z.min a (f s)) ps a = f s).
Proof.
  revert a. induction ps as [|e ps IH]; intros a; simpl.
  - split; [lia|]. split; [tauto|]. auto.
  - destruct (IH (Z.min a (f e))) as (H1 & H2 & H3). split; [lia|]. split.
    + intros s [<-|Hs]; [lia|auto].
    + destruct H3 as [H3|(s & Hs & H3)]; [|eauto].
      rewrite H3. destruct (Z.min_spec a (f e)) as [[_ ->]|[_ ->]]; eauto.
Qed.

Lemma wrap64_add_idemp a b : wrap64 (wrap64 a + b) = wrap64 (a + b).
Proof.
  unfold wrap64. f_equal.
  replace ((a + 2 ^ 63) mod 2 ^ 64 - 2 ^ 63 + b + 2 ^ 63)
    with ((a + 2 ^ 63) mod 2 ^ 64 + b) by lia.
  rewrite Z.add_mod_idemp_l by lia. f_equal. lia.
Qed.

Lemma fold_wrap64 ps t :
  fold_left (fun a s => wrap64 (a + Score s)) ps (wrap64 t) =
  wrap64 (t + fold_right Z.add 0 (map Score ps)).
Proof.
  revert t. induction ps as [|e ps IH]; intros t; simpl.
  - f_equal. lia.
  - rewrite wrap64_add_idemp, IH. f_equal. lia.
Qed.

Lemma GetPlayerStats_ok g ini (db db' : DB) ps :
  GetPlayerStats g ini db = (Ok ps, db') ->
  db' = db /\ psInitials ps = normInitials ini /\
  exists r, storedAllScores db g = Some r /\
    exists e l, playerScoresOf (psInitials ps) (Scores r) = e :: l /\
      psTotalScores ps = length (e :: l) /\ den (psAverageScore ps) = length (e :: l) /\
      playerStatsOf (e :: l) =
        (psHighScore ps, num (psAverageScore ps), psFirstPlayed ps, psLastPlayed ps).
Proof.
  unfold GetPlayerStats, normInitials, storedAllScores.
  destruct (negb _); [discriminate|].
  unfold bind, with_context. rewrite getAllScores_spec.
  destruct (db !! key_all_scores g) as [[r| | |]|]; try discriminate.
  cbv beta iota.
  destruct (playerScoresOf _ _) as [|e l] eqn:El; [discriminate|].
  destruct (playerStatsOf (e :: l)) as [[[h t] f] la] eqn:Es.
  unfold ret. intros H. injection H as <- <-. simpl.
  split; [reflexivity|]. split; [reflexivity|]. exists r. split; [reflexivity|].
  exists e, l. auto.
Qed.

Lemma playerScoresOf_In k l e : In e (playerScoresOf k l) <-> In e l /\ Initials e = k.
Proof.
  unfold playerScoresOf. rewrite <- !list_elem_of_In, list_elem_of_filter.
  rewrite String.eqb_eq. tauto.
Qed.

(** X6: on success, [GetPlayerStats] reports the normalised initials, the
    number (at least 1) of the player's entries in the stored history, and a
    high score that is non-negative, at least every score of the player,
    and either 0 or one of those scores. *)
Theorem GetPlayerStats_high_score g ini (db db' : DB) ps :
  GetPlayerStats g ini db = (Ok ps, db') ->
  exists r, storedAllScores db g = Some r /\
    let l := playerScoresOf (normInitials ini) (Scores r) in
    psInitials ps = normInitials ini /\ psTotalScores ps = length l /\ (1 <= length l)%nat /\
    0 <= psHighScore ps /\ (forall e, In e l -> Score e <= psHighScore ps) /\
    (psHighScore ps = 0 \/ exists e, In e l /\ Score e = psHighScore ps).
Proof.
  intros H. destruct (GetPlayerStats_ok g ini db db' ps H)
    as (_ & Hi & r & Hr & e & l & El & Ht & _ & Hs).
  exists r. split; [exact Hr|]. cbv zeta. rewrite <- Hi, El.
  rewrite playerStatsOf_cons in Hs. injection Hs as Hh _ _ _.
  destruct (fold_max_bound Score l (Z.max 0 (Score e))) as (H1 & H2 & H3).
  rewrite Hh in H1, H2, H3.
  split; [reflexivity|]. split; [exact Ht|]. split; [simpl; lia|]. split; [lia|]. split.
  - intros s [<-|Hs]; [lia|auto].
  - destruct H3 as [H3|(s & Hs & H3)]; [|right; exists s; simpl; auto].
    destruct (Z.max_spec 0 (Score e)) as [[_ E]|[_ E]]; rewrite E in H3;
      [right; exists e; simpl; auto|left; exact H3].
Qed.

(** X7: on success, the first and last played timestamps of
    [GetPlayerStats] are the least and the greatest timestamp of the
    player's entries in the stored history. *)
Theorem GetPlayerStats_played_span g ini (db db' : DB) ps :
  GetPlayerStats g ini db = (Ok ps, db') ->
  exists r, storedAllScores db g = Some r /\
    let l := playerScoresOf (normInitials ini) (Scores r) in
    (forall e, In e l -> psFirstPlayed ps <= Timestamp e <= psLastPlayed ps) /\
    (exists e, In e l /\ Timestamp e = psFirstPlayed ps) /\
    (exists e, In e l /\ Timestamp e = psLastPlayed ps).
Proof.
  intros H. destruct (GetPlayerStats_ok g ini db db' ps H)
    as (_ & Hi & r & Hr & e & l & El & _ & _ & Hs).
  exists r. split; [exact Hr|]. cbv zeta. rewrite <- Hi, El.
  rewrite playerStatsOf_cons in Hs. injection Hs as _ _ Hf Hl.
  destruct (fold_min_bound Timestamp l (Timestamp e)) as (F1 & F2 & F3).
  destruct (fold_max_bound Timestamp l (Timestamp e)) as (L1 & L2 & L3).
  rewrite Hf in F1, F2, F3. rewrite Hl in L1, L2, L3.
  split; [|split].
  - intros s [<-|Hs]; [lia|]. specialize (F2 s Hs). specialize (L2 s Hs). lia.
  - destruct F3 as [F3|(s & Hs & F3)]; [exists e; simpl; auto|exists s; simpl; auto].
  - destruct L3 as [L3|(s & Hs & L3)]; [exists e; simpl; auto|exists s; simpl; auto].
Qed.

(** X8: on success, the average of [GetPlayerStats] is the sum of the
    player's scores (wrapped to 64 bits) over their number. *)
Theorem GetPlayerStats_average g ini (db db' : DB) ps :
  GetPlayerStats g ini db = (Ok ps, db') ->
  exists r, storedAllScores db g = Some r /\
    let l := playerScoresOf (normInitials ini) (Scores r) in
    psAverageScore ps = {| num := wrap64 (fold_right Z.add 0 (map Score l));
                           den := length l |}.
Proof.
  intros H. destruct (GetPlayerStats_ok g ini db db' ps H)
    as (_ & Hi & r & Hr & e & l & El & _ & Hd & Hs).
  exists r. split; [exact Hr|]. cbv zeta. rewrite <- Hi, El.
  rewrite playerStatsOf_cons, fold_wrap64 in Hs. injection Hs as _ Ht _ _.
  destruct (psAverageScore ps) as [n d]. simpl in *. subst. reflexivity.
Qed.

Lemma updatePlayerHighScore_frame g ini score now (db : DB) k :
  k <> key_player_high_scores g ->
  snd (updatePlayerHighScore g ini score now db) !! k = db !! k.
Proof.
  intros Hk. rewrite updatePlayerHighScore_spec. simpl.
  destruct (hsChanged _ _ _); [|reflexivity].
  rewrite lookup_insert_ne by congruence. reflexivity.
Qed.

Lemma regenerate_frame g (db : DB) k :
  k <> key_leaderboard g ->
  snd (regenerateFilteredLeaderboard g db) !! k = db !! k.
Proof.
  intros Hk. rewrite regenerate_spec.
  destruct (db !! key_player_high_scores g) as [[]|]; try reflexivity.
  rewrite saveLeaderboard_spec. destruct (Leaderboard_Validate _); [reflexivity|].
  simpl. rewrite lookup_insert_ne by congruence. reflexivity.
Qed.

Lemma SubmitScore_valid_steps g ini score now (db : DB) :
  String.length (normInitials ini) = 3%nat -> containsSpace (normInitials ini) = false ->
  let db1 := snd (addToAllScores g (normInitials ini) score now db) in
  let db2 := snd (updatePlayerHighScore g (normInitials ini) score now db1) in
  SubmitScore g ini score now db =
    match fst (updatePlayerHighScore g (normInitials ini) score now db1) with
    | Ok _ =>
        (match fst (regenerateFilteredLeaderboard g db2) with
         | Ok a => Ok a | Err e => Err e | Panic e => Panic e end,
         snd (regenerateFilteredLeaderboard g db2))
    | Err e => (Err ("failed to update player high score: " +:+ e), db2)
    | Panic e => (Panic e, db2)
    end.
Proof.
  intros Hl Hs. unfold SubmitScore. fold (normInitials ini). rewrite Hl, Hs. simpl.
  unfold bind at 1, with_context at 1. rewrite addToAllScores_spec. cbv beta iota.
  unfold bind at 1, with_context at 1. simpl.
  destruct (updatePlayerHighScore _ _ _ _ _) as [[]db2]; simpl; try reflexivity.
  destruct (regenerateFilteredLeaderboard g db2) as [[]?]; reflexivity.
Qed.

Lemma SubmitScore_history_after g ini score now (db : DB) :
  String.length (normInitials ini) = 3%nat -> containsSpace (normInitials ini) = false ->
  let db' := snd (SubmitScore g ini score now db) in
  GetAllScoresForGame g db' =
  (Ok {| asGameID := match storedAllScores db g with Some a => asGameID a | None => g end;
         Scores := match storedAllScores db g with Some a => Scores a | None => [] end
                   ++ [{| Initials := normInitials ini; Score := score; Timestamp := now |}];
         asUpdated := now |}, db').
Proof.
  intros Hl Hs. cbv zeta. rewrite (SubmitScore_valid_steps g ini score now db Hl Hs).
  unfold GetAllScoresForGame. rewrite getAllScores_spec.
  set (db1 := snd (addToAllScores g (normInitials ini) score now db)).
  set (db2 := snd (updatePlayerHighScore g (normInitials ini) score now db1)).
  assert (H2 : db2 !! key_all_scores g = db1 !! key_all_scores g)
    by (apply updatePlayerHighScore_frame, key_all_hs).
  assert (H3 : snd (regenerateFilteredLeaderboard g db2) !! key_all_scores g
               = db1 !! key_all_scores g)
    by (rewrite regenerate_frame by apply key_all_lb; exact H2).
  assert (H1 : db1 !! key_all_scores g = Some (PAllScores
    {| asGameID := match storedAllScores db g with Some a => asGameID a | None => g end;
       Scores := match storedAllScores db g with Some a => Scores a | None => [] end
                 ++ [{| Initials := normInitials ini; Score := score; Timestamp := now |}];
       asUpdated := now |}))
    by (unfold db1; rewrite addToAllScores_spec; apply lookup_insert_eq).
  destruct (fst (updatePlayerHighScore _ _ _ _ db1)); simpl;
    [rewrite H3, H1; reflexivity| rewrite H2, H1; reflexivity | rewrite H2, H1; reflexivity].
Qed.

(** X9: a [SubmitScore] call with valid initials appends the entry
    (normalised initials, score, time) to the game's history, which keeps
    its old game id and entries (an empty history when none was readable)
    and is stamped with the time; this holds whatever [SubmitScore]
    returns. *)
Theorem SubmitScore_history_appended g ini score now (db : DB) :
  String.length (normInitials ini) = 3%nat -> containsSpace (normInitials ini) = false ->
  let db' := snd (SubmitScore g ini score now db) in
  GetAllScoresForGame g db' =
  (Ok {| asGameID := match storedAllScores db g with Some a => asGameID a | None => g end;
         Scores := match storedAllScores db g with Some a => Scores a | None => [] end
                   ++ [{| Initials := normInitials ini; Score := score; Timestamp := now |}];
         asUpdated := now |}, db').
Proof. exact (SubmitScore_history_after g ini score now db). Qed.

(** X1: when no leaderboard record exists for a game, the migration
    fallback of [GetLeaderboard] does nothing: [MigrateExistingLeaderboard]
    returns nil without writing (its own leaderboard read fails first), and
    [GetLeaderboard] answers "no leaderboard found for game" with the store
    unchanged. *)
Theorem GetLeaderboard_migration_never_runs g now (db : DB) :
  db !! key_leaderboard g = None ->
  MigrateExistingLeaderboard g now db = (Ok tt, db) /\
  GetLeaderboard g now db = (Err "no leaderboard found for game", db).
Proof.
  intros H. split.
  - unfold MigrateExistingLeaderboard, getRawLeaderboard, attempt, bind, dbGet, ret, fail.
    rewrite H. reflexivity.
  - rewrite GetLeaderboard_spec, H. reflexivity.
Qed.

Lemma GetLeaderboard_migration_never_runs_witness :
  panic_db !! key_leaderboard "pacman" = None /\
  MigrateExistingLeaderboard "pacman" 5 panic_db = (Ok tt, panic_db) /\
  GetLeaderboard "pacman" 5 panic_db = (Err "no leaderboard found for game", panic_db).
Proof.
  assert (H : panic_db !! key_leaderboard "pacman" = None) by (vm_compute; reflexivity).
  split; [exact H|]. exact (GetLeaderboard_migration_never_runs "pacman" 5 panic_db H).
Defined.

Lemma GetLeaderboard_after_SubmitScore g ini score now now' (db db' : DB) :
  SubmitScore g ini score now db = (Ok tt, db') ->
  GetLeaderboard g now' db' =
    (Ok {| GameID := g; Entries := filteredEntries (storedHighScores db' g) |}, db').
Proof.
  intros H. destruct (SubmitScore_ok g ini score now db db' H) as (_ & _ & _ & _ & Hl).
  rewrite GetLeaderboard_spec. unfold storedLeaderboard in Hl.
  destruct (db' !! key_leaderboard g) as [[]|]; try discriminate.
  injection Hl as ->. reflexivity.
Qed.

Lemma validateEntries_all i l :
  validateEntries i l = None -> forall e, In e l -> snd (ScoreEntry_Validate 0 e) = None.
Proof.
  revert i. induction l as [|x l IH]; intros i H e He; [destruct He|].
  simpl in H. destruct (snd (ScoreEntry_Validate 0 x)) eqn:Ex; [discriminate|].
  destruct He as [<-|He]; [exact Ex|]. exact (IH _ H e He).
Qed.

Lemma ScoreEntry_Validate_ok now se :
  snd (ScoreEntry_Validate now se) = None ->
  String.length (normInitials (Initials se)) = 3%nat /\
  containsSpace (normInitials (Initials se)) = false /\ 0 <= Score se <= 999999999.
Proof.
  unfold ScoreEntry_Validate, normInitials. simpl.
  destruct (Nat.eqb_spec (String.length (ToUpper (TrimSpace (Initials se)))) 3);
    [|discriminate].
  destruct (containsSpace _); [discriminate|].
  destruct (Z.ltb_spec (Score se) 0); [discriminate|].
  destruct (Z.ltb_spec 999999999 (Score se)); [discriminate|]. intros _. auto.
Qed.

(** X11: [saveLeaderboard] of a leaderboard that passes [Validate] returns
    nil and [GetLeaderboard] then returns that leaderboard; one that fails
    [Validate] is not stored and an error is returned. *)
Theorem saveLeaderboard_round_trip (lb : Leaderboard) now (db : DB) :
  match Leaderboard_Validate lb with
  | None =>
      fst (saveLeaderboard lb db) = Ok tt /\
      GetLeaderboard (GameID lb) now (snd (saveLeaderboard lb db)) =
        (Ok lb, snd (saveLeaderboard lb db))
  | Some _ =>
      snd (saveLeaderboard lb db) = db /\ exists e, fst (saveLeaderboard lb db) = Err e
  end.
Proof.
  rewrite saveLeaderboard_spec. destruct (Leaderboard_Validate lb); simpl.
  - eauto.
  - split; [reflexivity|]. rewrite GetLeaderboard_spec, lookup_insert_eq. reflexivity.
Qed.

Lemma Leaderboard_Validate_ok lb :
  Leaderboard_Validate lb = None ->
  TrimSpace (GameID lb) <> "" /\ (String.length (GameID lb) <= 50)%nat /\
  (length (Entries lb) <= 10)%nat /\
  forall e, In e (Entries lb) ->
    String.length (normInitials (Initials e)) = 3%nat /\
    containsSpace (normInitials (Initials e)) = false /\ 0 <= Score e <= 999999999.
Proof.
  unfold Leaderboard_Validate.
  destruct (String.eqb_spec (TrimSpace (GameID lb)) ""); [discriminate|].
  destruct (Nat.ltb_spec 50 (String.length (GameID lb))); [discriminate|].
  destruct (Nat.ltb_spec 10 (length (Entries lb))); [discriminate|].
  intros Hv. split; [assumption|]. split; [lia|]. split; [lia|].
  intros x Hx. apply (ScoreEntry_Validate_ok 0), (validateEntries_all 0 _ Hv x Hx).
Qed.

(** X10: after a successful [SubmitScore], [GetLeaderboard] returns the
    leaderboard of the game holding the filtered top entries of the stored
    high-score map, and writes nothing. *)
Theorem SubmitScore_then_GetLeaderboard g ini score now now' (db db' : DB) :
  SubmitScore g ini score now db = (Ok tt, db') ->
  GetLeaderboard g now' db' =
    (Ok {| GameID := g; Entries := filteredEntries (storedHighScores db' g) |}, db').
Proof. exact (GetLeaderboard_after_SubmitScore g ini score now now' db db'). Qed.

Lemma filteredEntries_In (m : gmap string ScoreEntry) e :
  In e (filteredEntries m) -> exists k, m !! k = Some e.
Proof.
  intros He. apply in_values.
  apply (Permutation_in _ (sortStable_perm lessEntry _)).
  destruct (filteredEntries_cases m) as [[E _]|[E _]]; rewrite E in He; [|exact He].
  rewrite <- (take_drop 10 (sortStable lessEntry _)). apply in_app_iff. left. exact He.
Qed.

Lemma filteredEntries_top (m : gmap string ScoreEntry) k e :
  m !! k = Some e -> exists x, In x (filteredEntries m) /\ Score e <= Score x.
Proof.
  intros Hk.
  set (sorted := sortStable lessEntry (map snd (map_to_list m))).
  assert (Hin : In e sorted).
  { apply (Permutation_in _ (Permutation_sym (sortStable_perm lessEntry _))), in_map_iff.
    exists (k, e). split; [reflexivity|]. apply list_elem_of_In, elem_of_map_to_list, Hk. }
  assert (Hsort : StronglySorted rankOrder sorted) by apply sortStable_rankOrder.
  destruct sorted as [|x rest] eqn:Es; [destruct Hin|].
  exists x. split.
  - destruct (filteredEntries_cases m) as [[E _]|[E _]]; rewrite E; fold sorted; rewrite Es;
      left; reflexivity.
  - destruct Hin as [<-|Hin]; [lia|].
    apply StronglySorted_inv in Hsort as [_ Hall].
    rewrite List.Forall_forall in Hall. destruct (Hall e Hin) as [Hle _]. exact Hle.
Qed.

Lemma hsUpdate_keeps_at_least m ini s t k e :
  m !! k = Some e -> exists e', hsUpdate m ini s t !! k = Some e' /\ Score e <= Score e'.
Proof.
  intros Hk. rewrite hsUpdate_lookup.
  destruct (decide (k = ini)) as [->|]; [|eauto with lia].
  rewrite Hk. destruct (Z.ltb_spec (Score e) s); eexists; split; try reflexivity; simpl; lia.
Qed.

(** X13: once the high-score map of a game holds a score above 999999999,
    every later [SubmitScore] for that game fails, since the regenerated
    leaderboard keeps a score at least as high and fails validation. *)
Theorem SubmitScore_blocked_by_out_of_range_high_score g k e ini score now (db : DB) :
  storedHighScores db g !! k = Some e -> 999999999 < Score e ->
  fst (SubmitScore g ini score now db) <> Ok tt.
Proof.
  intros Hk Hbig Hok.
  destruct (SubmitScore g ini score now db) as [r db'] eqn:Hs. simpl in Hok. subst r.
  destruct (SubmitScore_ok g ini score now db db' Hs) as (_ & _ & Hm & Hv & _).
  destruct (hsUpdate_keeps_at_least _ (normInitials ini) score now _ _ Hk) as (e' & He' & Hle).
  rewrite <- Hm in He'.
  destruct (filteredEntries_top _ _ _ He') as (x & Hx & Hle').
  destruct (Leaderboard_Validate_ok _ Hv) as (_ & _ & _ & Hall).
  destruct (Hall x Hx) as (_ & _ & Hr). simpl in Hr. lia.
Qed.

Lemma SubmitScore_blocked_by_out_of_range_high_score_witness :
  let db := snd (SubmitScore "pacman" "AAA" 1000000000 1 ∅) in
  storedHighScores db "pacman" !! "AAA" =
    Some {| Initials := "AAA"; Score := 1000000000; Timestamp := 1 |} /\
  999999999 < 1000000000 /\
  fst (SubmitScore "pacman" "BBB" 100 2 db) <> Ok tt.
Proof.
  cbv zeta.
  assert (H : storedHighScores (snd (SubmitScore "pacman" "AAA" 1000000000 1 ∅)) "pacman" !! "AAA" =
    Some {| Initials := "AAA"; Score := 1000000000; Timestamp := 1 |}) by (vm_compute; reflexivity).
  split; [exact H|]. split; [lia|].
  exact (SubmitScore_blocked_by_out_of_range_high_score "pacman" "AAA" _ "BBB" 100 2 _ H
           ltac:(simpl; lia)).
Defined.

Lemma rankOf_some k i l r :
  rankOf k i l = Some r ->
  (i < r <= i + length l)%nat /\ exists e, l !! (r - S i)%nat = Some e /\ Initials e = k.
Proof.
  revert i. induction l as [|x l IH]; intros i H; [discriminate|].
  simpl in H. destruct (String.eqb_spec (Initials x) k) as [Hx|Hx].
  - injection H as <-. split; [simpl; lia|]. exists x. rewrite Nat.sub_diag. auto.
  - destruct (IH (S i) H) as [Hr (e & He & Hi)]. split; [simpl; lia|].
    exists e. replace (r - S i)%nat with (S (r - S (S i))) by lia. auto.
Qed.

Lemma rankOf_none k i l : rankOf k i l = None -> forall e, In e l -> Initials e <> k.
Proof.
  revert i. induction l as [|x l IH]; intros i H e He; [destruct He|].
  simpl in H. destruct (String.eqb_spec (Initials x) k) as [Hx|Hx]; [discriminate|].
  destruct He as [<-|He]; [exact Hx|exact (IH _ H e He)].
Qed.

(** X14: in a store produced by the service, after a successful
    submission the handler's follow-up read returns the filtered
    leaderboard and the player's rank in it; the player has a best entry,
    found at position rank (1 to 10) when a rank is given and absent from
    the leaderboard otherwise. *)
Theorem submit_response_rank g ini score now now' (db db' : DB) :
  reachable db ->
  SubmitScore g ini score now db = (Ok tt, db') ->
  let k := normInitials ini in
  let lb := {| GameID := g; Entries := filteredEntries (storedHighScores db' g) |} in
  submitScoreResponse g k now' db' = (Ok (Some lb, rankOf k 0 (Entries lb)), db') /\
  (exists best, storedHighScores db' g !! k = Some best /\
     match rankOf k 0 (Entries lb) with
     | Some r => (1 <= r <= 10)%nat /\ Entries lb !! (r - 1)%nat = Some best
     | None => ~ In best (Entries lb)
     end).
Proof.
  intros Hr Hs. cbv zeta.
  pose proof (GetLeaderboard_after_SubmitScore g ini score now now' db db' Hs) as Hg.
  destruct (SubmitScore_ok g ini score now db db' Hs) as (_ & _ & Hm & Hv & _).
  assert (Hinv : storeInv db').
  { replace db' with (snd (SubmitScore g ini score now db)) by (rewrite Hs; reflexivity).
    apply preserves_SubmitScore, reachable_storeInv, Hr. }
  destruct (Hinv g) as [Hc _].
  set (m := storedHighScores db' g) in *.
  split.
  - unfold submitScoreResponse, attempt, bind, ret. rewrite Hg. reflexivity.
  - assert (Hbest : exists best, m !! normInitials ini = Some best).
    { rewrite Hm, hsUpdate_lookup, decide_True by reflexivity. eauto. }
    destruct Hbest as [best Hb]. exists best. split; [exact Hb|].
    cbn [Entries].
    destruct (rankOf _ 0 _) as [r|] eqn:Er.
    + destruct (rankOf_some _ _ _ _ Er) as [Hrange (e & He & Hi)].
      pose proof (Leaderboard_Validate_length _ Hv) as Hlen. simpl in Hlen.
      split; [lia|].
      rewrite He. f_equal.
      apply list_elem_of_lookup_2, list_elem_of_In, filteredEntries_In in He as [k' Hk'].
      rewrite (Hc _ _ Hk') in Hi. subst k'. congruence.
    + intros Hin. apply (rankOf_none _ _ _ Er best Hin). exact (Hc _ _ Hb).
Qed.

#[local] Hint Resolve readOnly_ret readOnly_fail readOnly_bind readOnly_attempt
  readOnly_with_context readOnly_dbGet readOnly_getAllScores readOnly_GetLeaderboard
  readOnly_GetPlayerStats readOnly_GetEnhancedPlayerStats readOnly_GetScoreAnalysis : readonly.

(** X2: the read operations ([GetLeaderboard], [GetAllScoresForGame],
    [GetPlayerStats], [GetEnhancedPlayerStats], [GetScoreAnalysis]) and the
    GET handlers built on them never change the store, whatever their
    outcome. *)
Theorem read_paths_never_write g ini includeHistory q limit qlimit now (db : DB) :
  snd (GetLeaderboard g now db) = db /\
  snd (GetAllScoresForGame g db) = db /\
  snd (GetPlayerStats g ini db) = db /\
  snd (GetEnhancedPlayerStats g ini includeHistory now db) = db /\
  snd (GetScoreAnalysis g limit now db) = db /\
  snd (handleGetLeaderboard g now db) = db /\
  snd (handleGetAllScores g db) = db /\
  snd (handleGetPlayerStats g ini db) = db /\
  snd (handleGetEnhancedPlayerStats g ini q now db) = db /\
  snd (handleGetScoreAnalysis g qlimit now db) = db.
Proof.
  split; [apply readOnly_GetLeaderboard|]. split; [apply readOnly_getAllScores|].
  split; [apply readOnly_GetPlayerStats|]. split; [apply readOnly_GetEnhancedPlayerStats|].
  split; [apply readOnly_GetScoreAnalysis|]. split; [|split; [|split; [|split]]].
  - unfold handleGetLeaderboard. revert db.
    destruct (String.eqb g ""); [apply readOnly_ret|].
    destruct (50 <? String.length g)%nat; [apply readOnly_ret|].
    apply readOnly_bind; auto with readonly. intros [lb|e]; apply readOnly_ret.
  - unfold handleGetAllScores, GetAllScoresForGame. revert db.
    destruct (String.eqb g ""); [apply readOnly_ret|].
    destruct (50 <? String.length g)%nat; [apply readOnly_ret|].
    apply readOnly_bind; auto with readonly. intros [lb|e]; apply readOnly_ret.
  - unfold handleGetPlayerStats. revert db.
    destruct (String.eqb g ""); [apply readOnly_ret|].
    destruct (String.eqb ini ""); [apply readOnly_ret|].
    destruct (50 <? String.length g)%nat; [apply readOnly_ret|].
    destruct (negb _); [apply readOnly_ret|].
    apply readOnly_bind; auto with readonly. intros [lb|e]; apply readOnly_ret.
  - unfold handleGetEnhancedPlayerStats. revert db.
    destruct (String.eqb g ""); [apply readOnly_ret|].
    destruct (String.eqb ini ""); [apply readOnly_ret|].
    destruct (50 <? String.length g)%nat; [apply readOnly_ret|].
    destruct (negb _); [apply readOnly_ret|].
    apply readOnly_bind; auto with readonly. intros [lb|e]; apply readOnly_ret.
  - unfold handleGetScoreAnalysis. revert db.
    destruct (String.eqb g ""); [apply readOnly_ret|].
    destruct (50 <? String.length g)%nat; [apply readOnly_ret|].
    apply readOnly_bind; auto with readonly. intros [lb|e]; apply readOnly_ret.
Qed.

(** X3: the leaderboard GET handler answers 400 for an empty game id or
    one longer than 50 bytes, otherwise 200 with the stored leaderboard
    record, or 404 when there is none or it does not decode; the store is
    unchanged. *)
Theorem handleGetLeaderboard_status g now (db : DB) :
  handleGetLeaderboard g now db =
  (Ok (if (String.eqb g "" || (50 <? String.length g)%nat)%bool then (400%nat, None)
       else match storedLeaderboard db g with
            | Some lb => (200%nat, Some lb)
            | None => (404%nat, None)
            end), db).
Proof.
  unfold handleGetLeaderboard, storedLeaderboard.
  destruct (String.eqb g ""); [reflexivity|].
  destruct (50 <? String.length g)%nat; [reflexivity|]. simpl.
  unfold attempt, bind, ret. rewrite GetLeaderboard_spec.
  destruct (db !! key_leaderboard g) as [[]|]; reflexivity.
Qed.

(** X4: the all-scores GET handler answers 400 for an empty game id or
    one longer than 50 bytes, otherwise 200 with the stored history record,
    or 404 when there is none or it does not decode; the store is
    unchanged. *)
Theorem handleGetAllScores_status g (db : DB) :
  handleGetAllScores g db =
  (Ok (if (String.eqb g "" || (50 <? String.length g)%nat)%bool then (400%nat, None)
       else match storedAllScores db g with
            | Some r => (200%nat, Some r)
            | None => (404%nat, None)
            end), db).
Proof.
  unfold handleGetAllScores, GetAllScoresForGame, storedAllScores.
  destruct (String.eqb g ""); [reflexivity|].
  destruct (50 <? String.length g)%nat; [reflexivity|]. simpl.
  unfold attempt, bind, ret. rewrite getAllScores_spec.
  destruct (db !! key_all_scores g) as [[]|]; reflexivity.
Qed.

Lemma submitScoreLegacy_spec g ini score now (db : DB) :
  let base := match storedLeaderboard db g with
              | Some lb => lb | None => {| GameID := g; Entries := [] |} end in
  let entries := sortStable lessEntry
                   (Entries base ++ [{| Initials := ini; Score := score; Timestamp := now |}]) in
  submitScoreLegacy g ini score now db =
  saveLeaderboard {| GameID := GameID base;
                     Entries := if (10 <? length entries)%nat then take 10 entries else entries |} db.
Proof.
  unfold submitScoreLegacy, storedLeaderboard, attempt, bind. rewrite GetLeaderboard_spec.
  destruct (db !! key_leaderboard g) as [[]|]; reflexivity.
Qed.

(** X15: a successful legacy submission stores, under the base
    leaderboard's game id, an entry list sorted by the leaderboard order, of
    at most 10 entries, which is a permutation of the old entries plus the
    new one when there were fewer than 10; nothing else is written. *)
Theorem submitScoreLegacy_board g ini score now (db db' : DB) :
  submitScoreLegacy g ini score now db = (Ok tt, db') ->
  let base := match storedLeaderboard db g with
              | Some lb => lb | None => {| GameID := g; Entries := [] |} end in
  let entry := {| Initials := ini; Score := score; Timestamp := now |} in
  exists E, db' = <[key_leaderboard (GameID base) :=
                     PLeaderboard {| GameID := GameID base; Entries := E |}]> db /\
    StronglySorted rankOrder E /\ (length E <= 10)%nat /\
    ((length (Entries base) < 10)%nat -> Permutation E (Entries base ++ [entry])).
Proof.
  rewrite submitScoreLegacy_spec. cbv zeta.
  set (base := match storedLeaderboard db g with
               | Some lb => lb | None => {| GameID := g; Entries := [] |} end).
  set (l := Entries base ++ [{| Initials := ini; Score := score; Timestamp := now |}]).
  set (sorted := sortStable lessEntry l).
  rewrite saveLeaderboard_spec.
  destruct (Leaderboard_Validate _) eqn:Hv; [discriminate|].
  intros H. injection H as <-. eexists. split; [reflexivity|].
  assert (Hp : Permutation sorted l) by apply sortStable_perm.
  assert (Hs : StronglySorted rankOrder sorted) by apply sortStable_rankOrder.
  split; [|split].
  - destruct (10 <? length sorted)%nat; [apply StronglySorted_take|]; exact Hs.
  - destruct (Nat.ltb_spec 10 (length sorted)); [rewrite length_take|]; lia.
  - intros Hlt. assert (Hlen : length sorted = S (length (Entries base))).
    { rewrite (Permutation_length Hp). unfold l. rewrite length_app. simpl. lia. }
    destruct (Nat.ltb_spec 10 (length sorted)); [lia|]. exact Hp.
Qed.

Lemma submitScoreLegacy_board_witness :
  submitScoreLegacy "pacman" "AAA" 100 1 ∅ = (Ok tt, snd (submitScoreLegacy "pacman" "AAA" 100 1 ∅)) /\
  exists E, snd (submitScoreLegacy "pacman" "AAA" 100 1 ∅) =
    <[key_leaderboard "pacman" := PLeaderboard {| GameID := "pacman"; Entries := E |}]> ∅ /\
    (length E <= 10)%nat.
Proof.
  assert (H : submitScoreLegacy "pacman" "AAA" 100 1 ∅ =
              (Ok tt, snd (submitScoreLegacy "pacman" "AAA" 100 1 ∅))) by (vm_compute; reflexivity).
  split; [exact H|].
  destruct (submitScoreLegacy_board _ _ _ _ _ _ H) as (E & HE & _ & Hl & _).
  exists E. split; [exact HE|exact Hl].
Defined.

Lemma validateEntries_some i l e :
  In e l -> snd (ScoreEntry_Validate 0 e) <> None -> validateEntries i l <> None.
Proof.
  intros He Hbad Hv. apply Hbad. exact (validateEntries_all i l Hv e He).
Qed.

(** X16: a legacy submission whose entry fails [ScoreEntry.Validate],
    made while the game's stored leaderboard has room, returns an error and
    writes nothing. *)
Theorem submitScoreLegacy_rejects_invalid_entry g ini score now (db : DB) :
  snd (ScoreEntry_Validate 0 {| Initials := ini; Score := score; Timestamp := now |}) <> None ->
  (forall lb, storedLeaderboard db g = Some lb -> (length (Entries lb) < 10)%nat) ->
  snd (submitScoreLegacy g ini score now db) = db /\
  exists e, fst (submitScoreLegacy g ini score now db) = Err e.
Proof.
  intros Hbad Hroom. rewrite submitScoreLegacy_spec. cbv zeta.
  set (base := match storedLeaderboard db g with
               | Some lb => lb | None => {| GameID := g; Entries := [] |} end).
  assert (Hb : (length (Entries base) < 10)%nat).
  { unfold base. destruct (storedLeaderboard db g) eqn:E; [exact (Hroom _ eq_refl)|simpl; lia]. }
  set (entry := {| Initials := ini; Score := score; Timestamp := now |}) in *.
  set (l := Entries base ++ [entry]).
  set (sorted := sortStable lessEntry l).
  assert (Hp : Permutation sorted l) by apply sortStable_perm.
  assert (Hlen : length sorted = S (length (Entries base))).
  { rewrite (Permutation_length Hp). unfold l. rewrite length_app. simpl. lia. }
  destruct (Nat.ltb_spec 10 (length sorted)); [lia|].
  assert (Hin : In entry sorted).
  { apply (Permutation_in _ (Permutation_sym Hp)). unfold l. apply in_app_iff. right. left. reflexivity. }
  rewrite saveLeaderboard_spec.
  destruct (Leaderboard_Validate _) eqn:Hv; [simpl; eauto|].
  exfalso. destruct (Leaderboard_Validate_ok _ Hv) as (_ & _ & _ & Hall).
  destruct (Hall entry Hin) as (Hl & Hs & Hr).
  apply Hbad. unfold ScoreEntry_Validate. fold (normInitials (Initials entry)).
  simpl in *. rewrite Hl, Hs. simpl.
  destruct (Z.ltb_spec score 0); [lia|]. destruct (Z.ltb_spec 999999999 score); [lia|].
  reflexivity.
Qed.

Lemma rangeLabel_none s : rangeLabel s scoreRanges = None <-> s < 0 \/ 999999999 < s.
Proof.
  unfold scoreRanges. simpl.
  destruct (Z.leb_spec 0 s), (Z.leb_spec s 999); simpl; [split; [discriminate|lia]| | |];
  destruct (Z.leb_spec 1000 s), (Z.leb_spec s 4999); simpl; try (split; [discriminate|lia]);
  destruct (Z.leb_spec 5000 s), (Z.leb_spec s 9999); simpl; try (split; [discriminate|lia]);
  destruct (Z.leb_spec 10000 s), (Z.leb_spec s 24999); simpl; try (split; [discriminate|lia]);
  destruct (Z.leb_spec 25000 s), (Z.leb_spec s 49999); simpl; try (split; [discriminate|lia]);
  destruct (Z.leb_spec 50000 s), (Z.leb_spec s 999999999); simpl; try (split; [discriminate|lia]);
  split; auto; lia.
Qed.

Lemma scoreDistribution_fold scores (d : gmap string nat) label :
  fold_left (fun d score =>
    match rangeLabel (Score score) scoreRanges with
    | Some label => <[label := S (default 0%nat (d !! label))]> d
    | None => d
    end) scores d !! label =
  let n := length (filter (fun s => rangeLabel (Score s) scoreRanges = Some label) scores) in
  if decide (n = 0%nat) then d !! label else Some (default 0%nat (d !! label) + n)%nat.
Proof.
  revert d. induction scores as [|s scores IH]; intros d; cbn [fold_left]; [reflexivity|].
  rewrite IH. rewrite filter_cons.
  destruct (rangeLabel (Score s) scoreRanges) as [l|] eqn:E.
  - destruct (decide (Some l = Some label)) as [Hl|Hl].
    + injection Hl as ->. rewrite lookup_insert_eq. cbn [length default].
      repeat destruct (decide _); unfold id; try lia; f_equal; lia.
    + rewrite lookup_insert_ne by congruence. reflexivity.
  - destruct (decide (None = Some label)); [discriminate|]. reflexivity.
Qed.

(** X17: the score distribution maps each range label to the number of
    scores falling in that range, and has no key for a range without scores;
    scores below 0 or above 999999999 fall in no range. *)
Theorem scoreDistributionOf_counts scores label :
  scoreDistributionOf scores !! label =
  (let n := length (filter (fun s => rangeLabel (Score s) scoreRanges = Some label) scores) in
   if decide (n = 0%nat) then None else Some n) /\
  (forall s, rangeLabel s scoreRanges = None <-> s < 0 \/ 999999999 < s).
Proof.
  split; [|exact rangeLabel_none].
  unfold scoreDistributionOf. rewrite scoreDistribution_fold. simpl.
  destruct (decide _); reflexivity.
Qed.

Lemma analysis_fold scores h t la (pm : gmap string (list ScoreEntry)) :
  exists pm',
  fold_left (fun '(highestScore, totalScore, lastActivity, playerMap) score =>
    (if highestScore <? Score score then Score score else highestScore,
     wrap64 (totalScore + Score score),
     if lastActivity <? Timestamp score then Timestamp score else lastActivity,
     <[Initials score := default [] (playerMap !! Initials score) ++ [score]]> playerMap))
    scores (h, t, la, pm) =
  (fold_left (fun a s => Z.max a (Score s)) scores h,
   fold_left (fun a s => wrap64 (a + Score s)) scores t,
   fold_left (fun a s => Z.max a (Timestamp s)) scores la, pm') /\
  forall k, pm' !! k = match playerScoresOf k scores with
                       | [] => pm !! k
                       | l => Some (default [] (pm !! k) ++ l)
                       end.
Proof.
  revert h t la pm. induction scores as [|s scores IH]; intros h t la pm.
  - exists pm. split; [reflexivity|]. intros k. reflexivity.
  - cbn [fold_left]. rewrite !ltb_max.
    destruct (IH (Z.max h (Score s)) (wrap64 (t + Score s)) (Z.max la (Timestamp s))
                 (<[Initials s := default [] (pm !! Initials s) ++ [s]]> pm)) as (pm' & E & Hk).
    exists pm'. split; [exact E|]. intros k. rewrite Hk.
    unfold playerScoresOf. rewrite filter_cons.
    destruct (decide (String.eqb (Initials s) k = true)) as [Hs|Hs].
    + apply String.eqb_eq in Hs. subst k. rewrite lookup_insert_eq.
      destruct (filter _ scores) as [|x l]; simpl; [reflexivity|].
      rewrite <- app_assoc. reflexivity.
    + rewrite lookup_insert_ne; [reflexivity|]. intros Hk'. apply Hs. subst. apply String.eqb_refl.
Qed.

Lemma analysisLoop_spec scores :
  exists pm,
  analysisLoop scores =
  (fold_left (fun a s => Z.max a (Score s)) scores 0,
   fold_left (fun a s => wrap64 (a + Score s)) scores 0,
   fold_left (fun a s => Z.max a (Timestamp s)) scores zeroTime, pm) /\
  forall k, pm !! k = match playerScoresOf k scores with [] => None | l => Some l end.
Proof.
  destruct (analysis_fold scores 0 0 zeroTime ∅) as (pm & E & Hk).
  exists pm. split; [exact E|]. intros k. rewrite Hk, lookup_empty.
  destruct (playerScoresOf k scores); reflexivity.
Qed.

Lemma playerMap_dom scores (pm : gmap string (list ScoreEntry)) :
  (forall k, pm !! k = match playerScoresOf k scores with [] => None | l => Some l end) ->
  size pm = size (list_to_set (map Initials scores) : gset string).
Proof.
  intros Hk. rewrite <- size_dom. f_equal. apply set_eq. intros k.
  rewrite elem_of_dom, elem_of_list_to_set, list_elem_of_In, Hk.
  split.
  - intros Hs. destruct (playerScoresOf k scores) as [|e l] eqn:E; [destruct Hs; discriminate|].
    assert (He : In e (playerScoresOf k scores)) by (rewrite E; left; reflexivity).
    apply playerScoresOf_In in He as [He Hi]. rewrite <- Hi. apply in_map, He.
  - intros Hin. apply in_map_iff in Hin as (e & <- & He).
    assert (Hp : In e (playerScoresOf (Initials e) scores)) by (apply playerScoresOf_In; auto).
    destruct (playerScoresOf (Initials e) scores); [destruct Hp|]. eexists; reflexivity.
Qed.

Lemma GetScoreAnalysis_ok g limit now (db : DB) r :
  fst (GetScoreAnalysis g limit now db) = Ok r ->
  exists h e es pm, storedAllScores db g = Some h /\ Scores h = e :: es /\
    analysisLoop (e :: es) = (HighestScore r, num (raAverageScore r), LastActivity r, pm) /\
    TotalPlayers r = size pm /\ TotalScores r = length (e :: es) /\
    den (raAverageScore r) = length (e :: es).
Proof.
  unfold GetScoreAnalysis, storedAllScores, with_context, bind. rewrite getAllScores_spec.
  destruct (db !! key_all_scores g) as [[h| | |]|]; try discriminate. cbv beta iota.
  destruct (Scores h) as [|e es] eqn:Es; [discriminate|].
  destruct (analysisLoop (e :: es)) as [[[hs ts] la] pm] eqn:Ea.
  unfold attempt. rewrite GetLeaderboard_spec.
  destruct (db !! key_leaderboard g) as [[| | lb |]|]; try discriminate. cbv beta iota.
  destruct (topPlayersLoop _ _ _ _ _ db) as [[tp|x|x] db1]; try discriminate.
  intros H. injection H as <-. exists h, e, es, pm. simpl. auto 10.
Qed.

(** X18: on success, [GetScoreAnalysis] works from a non-empty stored
    history: the total scores are its length, the total players the number
    of distinct initials in it, and the average the wrapped sum of its
    scores over its length. *)
Theorem GetScoreAnalysis_totals g limit now (db : DB) r :
  fst (GetScoreAnalysis g limit now db) = Ok r ->
  exists h, storedAllScores db g = Some h /\ Scores h <> [] /\
    TotalScores r = length (Scores h) /\
    TotalPlayers r = size (list_to_set (map Initials (Scores h)) : gset string) /\
    raAverageScore r = {| num := wrap64 (fold_right Z.add 0 (map Score (Scores h)));
                          den := length (Scores h) |}.
Proof.
  intros H. destruct (GetScoreAnalysis_ok g limit now db r H)
    as (h & e & es & pm & Hh & Es & Ea & Hp & Hs & Hd).
  destruct (analysisLoop_spec (e :: es)) as (pm' & Ea' & Hk).
  rewrite Ea in Ea'. injection Ea' as _ Ht _ ->.
  exists h. rewrite Es. split; [exact Hh|]. split; [discriminate|]. split; [exact Hs|].
  split; [rewrite Hp; apply playerMap_dom, Hk|].
  destruct (raAverageScore r) as [n d]. simpl in *. subst. f_equal.
  cbn [fold_left]. rewrite fold_wrap64, Z.add_0_l. reflexivity.
Qed.

(** X19: on success, the highest score of [GetScoreAnalysis] is
    non-negative, bounds every score of the history and is 0 or one of
    them; the last activity bounds every timestamp and is the zero time or
    one of them. *)
Theorem GetScoreAnalysis_extremes g limit now (db : DB) r :
  fst (GetScoreAnalysis g limit now db) = Ok r ->
  exists h, storedAllScores db g = Some h /\
    0 <= HighestScore r /\
    (forall e, In e (Scores h) -> Score e <= HighestScore r /\ Timestamp e <= LastActivity r) /\
    (HighestScore r = 0 \/ exists e, In e (Scores h) /\ Score e = HighestScore r) /\
    (LastActivity r = zeroTime \/ exists e, In e (Scores h) /\ Timestamp e = LastActivity r).
Proof.
  intros H. destruct (GetScoreAnalysis_ok g limit now db r H)
    as (h & e & es & pm & Hh & Es & Ea & _ & _ & _).
  destruct (analysisLoop_spec (e :: es)) as (pm' & Ea' & _).
  rewrite Ea in Ea'. injection Ea' as Hs _ Hl _.
  exists h. rewrite Es. split; [exact Hh|].
  destruct (fold_max_bound Score (e :: es) 0) as (S1 & S2 & S3).
  destruct (fold_max_bound Timestamp (e :: es) zeroTime) as (L1 & L2 & L3).
  cbn [fold_left] in S1, S2, S3, L1, L2, L3. rewrite <- Hs in S1, S2, S3. rewrite <- Hl in L1, L2, L3.
  split; [exact S1|]. split; [intros x Hx; split; [apply S2, Hx|apply L2, Hx]|]. split; [destruct S3 as [S3|(x & Hx & S3)]; [left; exact S3|right; exists x; auto]|destruct L3 as [L3|(x & Hx & L3)]; [left; exact L3|right; exists x; auto]].
Qed.

(** X20: the migration's high-score map keeps, for each initials, the
    first entry with the best score (earlier entries score strictly less,
    later ones at most as much), and has no key for initials absent from the
    entries. *)
Theorem migrateHighScores_first_best entries k :
  match migrateHighScores entries !! k with
  | Some e => exists pre post, entries = pre ++ e :: post /\ Initials e = k /\
      (forall x, In x pre -> Initials x = k -> Score x < Score e) /\
      (forall x, In x post -> Initials x = k -> Score x <= Score e)
  | None => forall x, In x entries -> Initials x <> k
  end.
Proof.
  unfold migrateHighScores. induction entries as [|x l IH] using rev_ind.
  - cbn [fold_left]. rewrite lookup_empty. intros x [].
  - rewrite fold_left_app. cbn [fold_left].
    set (m := fold_left _ l ∅) in *.
    unfold lookupEntry. destruct (decide (Initials x = k)) as [<-|Hk].
    + destruct (m !! Initials x) as [e0|] eqn:Em.
      * destruct IH as (pre & post & -> & Hi & Hpre & Hpost). simpl.
        destruct (Z.ltb_spec (Score e0) (Score x)) as [Hlt|Hge].
        -- rewrite lookup_insert_eq. exists (pre ++ e0 :: post), []. split; [reflexivity|].
           split; [reflexivity|]. split; [|intros y []].
           intros y Hy Hiy. apply in_app_iff in Hy as [Hy|[<-|Hy]].
           ++ specialize (Hpre y Hy Hiy). lia.
           ++ exact Hlt.
           ++ specialize (Hpost y Hy Hiy). lia.
        -- rewrite Em. exists pre, (post ++ [x]). split; [rewrite <- app_assoc; reflexivity|].
           split; [exact Hi|]. split; [exact Hpre|].
           intros y Hy Hiy. apply in_app_iff in Hy as [Hy|[<-|[]]]; [auto|exact Hge].
      * simpl. rewrite lookup_insert_eq. exists l, []. split; [reflexivity|].
        split; [reflexivity|]. split; [|intros y []].
        intros y Hy Hiy. exfalso. exact (IH y Hy Hiy).
    + assert (Hstep : (let '(existing, exists_) :=
                         match m !! Initials x with
                         | Some e => (e, true) | None => (zeroEntry, false) end in
                       if (negb exists_ || (Score existing <? Score x))%bool
                       then <[Initials x := x]> m else m) !! k = m !! k).
      { destruct (m !! Initials x); simpl;
          [destruct (Score s <? Score x)|]; try reflexivity;
          rewrite lookup_insert_ne by exact Hk; reflexivity. }
      rewrite Hstep. destruct (m !! k) as [e0|].
      * destruct IH as (pre & post & -> & Hi & Hpre & Hpost).
        exists pre, (post ++ [x]). split; [rewrite <- app_assoc; reflexivity|].
        split; [exact Hi|]. split; [exact Hpre|].
        intros y Hy Hiy. apply in_app_iff in Hy as [Hy|[<-|[]]]; [auto|congruence].
      * intros y Hy. apply in_app_iff in Hy as [Hy|[<-|[]]]; [auto|exact Hk].
Qed.

Lemma GetEnhancedPlayerStats_ok g ini includeHistory now (db : DB) es :
  fst (GetEnhancedPlayerStats g ini includeHistory now db) = Ok es ->
  exists r e l, storedAllScores db g = Some r /\
    playerScoresOf (normInitials ini) (Scores r) = e :: l /\
    eInitials es = normInitials ini /\
    CurrentRank es = match storedLeaderboard db g with
                     | Some lb => rankOf (normInitials ini) 0 (Entries lb)
                     | None => None
                     end /\
    Achievements es = fst (calculateAchievements (e :: l) (eHighScore es)) /\
    ScoreHistory es = (if includeHistory then snd (calculateAchievements (e :: l) (eHighScore es))
                       else []) /\
    eHighScore es = fst (fst (fst (playerStatsOf (e :: l)))).
Proof.
  unfold GetEnhancedPlayerStats, storedAllScores, storedLeaderboard, normInitials.
  destruct (negb _); [discriminate|].
  unfold bind, with_context. rewrite getAllScores_spec.
  destruct (db !! key_all_scores g) as [[r| | |]|]; try discriminate. cbv beta iota.
  destruct (playerScoresOf _ _) as [|e l] eqn:El; [discriminate|].
  destruct (playerStatsOf (e :: l)) as [[[h t] f] la] eqn:Es. cbv beta iota.
  unfold attempt. rewrite GetLeaderboard_spec.
  destruct (calculateAchievements (e :: l) h) as [achs sorted] eqn:Ec.
  intros H. exists r, e, l. split; [reflexivity|]. split; [exact El|].
  destruct (db !! key_leaderboard g) as [[| | lb |]|]; simpl in H; injection H as <-;
    cbn [eHighScore eInitials CurrentRank Achievements ScoreHistory]; rewrite Ec, Es; auto 10.
Qed.

(** X21: on success, [GetEnhancedPlayerStats] with history returns the
    player's entries of the stored history reordered by timestamp, and
    without history an empty list. *)
Theorem GetEnhancedPlayerStats_history g ini includeHistory now (db : DB) es :
  fst (GetEnhancedPlayerStats g ini includeHistory now db) = Ok es ->
  exists r, storedAllScores db g = Some r /\
    if includeHistory
    then Permutation (ScoreHistory es) (playerScoresOf (normInitials ini) (Scores r)) /\
         StronglySorted tsOrder (ScoreHistory es)
    else ScoreHistory es = [].
Proof.
  intros H. destruct (GetEnhancedPlayerStats_ok _ _ _ _ _ _ H)
    as (r & e & l & Hr & El & _ & _ & _ & Hh & _).
  exists r. split; [exact Hr|]. rewrite Hh, El.
  destruct includeHistory; [|reflexivity].
  rewrite calculateAchievements_cons. apply sortStable_timestamp.
Qed.

(** X22: in a store produced by the service, the current rank reported by
    [GetEnhancedPlayerStats] is between 1 and 10 and points to an entry of
    the stored leaderboard with the player's initials; with no rank, no
    leaderboard entry has those initials. *)
Theorem GetEnhancedPlayerStats_rank g ini includeHistory now (db : DB) es :
  reachable db ->
  fst (GetEnhancedPlayerStats g ini includeHistory now db) = Ok es ->
  match CurrentRank es with
  | Some r => exists lb, storedLeaderboard db g = Some lb /\ (1 <= r <= 10)%nat /\
      exists e, Entries lb !! (r - 1)%nat = Some e /\ Initials e = eInitials es
  | None => forall lb, storedLeaderboard db g = Some lb ->
      forall e, In e (Entries lb) -> Initials e <> eInitials es
  end.
Proof.
  intros Hreach H. destruct (GetEnhancedPlayerStats_ok _ _ _ _ _ _ H)
    as (r & e & l & _ & _ & Hi & Hrank & _).
  pose proof (proj2 (reachable_storeInv db Hreach g)) as Hw.
  rewrite Hrank, Hi. destruct (storedLeaderboard db g) as [lb|] eqn:Elb.
  - destruct (rankOf _ 0 _) as [n|] eqn:Er.
    + destruct (rankOf_some _ _ _ _ Er) as [Hn (x & Hx & Hxi)].
      destruct (Hw lb eq_refl) as [Hlen _].
      exists lb. split; [reflexivity|]. split; [lia|]. exists x. auto.
    + intros lb' Hlb'. injection Hlb' as <-. apply (rankOf_none _ _ _ Er).
  - intros lb' Hlb'. discriminate.
Qed.

(** X23: for a non-empty score list, the first achievement is
    [first_score], unlocked at the earliest timestamp of the list, and
    [score_hunter] is unlocked exactly when there are at least 10 scores. *)
Theorem calculateAchievements_first_and_hunter ps hs achs sorted :
  ps <> [] ->
  calculateAchievements ps hs = (achs, sorted) ->
  (exists first rest, achs = first :: rest /\ ID first = "first_score" /\
     (exists e, In e ps /\ UnlockedAt first = Timestamp e) /\
     forall e, In e ps -> UnlockedAt first <= Timestamp e) /\
  ((exists a, In a achs /\ ID a = "score_hunter") <-> (10 <= length ps)%nat).
Proof.
  intros Hne H. destruct ps as [|p ps']; [congruence|].
  rewrite calculateAchievements_cons in H. cbv zeta in H. injection H as <- <-.
  destruct (sortStable_timestamp (p :: ps')) as [Hperm Hsort].
  set (sorted := sortStable lessTimestamp (p :: ps')) in *.
  assert (Hlen : length sorted = length (p :: ps')) by (apply Permutation_length; exact Hperm).
  split.
  - eexists _, _. split; [reflexivity|]. split; [reflexivity|]. simpl.
    destruct sorted as [|x rest] eqn:Es; [apply Permutation_nil in Hperm; discriminate|].
    simpl. split.
    + exists x. split; [|reflexivity]. apply (Permutation_in _ Hperm). left. reflexivity.
    + intros e He. apply (Permutation_in _ (Permutation_sym Hperm)) in He.
      destruct He as [<-|He]; [lia|].
      apply StronglySorted_inv in Hsort as [_ Hall].
      rewrite List.Forall_forall in Hall. exact (Hall e He).
  - rewrite <- Hlen. split.
    + intros (a & Ha & Hid). destruct (Nat.le_gt_cases 10 (length sorted)) as [?|Hlt]; [assumption|exfalso].
      destruct Ha as [<-|Ha]; [discriminate|].
      apply in_app_iff in Ha as [Ha|Ha].
      * apply in_milestoneAchievements in Ha as (thr & id & name & icon & Hm & _ & ->).
        destruct (milestones_facts _ _ _ _ Hm) as (_ & _ & _ & Hs & _). simpl in Hid. congruence.
      * apply in_app_iff in Ha as [Ha|Ha].
        -- revert Ha. case_match; [intros [<-|[]]; discriminate|intros []].
        -- assert (E : (10 <=? length sorted)%nat = false) by (apply Nat.leb_gt; lia).
           simpl in E. rewrite E in Ha. destruct Ha.
    + intros Hl. assert (E : (10 <=? length sorted)%nat = true) by (apply Nat.leb_le; lia).
      simpl in E. rewrite E.
      eexists. split; [right; apply in_app_iff; right; apply in_app_iff; right; left; reflexivity|reflexivity].
Qed.

Lemma GetPlayerStats_high_score_witness :
  exists ps db', GetPlayerStats "pacman" "bbb" analysis_db = (Ok ps, db') /\
  exists r, storedAllScores analysis_db "pacman" = Some r /\
    let l := playerScoresOf (normInitials "bbb") (Scores r) in
    psInitials ps = normInitials "bbb" /\ psTotalScores ps = length l /\ (1 <= length l)%nat /\
    0 <= psHighScore ps /\ (forall e, In e l -> Score e <= psHighScore ps) /\
    (psHighScore ps = 0 \/ exists e, In e l /\ Score e = psHighScore ps).
Proof.
  destruct (GetPlayerStats "pacman" "bbb" analysis_db) as [[ps| |] db'] eqn:E;
    [|vm_compute in E; discriminate..].
  exists ps, db'. split; [reflexivity|].
  exact (GetPlayerStats_high_score _ _ _ _ _ E).
Defined.

Lemma GetPlayerStats_played_span_witness :
  exists ps db', GetPlayerStats "pacman" "bbb" analysis_db = (Ok ps, db') /\
  exists r, storedAllScores analysis_db "pacman" = Some r /\
    let l := playerScoresOf (normInitials "bbb") (Scores r) in
    (forall e, In e l -> psFirstPlayed ps <= Timestamp e <= psLastPlayed ps) /\
    (exists e, In e l /\ Timestamp e = psFirstPlayed ps) /\
    (exists e, In e l /\ Timestamp e = psLastPlayed ps).
Proof.
  destruct (GetPlayerStats "pacman" "bbb" analysis_db) as [[ps| |] db'] eqn:E;
    [|vm_compute in E; discriminate..].
  exists ps, db'. split; [reflexivity|].
  exact (GetPlayerStats_played_span _ _ _ _ _ E).
Defined.

Lemma GetPlayerStats_average_witness :
  exists ps db', GetPlayerStats "pacman" "bbb" analysis_db = (Ok ps, db') /\
  exists r, storedAllScores analysis_db "pacman" = Some r /\
    let l := playerScoresOf (normInitials "bbb") (Scores r) in
    psAverageScore ps = {| num := wrap64 (fold_right Z.add 0 (map Score l));
                           den := length l |}.
Proof.
  destruct (GetPlayerStats "pacman" "bbb" analysis_db) as [[ps| |] db'] eqn:E;
    [|vm_compute in E; discriminate..].
  exists ps, db'. split; [reflexivity|].
  exact (GetPlayerStats_average _ _ _ _ _ E).
Defined.

Lemma SubmitScore_history_appended_witness :
  String.length (normInitials " aaa") = 3%nat /\ containsSpace (normInitials " aaa") = false /\
  let db' := snd (SubmitScore "pacman" " aaa" 700 9 witness_db) in
  GetAllScoresForGame "pacman" db' =
  (Ok {| asGameID := match storedAllScores witness_db "pacman" with Some a => asGameID a | None => "pacman" end;
         Scores := match storedAllScores witness_db "pacman" with Some a => Scores a | None => [] end
                   ++ [{| Initials := normInitials " aaa"; Score := 700; Timestamp := 9 |}];
         asUpdated := 9 |}, db').
Proof.
  assert (H1 : String.length (normInitials " aaa") = 3%nat) by reflexivity.
  assert (H2 : containsSpace (normInitials " aaa") = false) by reflexivity.
  split; [exact H1|]. split; [exact H2|].
  exact (SubmitScore_history_appended "pacman" " aaa" 700 9 witness_db H1 H2).
Defined.

Lemma SubmitScore_then_GetLeaderboard_witness :
  exists db', SubmitScore "pacman" "bbb" 300 2 witness_db = (Ok tt, db') /\
  GetLeaderboard "pacman" 5 db' =
    (Ok {| GameID := "pacman"; Entries := filteredEntries (storedHighScores db' "pacman") |}, db').
Proof.
  destruct (SubmitScore "pacman" "bbb" 300 2 witness_db) as [[[]| |] db'] eqn:E;
    [|vm_compute in E; discriminate..].
  exists db'. split; [reflexivity|].
  exact (SubmitScore_then_GetLeaderboard _ _ _ _ 5 _ _ E).
Defined.

Lemma submit_response_rank_witness :
  exists db', SubmitScore "pacman" "aaa" 100 1 ∅ = (Ok tt, db') /\
  let k := normInitials "aaa" in
  let lb := {| GameID := "pacman"; Entries := filteredEntries (storedHighScores db' "pacman") |} in
  submitScoreResponse "pacman" k 2 db' = (Ok (Some lb, rankOf k 0 (Entries lb)), db') /\
  (exists best, storedHighScores db' "pacman" !! k = Some best /\
     match rankOf k 0 (Entries lb) with
     | Some r => (1 <= r <= 10)%nat /\ Entries lb !! (r - 1)%nat = Some best
     | None => ~ In best (Entries lb)
     end).
Proof.
  destruct (SubmitScore "pacman" "aaa" 100 1 ∅) as [[[]| |] db'] eqn:E;
    [|vm_compute in E; discriminate..].
  exists db'. split; [reflexivity|].
  exact (submit_response_rank _ _ _ _ 2 _ _ reach_empty E).
Defined.

Lemma submitScoreLegacy_rejects_invalid_entry_witness :
  snd (ScoreEntry_Validate 0 {| Initials := "A"; Score := 100; Timestamp := 1 |}) <> None /\
  (forall lb, storedLeaderboard ∅ "pacman" = Some lb -> (length (Entries lb) < 10)%nat) /\
  snd (submitScoreLegacy "pacman" "A" 100 1 ∅) = ∅ /\
  exists e, fst (submitScoreLegacy "pacman" "A" 100 1 ∅) = Err e.
Proof.
  assert (H1 : snd (ScoreEntry_Validate 0 {| Initials := "A"; Score := 100; Timestamp := 1 |}) <> None)
    by (vm_compute; discriminate).
  assert (H2 : forall lb, storedLeaderboard ∅ "pacman" = Some lb -> (length (Entries lb) < 10)%nat)
    by (intros lb Hlb; vm_compute in Hlb; discriminate).
  split; [exact H1|]. split; [exact H2|].
  exact (submitScoreLegacy_rejects_invalid_entry "pacman" "A" 100 1 ∅ H1 H2).
Defined.

Lemma GetScoreAnalysis_totals_witness :
  exists r, fst (GetScoreAnalysis "pacman" 5 10 analysis_db) = Ok r /\
  exists h, storedAllScores analysis_db "pacman" = Some h /\ Scores h <> [] /\
    TotalScores r = length (Scores h) /\
    TotalPlayers r = size (list_to_set (map Initials (Scores h)) : gset string) /\
    raAverageScore r = {| num := wrap64 (fold_right Z.add 0 (map Score (Scores h)));
                          den := length (Scores h) |}.
Proof.
  destruct (fst (GetScoreAnalysis "pacman" 5 10 analysis_db)) as [r| |] eqn:E;
    [|vm_compute in E; discriminate..].
  exists r. split; [reflexivity|].
  exact (GetScoreAnalysis_totals _ _ _ _ _ E).
Defined.

Lemma GetScoreAnalysis_extremes_witness :
  exists r, fst (GetScoreAnalysis "pacman" 5 10 analysis_db) = Ok r /\
  exists h, storedAllScores analysis_db "pacman" = Some h /\
    0 <= HighestScore r /\
    (forall e, In e (Scores h) -> Score e <= HighestScore r /\ Timestamp e <= LastActivity r) /\
    (HighestScore r = 0 \/ exists e, In e (Scores h) /\ Score e = HighestScore r) /\
    (LastActivity r = zeroTime \/ exists e, In e (Scores h) /\ Timestamp e = LastActivity r).
Proof.
  destruct (fst (GetScoreAnalysis "pacman" 5 10 analysis_db)) as [r| |] eqn:E;
    [|vm_compute in E; discriminate..].
  exists r. split; [reflexivity|].
  exact (GetScoreAnalysis_extremes _ _ _ _ _ E).
Defined.

Lemma GetEnhancedPlayerStats_history_witness :
  exists es, fst (GetEnhancedPlayerStats "pacman" "ccc" true 10 analysis_db) = Ok es /\
  exists r, storedAllScores analysis_db "pacman" = Some r /\
    Permutation (ScoreHistory es) (playerScoresOf (normInitials "ccc") (Scores r)) /\
    StronglySorted tsOrder (ScoreHistory es).
Proof.
  destruct (fst (GetEnhancedPlayerStats "pacman" "ccc" true 10 analysis_db)) as [es| |] eqn:E;
    [|vm_compute in E; discriminate..].
  exists es. split; [reflexivity|].
  exact (GetEnhancedPlayerStats_history _ _ true _ _ _ E).
Defined.

Lemma GetEnhancedPlayerStats_rank_witness :
  let db := snd (SubmitScore "pacman" "aaa" 100 1 ∅) in
  reachable db /\
  exists es, fst (GetEnhancedPlayerStats "pacman" "aaa" false 10 db) = Ok es /\
  match CurrentRank es with
  | Some r => exists lb, storedLeaderboard db "pacman" = Some lb /\ (1 <= r <= 10)%nat /\
      exists e, Entries lb !! (r - 1)%nat = Some e /\ Initials e = eInitials es
  | None => forall lb, storedLeaderboard db "pacman" = Some lb ->
      forall e, In e (Entries lb) -> Initials e <> eInitials es
  end.
Proof.
  cbv zeta.
  assert (Hr : reachable (snd (SubmitScore "pacman" "aaa" 100 1 ∅))) by (apply reach_submit, reach_empty).
  split; [exact Hr|].
  destruct (fst (GetEnhancedPlayerStats "pacman" "aaa" false 10
                   (snd (SubmitScore "pacman" "aaa" 100 1 ∅)))) as [es| |] eqn:E;
    [|vm_compute in E; discriminate..].
  exists es. split; [reflexivity|].
  exact (GetEnhancedPlayerStats_rank _ _ _ _ _ _ Hr E).
Defined.

Lemma calculateAchievements_first_and_hunter_witness :
  achievements_sample <> [] /\
  exists achs sorted, calculateAchievements achievements_sample 1200 = (achs, sorted) /\
  (exists first rest, achs = first :: rest /\ ID first = "first_score" /\
     (exists e, In e achievements_sample /\ UnlockedAt first = Timestamp e) /\
     forall e, In e achievements_sample -> UnlockedAt first <= Timestamp e) /\
  ((exists a, In a achs /\ ID a = "score_hunter") <-> (10 <= length achievements_sample)%nat).
Proof.
  assert (Hne : achievements_sample <> []) by discriminate.
  split; [exact Hne|].
  destruct (calculateAchievements achievements_sample 1200) as [achs sorted] eqn:E.
  exists achs, sorted. split; [reflexivity|].
  exact (calculateAchievements_first_and_hunter _ _ _ _ Hne E).
Defined.

(** ** The corrected claims C5 and C7 *)

Lemma GetEnhancedPlayerStats_no_panic g ini includeHistory now (db : DB) :
  match fst (GetEnhancedPlayerStats g ini includeHistory now db) with
  | Panic _ => False | _ => True end.
Proof.
  unfold GetEnhancedPlayerStats.
  destruct (negb _); [exact I|].
  unfold bind, with_context. rewrite getAllScores_spec.
  destruct (db !! key_all_scores g) as [[r| | |]|]; cbv beta iota; try exact I.
  destruct (playerScoresOf _ _) as [|e l]; [exact I|].
  destruct (playerStatsOf (e :: l)) as [[[h t] f] la]. cbv beta iota.
  unfold attempt. rewrite GetLeaderboard_spec.
  destruct (calculateAchievements (e :: l) h).
  destruct (db !! key_leaderboard g) as [[| | lb |]|]; exact I.
Qed.

Lemma topPlayersLoop_spec g limit i entries now (db : DB) :
  topPlayersLoop g limit i entries now db =
  (Ok (omap (fun e => resValue (fst (GetEnhancedPlayerStats g (Initials e) false now db)))
            (take (Z.to_nat limit - i) entries)), db).
Proof.
  revert i. induction entries as [|e es IH]; intros i; simpl.
  - rewrite take_nil. reflexivity.
  - destruct (Z.leb_spec limit (Z.of_nat i)) as [Hle|Hlt].
    + replace (Z.to_nat limit - i)%nat with 0%nat by lia. reflexivity.
    + replace (Z.to_nat limit - i)%nat with (S (Z.to_nat limit - S i)) by lia.
      unfold bind at 1, attempt.
      pose proof (readOnly_GetEnhancedPlayerStats g (Initials e) false now db) as Hro.
      pose proof (GetEnhancedPlayerStats_no_panic g (Initials e) false now db) as Hnp.
      destruct (GetEnhancedPlayerStats g (Initials e) false now db) as [[st|er|er] db1] eqn:E;
        simpl in Hro, Hnp; subst db1; [| |destruct Hnp];
        unfold bind; rewrite IH; unfold ret, omap; cbn [take list_omap].
      * replace (resValue (fst (GetEnhancedPlayerStats g (Initials e) false now db))) with (Some st)
          by (rewrite E; reflexivity). reflexivity.
      * replace (resValue (fst (GetEnhancedPlayerStats g (Initials e) false now db))) with (@None EnhancedPlayerStats)
          by (rewrite E; reflexivity). reflexivity.
Qed.

Lemma GetScoreAnalysis_top_players g limit now (db db' : DB) r :
  GetScoreAnalysis g limit now db = (Ok r, db') ->
  exists lb, storedLeaderboard db g = Some lb /\
    TopPlayers r =
      omap (fun e => resValue (fst (GetEnhancedPlayerStats g (Initials e) false now db)))
           (take (Z.to_nat (clampLimit limit)) (Entries lb)).
Proof.
  unfold GetScoreAnalysis, storedLeaderboard, with_context, bind. rewrite getAllScores_spec.
  destruct (db !! key_all_scores g) as [[h| | |]|]; try discriminate. cbv beta iota.
  destruct (Scores h) as [|e es] eqn:Es; [discriminate|].
  destruct (analysisLoop (e :: es)) as [[[hs ts] la] pm] eqn:Ea.
  unfold attempt. rewrite GetLeaderboard_spec.
  destruct (db !! key_leaderboard g) as [[| | lb |]|]; try discriminate. cbv beta iota.
  rewrite topPlayersLoop_spec. unfold ret. intros H. injection H as <- _.
  exists lb. split; [reflexivity|]. simpl. rewrite Nat.sub_0_r. reflexivity.
Qed.

Lemma resValue_GetEnhancedPlayerStats g ini includeHistory now (db : DB) p :
  resValue (fst (GetEnhancedPlayerStats g ini includeHistory now db)) = Some p ->
  eInitials p = normInitials ini.
Proof.
  destruct (fst (GetEnhancedPlayerStats g ini includeHistory now db)) as [es| |] eqn:E;
    try discriminate.
  intros Hs. injection Hs as <-.
  destruct (GetEnhancedPlayerStats_ok _ _ _ _ _ _ E) as (r & e & l & _ & _ & Hi & _). exact Hi.
Qed.

(** C5 (amended): [SubmitScore] rejects initials that do not normalise
    (trim, upper-case) to 3 bytes without a space, leaving the store
    untouched.  It does not check the score: with valid initials, any score
    (also one outside [0, 999999999]) is appended to the game's history,
    whatever the call returns.  The score range is enforced by the HTTP
    handler: a request with bad initials or an out-of-range score is
    answered 400 and the store is left untouched. *)
Theorem submission_validation_layers :
  (forall g ini score now (db : DB),
     String.length (normInitials ini) <> 3%nat \/ containsSpace (normInitials ini) = true ->
     SubmitScore g ini score now db =
       (Err "initials must be exactly 3 characters with no spaces", db)) /\
  (forall g req now (db : DB),
     String.length (normInitials (reqInitials req)) <> 3%nat \/
     containsSpace (normInitials (reqInitials req)) = true ->
     handleSubmitScore g req now db = (Ok 400%nat, db)) /\
  (forall g req now (db : DB),
     reqScore req < 0 \/ 999999999 < reqScore req ->
     handleSubmitScore g req now db = (Ok 400%nat, db)) /\
  (forall g ini score now (db : DB),
     String.length (normInitials ini) = 3%nat -> containsSpace (normInitials ini) = false ->
     let db' := snd (SubmitScore g ini score now db) in
     GetAllScoresForGame g db' =
     (Ok {| asGameID := match storedAllScores db g with Some a => asGameID a | None => g end;
            Scores := match storedAllScores db g with Some a => Scores a | None => [] end
                      ++ [{| Initials := normInitials ini; Score := score; Timestamp := now |}];
            asUpdated := now |}, db')).
Proof.
  split; [exact SubmitScore_bad_initials|]. split; [|split].
  - intros g req now db Hi. apply handleSubmitScore_rejected.
    apply ScoreEntry_Validate_initials. exact Hi.
  - intros g req now db Hr. apply handleSubmitScore_rejected.
    apply ScoreEntry_Validate_range. exact Hr.
  - exact SubmitScore_history_after.
Qed.

Lemma submission_validation_layers_witness :
  SubmitScore "pacman" " a b " 100 1 out_of_range_db =
    (Err "initials must be exactly 3 characters with no spaces", out_of_range_db) /\
  handleSubmitScore "pacman" {| reqInitials := "ab"; reqScore := 100 |} 1 out_of_range_db =
    (Ok 400%nat, out_of_range_db) /\
  handleSubmitScore "pacman" {| reqInitials := "AAA"; reqScore := 1000000000 |} 1
    out_of_range_db = (Ok 400%nat, out_of_range_db) /\
  GetAllScoresForGame "pacman" (snd (SubmitScore "pacman" "aaa" 1000000000 2 out_of_range_db)) =
    (Ok {| asGameID := "pacman";
           Scores := [{| Initials := "AAA"; Score := 500; Timestamp := 1 |};
                      {| Initials := "AAA"; Score := 1000000000; Timestamp := 2 |}];
           asUpdated := 2 |},
     snd (SubmitScore "pacman" "aaa" 1000000000 2 out_of_range_db)).
Proof.
  destruct submission_validation_layers as [H1 [H2 [H3 H4]]].
  split; [apply H1; right; vm_compute; reflexivity|].
  split; [apply H2; left; vm_compute; discriminate|].
  split; [apply H3; simpl; lia|].
  exact (H4 "pacman" "aaa" 1000000000 2 out_of_range_db eq_refl eq_refl).
Defined.

(** C7 (amended): the service replaces a limit <= 0 or > 10 by 10 and
    keeps a limit in [1, 10]; a successful analysis lists at most that many
    top players, taken from the stored leaderboard: the enhanced statistics
    of the first [limit] entries, in leaderboard order, skipping an entry
    whose statistics fail, each listed under that entry's normalised
    initials.  The handler's limit is always in [1, 10] and is 5 when
    the parameter is missing or invalid. *)
Theorem top_players_limit_clamped :
  (forall l, 1 <= clampLimit l <= 10 /\
     ((l <= 0 \/ 10 < l) -> clampLimit l = 10) /\
     (1 <= l <= 10 -> clampLimit l = l)) /\
  (forall g l now (db db' : DB) r,
     GetScoreAnalysis g l now db = (Ok r, db') ->
     (length (TopPlayers r) <= Z.to_nat (clampLimit l))%nat) /\
  handlerTopPlayersLimit None = 5 /\
  (forall q, 1 <= handlerTopPlayersLimit q <= 10) /\
  (forall l, (l <= 0 \/ 10 < l) -> handlerTopPlayersLimit (Some l) = 5) /\
  (forall l, 1 <= l <= 10 -> handlerTopPlayersLimit (Some l) = l) /\
  (forall g l now (db db' : DB) r,
     GetScoreAnalysis g l now db = (Ok r, db') ->
     exists lb, storedLeaderboard db g = Some lb /\
       TopPlayers r =
         omap (fun e => resValue (fst (GetEnhancedPlayerStats g (Initials e) false now db)))
              (take (Z.to_nat (clampLimit l)) (Entries lb)) /\
       forall p, In p (TopPlayers r) ->
         exists e, In e (take (Z.to_nat (clampLimit l)) (Entries lb)) /\
           eInitials p = normInitials (Initials e)).
Proof.
  split; [|split; [exact GetScoreAnalysis_top|split; [reflexivity|split; [|split; [|split]]]]].
  - intros l. unfold clampLimit.
    destruct (l <=? 0) eqn:E1; destruct (10 <? l) eqn:E2; simpl;
      rewrite ?Z.leb_le, ?Z.leb_gt, ?Z.ltb_lt, ?Z.ltb_ge in *; lia.
  - intros [l|]; simpl; [|lia].
    destruct (0 <? l) eqn:E1; destruct (l <=? 10) eqn:E2; simpl;
      rewrite ?Z.leb_le, ?Z.leb_gt, ?Z.ltb_lt, ?Z.ltb_ge in *; lia.
  - intros l Hl; simpl.
    destruct (0 <? l) eqn:E1; destruct (l <=? 10) eqn:E2; simpl;
      rewrite ?Z.leb_le, ?Z.leb_gt, ?Z.ltb_lt, ?Z.ltb_ge in *; lia.
  - intros l Hl; simpl.
    destruct (0 <? l) eqn:E1; destruct (l <=? 10) eqn:E2; simpl;
      rewrite ?Z.leb_le, ?Z.leb_gt, ?Z.ltb_lt, ?Z.ltb_ge in *; lia.
  - intros g l now db db' r H.
    destruct (GetScoreAnalysis_top_players g l now db db' r H) as [lb [Hlb Ht]].
    exists lb. split; [exact Hlb|]. split; [exact Ht|].
    intros p Hp. rewrite Ht in Hp. apply list_elem_of_In, list_elem_of_omap in Hp as (e & He & Hv).
    exists e. split; [apply list_elem_of_In, He|].
    exact (resValue_GetEnhancedPlayerStats _ _ _ _ _ _ Hv).
Qed.

Lemma top_players_limit_clamped_witness :
  clampLimit 0 = 10 /\ clampLimit (-3) = 10 /\ clampLimit 4 = 4 /\
  (forall r db', GetScoreAnalysis "pacman" 2 10 analysis_db = (Ok r, db') ->
     (length (TopPlayers r) <= 2)%nat) /\
  handlerTopPlayersLimit (Some 0) = 5 /\ handlerTopPlayersLimit (Some 7) = 7 /\
  exists r db', GetScoreAnalysis "pacman" 2 10 analysis_db = (Ok r, db') /\
    exists lb, storedLeaderboard analysis_db "pacman" = Some lb /\
      TopPlayers r =
        omap (fun e => resValue (fst (GetEnhancedPlayerStats "pacman" (Initials e) false 10
                                        analysis_db)))
             (take (Z.to_nat (clampLimit 2)) (Entries lb)) /\
      forall p, In p (TopPlayers r) ->
        exists e, In e (take (Z.to_nat (clampLimit 2)) (Entries lb)) /\
          eInitials p = normInitials (Initials e).
Proof.
  destruct top_players_limit_clamped as [Hc [Ha [_ [_ [Hz [Hin Htop]]]]]].
  split; [apply Hc; lia|]. split; [apply Hc; lia|]. split; [apply Hc; lia|].
  split; [intros r db' H; exact (Ha _ _ _ _ _ _ H)|].
  split; [apply Hz; lia|]. split; [apply Hin; lia|].
  destruct (GetScoreAnalysis "pacman" 2 10 analysis_db) as [[r| |] db'] eqn:E;
    [|vm_compute in E; discriminate..].
  exists r, db'. split; [reflexivity|]. exact (Htop _ _ _ _ _ _ E).
Defined.
